(** * beamspy.annotation: annotation matching and aggregation

    A shallow embedding of [beamspy/annotation.py] and the properties of
    its matchers, reference stores and summary step.

    Conventions of the embedding.
    - Python floats are idealised as exact rationals ([Q]). The
      statements compare and order the computed values, or carry the
      bound their double-precision computation needs; they assert no
      equality that holds only of the exact values.
    - A division by zero raises [ZeroDivisionError]. Flat-list mode
      divides numpy floats, which give inf or nan and go on; the
      statements that depend on what happens there assume that no
      denominator is zero.
    - Python exceptions are values of [exn]; a function that can raise
      returns a [result].
    - An [OrderedDict] is an association list in insertion order.
    - A SQLite table is the list of its rows in rowid order; the order
      in which a SELECT returns rows is the order of the table.
    - The rows a cursor inserts reach the file at [commit]. The runs on
      the cursor are named [..._cursor]; the orchestrators return what
      the file holds when the call is over.
    - Two conversions are SQLite's own and are taken as parameters:
      [sql_literal], the number read back from a float pasted into a
      query text, and [integer_affinity], the value an INTEGER column
      keeps for a text, in the tables filled with INSERT OR REPLACE,
      where it decides which row a new one replaces.
    - A relationship graph is given as the list of its weakly connected
      components, which is what the orchestrators iterate over. *)

From Stdlib Require Import QArith Qabs Qround Lqa Lia Bool Ascii Sorted Permutation.
From stdpp Require Import base option list strings pretty gmap.

Local Open Scope string_scope.
Local Open Scope list_scope.

(** ** Exceptions *)

Inductive exn : Type :=
| ValueError
| TypeError
| KeyError
| IndexError
| AttributeError
| IntegrityError
| OperationalError
| ZeroDivisionError.

Inductive result (A : Type) : Type :=
| Ok (a : A)
| Raise (e : exn).

Arguments Ok {A} a.
Arguments Raise {A} e.

Definition rbind {A B : Type} (r : result A) (k : A -> result B) : result B :=
  match r with
  | Ok a => k a
  | Raise e => Raise e
  end.

#[global] Instance result_ret : MRet result := fun _ a => Ok a.
#[global] Instance result_bind : MBind result := fun _ _ k r => rbind r k.

Fixpoint rmap {A B : Type} (f : A -> result B) (l : list A) : result (list B) :=
  match l with
  | [] => Ok []
  | x :: t => y ← f x; ys ← rmap f t; Ok (y :: ys)
  end.

(** ** Float comparisons *)

Definition Qlt_bool (x y : Q) : bool := negb (Qle_bool y x).

(** ** Tolerance arithmetic *)

Definition calculate_mz_tolerance (mass ppm : Q) : Q * Q :=
  let min_tol := (mass - (mass * (1 # 1000000) * ppm))%Q in
  let max_tol := (mass + (mass * (1 # 1000000) * ppm))%Q in
  (min_tol, max_tol).

Definition calculate_ppm_error (mass theo_mass : Q) : Q :=
  ((theo_mass - mass) / (theo_mass * (1 # 1000000)))%Q.

(** ** Libraries *)

(** A value of an adduct-style library: a bare float, or a dict with the
    keys "mass" and "charge". *)
Inductive lib_value : Type :=
| LFloat (mass : Q)
| LMassCharge (mass : Q) (charge : Z).

(** An entry of an isotope-style library: two labels, each with an
    abundance, and the key "mass_difference" (absent: [None]). *)
Record iso_entry : Type := mk_iso {
  iso_label_a : string;
  iso_abundance_a : Q;
  iso_label_b : string;
  iso_abundance_b : Q;
  iso_mass_difference : option Q
}.

Inductive library : Type :=
| LibDict (items : list (string * lib_value))
| LibList (items : list iso_entry)
| LibOther.

Record side : Type := mk_side {
  side_label : string;
  side_mass : Q;
  side_charge : Z
}.

(** A comparison pair as the matchers consume it. *)
Inductive lib_pair : Type :=
| PairMC (a b : side)
| PairDiff (e : iso_entry).

(** [itertools.combinations(l, 2)] *)
Fixpoint combinations2 {A : Type} (l : list A) : list (A * A) :=
  match l with
  | [] => []
  | x :: t => map (pair x) t ++ combinations2 t
  end.

(** [sorted(l, key=key, reverse=True)]: a stable sort, largest key first. *)
Fixpoint insert_desc {A : Type} (key : A -> Q) (x : A) (l : list A) : list A :=
  match l with
  | [] => [x]
  | y :: t => if Qlt_bool (key x) (key y) then y :: insert_desc key x t
              else x :: y :: t
  end.

Definition sorted_reverse {A : Type} (key : A -> Q) (l : list A) : list A :=
  foldr (insert_desc key) [] l.

(** The pair built at lines 59-64 from two items of the library. *)
Definition make_pair (p : (string * lib_value) * (string * lib_value)) : result lib_pair :=
  match p with
  | ((la, LFloat ma), (lb, LFloat mb)) =>
      Ok (PairMC (mk_side la ma 1) (mk_side lb mb 1))
  | ((la, LMassCharge ma ca), (lb, LMassCharge mb cb)) =>
      Ok (PairMC (mk_side la ma ca) (mk_side lb mb cb))
  | _ => Raise TypeError
  end.

(** The sort key of line 65: first mass minus second mass. *)
Definition pair_key (p : lib_pair) : Q :=
  match p with
  | PairMC a b => (side_mass a - side_mass b)%Q
  | PairDiff e => default 0%Q (iso_mass_difference e)
  end.

Definition diff_key (e : iso_entry) : result Q :=
  match iso_mass_difference e with
  | Some d => Ok d
  | None => Raise KeyError
  end.

Definition _prep_lib (lib : library) : result (list lib_pair) :=
  match lib with
  | LibDict items =>
      lib_pairs ← rmap make_pair (combinations2 items);
      Ok (sorted_reverse pair_key lib_pairs)
  | LibList [] => Raise IndexError
  | LibList ((e0 :: _) as l) =>
      match iso_mass_difference e0 with
      | Some _ =>
          _ ← rmap diff_key l;
          Ok (map PairDiff (sorted_reverse (fun d => default 0%Q (iso_mass_difference d)) l))
      | None => Raise ValueError
      end
  | LibOther => Raise ValueError
  end.

(** ** Generators

    A Python generator, or a loop that persists what it finds, is the list
    of what it produced together with the exception that stopped it, if
    one did. *)

Definition gen (A : Type) : Type := (list A * option exn)%type.

Definition gnil {A : Type} : gen A := ([], None).
Definition gyield {A : Type} (x : A) : gen A := ([x], None).
Definition graise {A : Type} (e : exn) : gen A := ([], Some e).

Definition gapp {A : Type} (g1 g2 : gen A) : gen A :=
  match g1 with
  | (l, Some e) => (l, Some e)
  | (l, None) => (l ++ g2.1, g2.2)
  end.

(** [for x in l: body] *)
Fixpoint gfor {X A : Type} (l : list X) (body : X -> gen A) : gen A :=
  match l with
  | [] => gnil
  | x :: t => gapp (body x) (gfor t body)
  end.

(** [range(lo, hi)] *)
Definition py_range (lo hi : Z) : list Z :=
  map (fun k => (lo + Z.of_nat k)%Z) (seq 0 (Z.to_nat (hi - lo))).

(** [round(x)] and [round(x, 2)]: halves go to the even neighbour. *)
Definition py_round (x : Q) : Z :=
  let f := Qfloor x in
  match Qcompare (x - inject_Z f) (1 # 2) with
  | Lt => f
  | Gt => (f + 1)%Z
  | Eq => if Z.even f then f else (f + 1)%Z
  end.

Definition py_round2 (x : Q) : Q := (inject_Z (py_round (x * 100)) / 100)%Q.

(** [calculate_ppm_error] with the division by zero that Python raises. *)
Definition ppm_error_checked (mass theo_mass : Q) : result Q :=
  if Qeq_bool (theo_mass * (1 # 1000000)) 0 then Raise ZeroDivisionError
  else Ok (calculate_ppm_error mass theo_mass).

(** ** Peak sources *)

Record peak : Type := mk_peak {
  name : string;
  mz : Q;
  rt : Q;
  intensity : Q
}.

(** A [DataFrame] with the columns name, mz, rt, intensity. *)
Definition dataframe : Type := list peak.

Record node_data : Type := mk_node {
  node_mz : Q;
  node_intensity : Q
}.

(** A [DiGraph]: its nodes and its edges, each in iteration order. *)
Record digraph : Type := mk_graph {
  nodes : list (string * node_data);
  edges : list (string * string)
}.

(** What the orchestrators dispatch on: a peak table, or the list of the
    weakly connected components of the relationship graph. *)
Inductive source : Type :=
| SrcFrame (df : dataframe)
| SrcGraphs (gs : list digraph).

Fixpoint assoc {V : Type} (k : string) (l : list (string * V)) : option V :=
  match l with
  | [] => None
  | (k', v) :: t => if String.eqb k k' then Some v else assoc k t
  end.

(** [G.nodes[n]] *)
Definition node (G : digraph) (n : string) : result node_data :=
  match assoc n (nodes G) with
  | Some d => Ok d
  | None => Raise KeyError
  end.

(** [G.neighbors(n)]: the successors of [n]. *)
Definition neighbors (G : digraph) (n : string) : list string :=
  map snd (filter (fun e => String.eqb (fst e) n) (edges G)).

(** ** The pairwise matching predicate *)

(** The two tolerance windows after the shifts of lines 91-103. *)
Definition shifted_windows (mz_x mz_y : Q) (lp : lib_pair) (ppm : Q)
  : result (Q * Q * Q * Q) :=
  let '(min_tol_a, max_tol_a) := calculate_mz_tolerance mz_x ppm in
  let '(min_tol_b, max_tol_b) := calculate_mz_tolerance mz_y ppm in
  match lp with
  | PairDiff e =>
      match iso_mass_difference e with
      | Some d => Ok (min_tol_a, max_tol_a, min_tol_b - d, max_tol_b - d)%Q
      | None => Raise ValueError
      end
  | PairMC a b =>
      Ok ((min_tol_a - side_mass a) * inject_Z (side_charge a),
          (max_tol_a - side_mass a) * inject_Z (side_charge a),
          (min_tol_b - side_mass b) * inject_Z (side_charge b),
          (max_tol_b - side_mass b) * inject_Z (side_charge b))%Q
  end.

Definition _check_tolerance (mz_x mz_y : Q) (lp : lib_pair) (ppm : Q) : result Z :=
  w ← shifted_windows mz_x mz_y lp ppm;
  let '(min_tol_a, max_tol_a, min_tol_b, max_tol_b) := w in
  if Qlt_bool min_tol_a max_tol_b && Qlt_bool min_tol_b max_tol_a then Ok 1%Z
  else Ok 0%Z.

Record assignment : Type := mk_assignment {
  peak_id_a : string;
  peak_id_b : string;
  label_a : string;
  label_b : string;
  charge_a : Z;
  charge_b : Z;
  ppm_error : Q
}.

Definition pair_labels (lp : lib_pair) : string * string :=
  match lp with
  | PairMC a b => (side_label a, side_label b)
  | PairDiff e => (iso_label_a e, iso_label_b e)
  end.

Definition pair_charges (lp : lib_pair) : Z * Z :=
  match lp with
  | PairMC a b => (side_charge a, side_charge b)
  | PairDiff _ => (1%Z, 1%Z)
  end.

Definition pair_ppm_error (mz_x mz_y : Q) (lp : lib_pair) : result Q :=
  match lp with
  | PairDiff e =>
      match iso_mass_difference e with
      | Some d => ppm_error_checked mz_x (mz_y - d)
      | None => Raise KeyError
      end
  | PairMC a b =>
      ppm_error_checked ((mz_x - side_mass a) * inject_Z (side_charge a))
                        ((mz_y - side_mass b) * inject_Z (side_charge b))
  end.

(** The body shared by the two pair generators: one library pair tried
    on one pair of peaks. *)
Definition try_pair (id_x id_y : string) (mz_x mz_y ppm : Q) (lp : lib_pair)
  : gen assignment :=
  match _check_tolerance mz_x mz_y lp ppm with
  | Raise e => graise e
  | Ok ct =>
      if (ct =? 1)%Z then
        match pair_ppm_error mz_x mz_y lp with
        | Raise e => graise e
        | Ok pe =>
            gyield (mk_assignment id_x id_y (pair_labels lp).1 (pair_labels lp).2
                      (pair_charges lp).1 (pair_charges lp).2 (py_round2 pe))
        end
      else gnil
  end.

Definition _annotate_pairs_from_graph (G : digraph) (ppm : Q) (lib_pairs : list lib_pair)
  : gen assignment :=
  gfor (edges G) (fun e =>
    match node G e.1, node G e.2 with
    | Ok dx, Ok dy =>
        gfor lib_pairs (try_pair e.1 e.2 (node_mz dx) (node_mz dy) ppm)
    | Raise ex, _ | _, Raise ex => graise ex
    end).

(** The inner loop [for j in range(i + 1, n)] runs over the peaks after
    the [i]-th. *)
Fixpoint later_pairs {A : Type} (l : list A) : list (A * list A) :=
  match l with
  | [] => []
  | x :: t => (x, t) :: later_pairs t
  end.

Definition _annotate_pairs_from_peaklist (peaklist : dataframe) (ppm : Q)
  (lib_pairs : list lib_pair) : gen assignment :=
  gfor (later_pairs peaklist) (fun '(pi, rest) =>
    gfor rest (fun pj =>
      gfor lib_pairs (try_pair (name pi) (name pj) (mz pi) (mz pj) ppm))).

(** ** Commands on an output table

    An orchestrator works on its output table through a cursor; a command
    maps the table to the table it leaves behind and the exception it
    raised, if any. *)

Definition cmd (S : Type) : Type := S -> S * option exn.

Definition cskip {S : Type} : cmd S := fun s => (s, None).

Definition cseq {S : Type} (c1 c2 : cmd S) : cmd S :=
  fun s => match c1 s with
           | (s', None) => c2 s'
           | (s', Some e) => (s', Some e)
           end.

Definition exec {S : Type} (f : S -> result S) : cmd S :=
  fun s => match f s with
           | Ok s' => (s', None)
           | Raise e => (s, Some e)
           end.

Fixpoint cfor {A S : Type} (l : list A) (body : A -> cmd S) : cmd S :=
  match l with
  | [] => cskip
  | x :: t => cseq (body x) (cfor t body)
  end.

(** [for x in g: body], [g] a generator. *)
Definition cfor_gen {A S : Type} (g : gen A) (body : A -> cmd S) : cmd S :=
  cseq (cfor g.1 body) (fun s => (s, g.2)).

(** [conn.commit()] stands after the loops of an orchestrator. A run that
    raises before it never commits: the connection goes with the frame
    of the call, and the rows its cursor had inserted are rolled back.
    [transaction c] leaves the table [c] leaves when [c] ends normally,
    and the table it started from when [c] raises. *)
Definition transaction {S : Type} (c : cmd S) : cmd S :=
  fun s => match c s with
           | (s', None) => (s', None)
           | (_, Some e) => (s, Some e)
           end.

(** [INSERT INTO] a table with a primary key: a row whose key is taken
    violates the constraint and the statement raises. *)
Definition sql_insert {R : Type} (same_key : R -> R -> bool) (r : R) (tbl : list R)
  : result (list R) :=
  if existsb (same_key r) tbl then Raise IntegrityError else Ok (tbl ++ [r]).

(** ** Isotopes *)

Record isotopes_row : Type := mk_isotopes_row {
  i_peak_id_a : string;
  i_peak_id_b : string;
  i_label_a : string;
  i_label_b : string;
  i_atoms : option Q;
  i_ppm_error : Q
}.

Definition isotopes_key (r r' : isotopes_row) : bool :=
  String.eqb (i_peak_id_a r) (i_peak_id_a r') && String.eqb (i_peak_id_b r) (i_peak_id_b r')
  && String.eqb (i_label_a r) (i_label_a r') && String.eqb (i_label_b r) (i_label_b r').

(** The dict [abundances] of lines 345-348. *)
Definition abundances_of (lib : list iso_entry) : gmap string Q :=
  foldl (fun m pair =>
           <[iso_label_b pair := iso_abundance_b pair]>
             (<[iso_label_a pair := iso_abundance_a pair]> m)) ∅ lib.

Definition abundance (abundances : gmap string Q) (label : string) : result Q :=
  match abundances !! label with
  | Some q => Ok q
  | None => Raise KeyError
  end.

(** Lines 361-369 and 379-387. *)
Definition estimate_atoms (ab_a ab_b int_a int_b : Q) : option Q :=
  let y := (ab_a * int_b)%Q in
  let x := (ab_b * int_a)%Q in
  if Qeq_bool x 0 || Qeq_bool y 0 then None
  else if Qlt_bool ab_a ab_b then Some (x / y)%Q
  else Some (y / x)%Q.

(** [float(v)] *)
Definition py_float (v : option Q) : result Q :=
  match v with
  | Some q => Ok q
  | None => Raise TypeError
  end.

(** [source.loc[source['name'] == id]["intensity"].iloc[0]] *)
Definition intensity_of (df : dataframe) (id : string) : result Q :=
  match filter (fun p => String.eqb (name p) id) df with
  | p :: _ => Ok (intensity p)
  | [] => Raise IndexError
  end.

Definition isotopes_from_graph (G : digraph) (abundances : gmap string Q)
  (asg : assignment) : cmd (list isotopes_row) :=
  exec (fun tbl =>
    ab_a ← abundance abundances (label_a asg);
    nb ← node G (peak_id_b asg);
    ab_b ← abundance abundances (label_b asg);
    na ← node G (peak_id_a asg);
    let atoms := estimate_atoms ab_a ab_b (node_intensity na) (node_intensity nb) in
    atoms_f ← py_float atoms;
    sql_insert isotopes_key
      (mk_isotopes_row (peak_id_a asg) (peak_id_b asg) (label_a asg) (label_b asg)
         (Some atoms_f) (ppm_error asg)) tbl).

Definition isotopes_from_peaklist (df : dataframe) (abundances : gmap string Q)
  (asg : assignment) : cmd (list isotopes_row) :=
  exec (fun tbl =>
    ab_a ← abundance abundances (label_a asg);
    int_b ← intensity_of df (peak_id_b asg);
    ab_b ← abundance abundances (label_b asg);
    int_a ← intensity_of df (peak_id_a asg);
    let atoms := estimate_atoms ab_a ab_b int_a int_b in
    sql_insert isotopes_key
      (mk_isotopes_row (peak_id_a asg) (peak_id_b asg) (label_a asg) (label_b asg)
         atoms (ppm_error asg)) tbl).

(** Lines 345-348 on [lib.lib]: iterating a non-empty [OrderedDict]
    yields its keys, which have no [items]. *)
Definition abundances_of_lib (lib : library) : result (gmap string Q) :=
  match lib with
  | LibList l => Ok (abundances_of l)
  | LibDict [] => Ok ∅
  | LibDict (_ :: _) => Raise AttributeError
  | LibOther => Raise TypeError
  end.

(** The loops of [annotate_isotopes] on the cursor, lines 353-392. *)
Definition annotate_isotopes_cursor (src : source) (ppm : Q) (lib_pairs : list lib_pair)
  (abundances : gmap string Q) : cmd (list isotopes_row) :=
  match src with
  | SrcGraphs gs =>
      cfor gs (fun graph =>
        cfor_gen (_annotate_pairs_from_graph graph ppm lib_pairs)
                 (isotopes_from_graph graph abundances))
  | SrcFrame df =>
      cfor_gen (_annotate_pairs_from_peaklist df ppm lib_pairs)
               (isotopes_from_peaklist df abundances)
  end.

(** [annotate_isotopes]: the table [isotopes] is dropped and created
    anew, so the run starts from the empty table. In graph mode the
    commit follows the loops; in flat-list mode line 392 commits after
    every insert, so the rows inserted before an exception stay. *)
Definition annotate_isotopes (src : source) (ppm : Q) (lib : library)
  : list isotopes_row * option exn :=
  match _prep_lib lib with
  | Raise e => ([], Some e)
  | Ok lib_pairs =>
      match abundances_of_lib lib with
      | Raise e => ([], Some e)
      | Ok abundances =>
          match src with
          | SrcGraphs _ =>
              transaction (annotate_isotopes_cursor src ppm lib_pairs abundances) []
          | SrcFrame _ => annotate_isotopes_cursor src ppm lib_pairs abundances []
          end
      end
  end.

(** ** Artifacts *)

(** What [_annotate_artifacts] is handed: a peak table, or the node view
    [graph.nodes(data=True)]. *)
Inductive peaklist_arg : Type :=
| FrameArg (df : dataframe)
| NodeViewArg (nv : list (string * node_data)).

(** The values [n] can hold at line 79 and in [_annotate_pairs_from_peaklist]. *)
Inductive pyobj : Type :=
| PyInt (n : Z)
| PySeries (xs : list Q).

(** [range(lo, n)]: only an integer can bound a range. *)
Definition range_to (lo : Z) (n : pyobj) : result (list Z) :=
  match n with
  | PyInt k => Ok (py_range lo k)
  | PySeries _ => Raise TypeError
  end.

(** [peaklist.iloc[i, 1]] *)
Definition iloc_mz (df : dataframe) (i : Z) : result Q :=
  if (i <? 0)%Z then Raise IndexError
  else match df !! Z.to_nat i with
       | Some p => Ok (mz p)
       | None => Raise IndexError
       end.

Definition artifact_pair (df : dataframe) (diff : Q) (i j : Z) : gen (Z * Z * Q * Q) :=
  match iloc_mz df i, iloc_mz df j with
  | Ok mi, Ok mj =>
      let mz_diff := (mi - mj)%Q in
      match ppm_error_checked mi mj with
      | Raise e => graise e
      | Ok pe => if Qlt_bool (Qabs mz_diff) diff then gyield (i, j, mz_diff, pe) else gnil
      end
  | Raise e, _ | _, Raise e => graise e
  end.

Definition _annotate_artifacts (peaklist : peaklist_arg) (diff : Q) : gen (Z * Z * Q * Q) :=
  match peaklist with
  | NodeViewArg _ => graise AttributeError
  | FrameArg df =>
      let n := PySeries (map mz df) in
      match range_to 0 n with
      | Raise e => graise e
      | Ok idx =>
          gfor idx (fun i =>
            match range_to (i + 1) n with
            | Raise e => graise e
            | Ok js => gfor js (artifact_pair df diff i)
            end)
      end
  end.

Record artifacts_row : Type := mk_artifacts_row {
  f_peak_id_a : string;
  f_peak_id_b : string;
  f_mz_diff : Q;
  f_ppm_error : Q
}.

Definition artifacts_key (r r' : artifacts_row) : bool :=
  String.eqb (f_peak_id_a r) (f_peak_id_a r') && String.eqb (f_peak_id_b r) (f_peak_id_b r').

(** Lines 529-530 and 534-535 index the yielded tuple with a string. *)
Definition persist_artifact (assignment : Z * Z * Q * Q) : cmd (list artifacts_row) :=
  exec (fun _ => Raise TypeError).

Definition annotate_artifacts (src : source) (diff : Q) : list artifacts_row * option exn :=
  match src with
  | SrcGraphs [] => ([], Some IndexError)
  | SrcGraphs gs =>
      cfor gs (fun graph =>
        cfor_gen (_annotate_artifacts (NodeViewArg (nodes graph)) diff) persist_artifact) []
  | SrcFrame df =>
      cfor_gen (_annotate_artifacts (FrameArg df) diff) persist_artifact []
  end.

(** ** Oligomers *)

Record oligomers_row : Type := mk_oligomers_row {
  o_peak_id_a : string;
  o_peak_id_b : string;
  o_mz_a : Q;
  o_mz_b : Q;
  o_label_a : string;
  o_label_b : string;
  o_mz_ratio : Q;
  o_ppm_error : Q
}.

Definition oligomers_key (r r' : oligomers_row) : bool :=
  String.eqb (o_peak_id_a r) (o_peak_id_a r') && String.eqb (o_peak_id_b r) (o_peak_id_b r').

(** ["M" in adduct] *)
Fixpoint contains_M (s : string) : bool :=
  match s with
  | EmptyString => false
  | String c t => Ascii.eqb c "M"%char || contains_M t
  end.

(** [adduct.replace("M", by)] *)
Fixpoint replace_M (by_ : string) (s : string) : string :=
  match s with
  | EmptyString => EmptyString
  | String c t => if Ascii.eqb c "M"%char then by_ +:+ replace_M by_ t
                  else String c (replace_M by_ t)
  end.

(** The windows of lines 476-477 (439-440 in graph mode): the scaled
    candidate built from [mz_x], and the target [mz_y]. *)
Definition oligomer_windows (mz_x mz_y m : Q) (d : Z) (ppm : Q) : Q * Q * Q * Q :=
  let '(min_tol_a, max_tol_a) :=
    calculate_mz_tolerance (mz_x + ((mz_x - m) * inject_Z d)) ppm in
  let '(min_tol_b, max_tol_b) := calculate_mz_tolerance mz_y ppm in
  (min_tol_a, max_tol_a, min_tol_b, max_tol_b).

(** The condition of the [break] at lines 479 and 442. *)
Definition diverged (w : Q * Q * Q * Q) : bool :=
  let '(min_tol_a, max_tol_a, min_tol_b, max_tol_b) := w in
  Qlt_bool max_tol_a min_tol_b && Qlt_bool max_tol_a max_tol_b.

(** The acceptance test of lines 483-489 and 446-452. *)
Definition oligomer_accepts (w : Q * Q * Q * Q) (m : Q) : bool :=
  let '(min_tol_a, max_tol_a, min_tol_b, max_tol_b) := w in
  let min_tol_a := (min_tol_a - m)%Q in
  let max_tol_a := (max_tol_a - m)%Q in
  let min_tol_b := (min_tol_b - m)%Q in
  let max_tol_b := (max_tol_b - m)%Q in
  Qlt_bool min_tol_a max_tol_b && Qlt_bool min_tol_b max_tol_a.

(** The row built at lines 491-502 and 454-466. *)
Definition oligomer_row (id_x id_y : string) (mz_x mz_y : Q) (adduct : string) (m : Q)
  (d : Z) : result oligomers_row :=
  let a := ((mz_x - m) + (mz_x - m) * inject_Z d)%Q in
  let b := (mz_y - m)%Q in
  if Qeq_bool (mz_x - m) 0 then Raise ZeroDivisionError
  else
    let ratio := ((mz_y - m) / (mz_x - m))%Q in
    pe ← ppm_error_checked a b;
    let adduct_oligo :=
      if contains_M adduct then replace_M (pretty (py_round ratio) +:+ "M") adduct
      else pretty (py_round ratio) +:+ adduct in
    Ok (mk_oligomers_row id_x id_y mz_x mz_y adduct adduct_oligo
          (py_round2 ratio) (py_round2 pe)).

(** One candidate tested after the [break] did not fire. *)
Definition oligomer_try (id_x id_y : string) (mz_x mz_y : Q) (adduct : string) (m : Q)
  (d : Z) (ppm : Q) : gen oligomers_row :=
  if oligomer_accepts (oligomer_windows mz_x mz_y m d ppm) m then
    match oligomer_row id_x id_y mz_x mz_y adduct m d with
    | Ok r => gyield r
    | Raise e => graise e
    end
  else gnil.

(** Flat-list mode, the loop [for j in range(i + 1, n)] with its [break]. *)
Fixpoint scan_later (pi : peak) (adduct : string) (m : Q) (d : Z) (ppm : Q)
  (rest : list peak) : gen oligomers_row :=
  match rest with
  | [] => gnil
  | pj :: rest' =>
      if diverged (oligomer_windows (mz pi) (mz pj) m d ppm) then gnil
      else gapp (oligomer_try (name pi) (name pj) (mz pi) (mz pj) adduct m d ppm)
                (scan_later pi adduct m d ppm rest')
  end.

(** Lines 470-502: the matches of flat-list mode, in the order found. *)
Definition oligomers_from_peaklist (df : dataframe) (ppm : Q) (lib : list (string * Q))
  (maximum : Z) : gen oligomers_row :=
  gfor lib (fun '(adduct, m) =>
    gfor (later_pairs df) (fun '(pi, rest) =>
      gfor (py_range 1 maximum) (fun d =>
        scan_later pi adduct m d ppm rest))).

(** Graph mode, the loop [for adduct in lib.lib.keys()] with its [break]. *)
Fixpoint scan_adducts (n nn : string) (mz_x mz_y : Q) (d : Z) (ppm : Q)
  (adducts : list (string * Q)) : gen oligomers_row :=
  match adducts with
  | [] => gnil
  | (adduct, m) :: rest =>
      if diverged (oligomer_windows mz_x mz_y m d ppm) then gnil
      else gapp (oligomer_try n nn mz_x mz_y adduct m d ppm)
                (scan_adducts n nn mz_x mz_y d ppm rest)
  end.

(** Lines 422-466: the matches of graph mode for one component. *)
Definition oligomers_from_graph (graph : digraph) (ppm : Q) (lib : list (string * Q))
  : gen oligomers_row :=
  gfor (map fst (nodes graph)) (fun n =>
    let nbrs := neighbors graph n in
    gfor (py_range 1 (Z.of_nat (length nbrs) + 1)) (fun d =>
      gfor nbrs (fun nn =>
        match node graph n, node graph nn with
        | Ok dx, Ok dy =>
            if Qlt_bool (node_mz dx) (node_mz dy) then
              scan_adducts n nn (node_mz dx) (node_mz dy) d ppm lib
            else gnil
        | Raise e, _ | _, Raise e => graise e
        end))).

(** The same loops as the specification's exhaustive form has them: every
    candidate is tested, nothing is skipped. *)
Definition oligomers_from_peaklist_naive (df : dataframe) (ppm : Q)
  (lib : list (string * Q)) (maximum : Z) : gen oligomers_row :=
  gfor lib (fun '(adduct, m) =>
    gfor (later_pairs df) (fun '(pi, rest) =>
      gfor (py_range 1 maximum) (fun d =>
        gfor rest (fun pj =>
          oligomer_try (name pi) (name pj) (mz pi) (mz pj) adduct m d ppm)))).

Definition oligomers_from_graph_naive (graph : digraph) (ppm : Q)
  (lib : list (string * Q)) : gen oligomers_row :=
  gfor (map fst (nodes graph)) (fun n =>
    let nbrs := neighbors graph n in
    gfor (py_range 1 (Z.of_nat (length nbrs) + 1)) (fun d =>
      gfor nbrs (fun nn =>
        match node graph n, node graph nn with
        | Ok dx, Ok dy =>
            if Qlt_bool (node_mz dx) (node_mz dy) then
              gfor lib (fun '(adduct, m) =>
                oligomer_try n nn (node_mz dx) (node_mz dy) adduct m d ppm)
            else gnil
        | Raise e, _ | _, Raise e => graise e
        end))).

Definition persist_oligomer (r : oligomers_row) : cmd (list oligomers_row) :=
  exec (sql_insert oligomers_key r).

(** The loops of [annotate_oligomers] on the cursor: every match is
    inserted as it is found. *)
Definition annotate_oligomers_cursor (src : source) (ppm : Q) (lib : list (string * Q))
  (maximum : Z) : cmd (list oligomers_row) :=
  match src with
  | SrcGraphs gs =>
      cfor gs (fun graph =>
        cfor_gen (oligomers_from_graph graph ppm lib) persist_oligomer)
  | SrcFrame df =>
      cfor_gen (oligomers_from_peaklist df ppm lib maximum) persist_oligomer
  end.

(** [annotate_oligomers]: the table [oligomers] is created anew, the
    loops run, and line 503 commits. *)
Definition annotate_oligomers (src : source) (ppm : Q) (lib : list (string * Q))
  (maximum : Z) : list oligomers_row * option exn :=
  transaction (annotate_oligomers_cursor src ppm lib maximum) [].

(** ** Reference range stores *)

(** A row of the table [MF] of [DbMolecularFormulaeMemory]. *)
Record mf_record : Type := mk_mf {
  mf_exact_mass : Q;
  mf_C : Z; mf_H : Z; mf_N : Z; mf_O : Z; mf_P : Z; mf_S : Z;
  mf_double_bond_equivalents : option Q;
  mf_LEWIS : option Z;
  mf_SENIOR : option Z;
  mf_HC : option Z;
  mf_NOPSC : option Z
}.

(** [column = 1] in a WHERE clause: false on NULL. *)
Definition is_one (v : option Z) : bool :=
  match v with
  | Some k => (k =? 1)%Z
  | None => false
  end.

Definition in_range (min_tol max_tol m : Q) : bool :=
  Qle_bool min_tol m && Qle_bool m max_tol.

(** The two bounds of a lookup are not bound to the statement as
    parameters: [str.format] pastes them into the query text and SQLite
    reads them back from it. [sql_literal q] stands for the number SQLite
    reads from the text Python writes for the float [q]; the conversion
    is SQLite's and not part of the package, so the stores take it as a
    parameter. The stored masses were bound as parameters (the [?] of the
    inserts) and are compared as they are. *)

(** [DbMolecularFormulaeMemory.select_mf], on the rows of the table. *)
Definition select_mf (sql_literal : Q -> Q) (MF : list mf_record) (min_tol max_tol : Q)
  (rules : bool) : list mf_record :=
  let sql_filters := fun r =>
    if rules then is_one (mf_LEWIS r) && is_one (mf_SENIOR r)
                  && is_one (mf_HC r) && is_one (mf_NOPSC r)
    else true in
  filter (fun r => in_range (sql_literal min_tol) (sql_literal max_tol) (mf_exact_mass r)
                   && sql_filters r) MF.

(** A row of the table [COMPOUNDS] of [DbCompoundsMemory]. *)
Record compound_record : Type := mk_compound {
  cp_compound_id : string;
  cp_compound_name : string;
  cp_exact_mass : Q;
  cp_C : Z; cp_H : Z; cp_N : Z; cp_O : Z; cp_P : Z; cp_S : Z;
  cp_CHNOPS : option Z;
  cp_molecular_formula : string
}.

(** [DbCompoundsMemory.select_compounds], on the rows of the table. *)
Definition select_compounds (sql_literal : Q -> Q) (COMPOUNDS : list compound_record)
  (min_tol max_tol : Q) : list compound_record :=
  filter (fun r => in_range (sql_literal min_tol) (sql_literal max_tol) (cp_exact_mass r))
         COMPOUNDS.

(** ** Reference-match orchestrators *)

Record compounds_row : Type := mk_compounds_row {
  c_id : string;
  c_mz : Q;
  c_exact_mass : Q;
  c_ppm_error : Q;
  c_adduct : string;
  c_record : compound_record
}.

(** primary key (id, compound_id, adduct) *)
Definition compounds_key (r r' : compounds_row) : bool :=
  String.eqb (c_id r) (c_id r')
  && String.eqb (cp_compound_id (c_record r)) (cp_compound_id (c_record r'))
  && String.eqb (c_adduct r) (c_adduct r').

(** Lines 757-764: one record of the store turned into a row and inserted. *)
Definition persist_compound (name_ : string) (mz_ : Q) (adduct : string) (m : Q)
  (record : compound_record) : cmd (list compounds_row) :=
  exec (fun tbl =>
    let exact_mass := (cp_exact_mass record + m)%Q in
    pe ← ppm_error_checked mz_ exact_mass;
    sql_insert compounds_key (mk_compounds_row name_ mz_ exact_mass pe adduct record) tbl).

(** The loops of [annotate_compounds] on the cursor, lines 738-764, over
    the rows of the store. *)
Definition annotate_compounds_cursor (sql_literal : Q -> Q) (peaklist : dataframe)
  (lib_adducts : list (string * Q)) (ppm : Q) (store : list compound_record)
  : cmd (list compounds_row) :=
  cfor peaklist (fun p =>
    let '(min_tol, max_tol) := calculate_mz_tolerance (mz p) ppm in
    cfor lib_adducts (fun '(adduct, m) =>
      if Qlt_bool (5 # 10) (mz p - m) then
        cfor (select_compounds sql_literal store (min_tol - m) (max_tol - m))
             (persist_compound (name p) (mz p) adduct m)
      else cskip)).

(** [annotate_compounds], from line 715 on: the table is created anew,
    the loops run, and line 765 commits. *)
Definition annotate_compounds (sql_literal : Q -> Q) (peaklist : dataframe)
  (lib_adducts : list (string * Q)) (ppm : Q) (store : list compound_record)
  : list compounds_row * option exn :=
  transaction (annotate_compounds_cursor sql_literal peaklist lib_adducts ppm store) [].

Record molecular_formulae_row : Type := mk_mf_row {
  m_id : string;
  m_mz : Q;
  m_exact_mass : Q;
  m_ppm_error : Q;
  m_adduct : string;
  m_CHNOPS : bool;
  m_molecular_formula : string;
  m_record : mf_record
}.

(** primary key (id, mz, molecular_formula, adduct) *)
Definition molecular_formulae_key (r r' : molecular_formulae_row) : bool :=
  String.eqb (m_id r) (m_id r') && Qeq_bool (m_mz r) (m_mz r')
  && String.eqb (m_molecular_formula r) (m_molecular_formula r')
  && String.eqb (m_adduct r) (m_adduct r').

(** Lines 649-664. [composition_to_string] lives in [beamspy.auxiliary]. *)
Definition mf_row (composition_to_string : list (string * Z) -> string)
  (name_ : string) (mz_ : Q) (adduct : string) (m : Q) (record : mf_record)
  : result molecular_formulae_row :=
  let exact_mass := (mf_exact_mass record + m)%Q in
  pe ← ppm_error_checked mz_ exact_mass;
  let comp := [("C", mf_C record); ("H", mf_H record); ("N", mf_N record);
               ("O", mf_O record); ("P", mf_P record); ("S", mf_S record)] in
  Ok (mk_mf_row name_ mz_ exact_mass pe adduct true (composition_to_string comp) record).

(** The list [values] collected for one peak at lines 635-666. *)
Fixpoint mf_values (composition_to_string : list (string * Z) -> string)
  (sql_literal : Q -> Q) (MF : list mf_record) (rules : bool) (p : peak) (ppm : Q)
  (lib_adducts : list (string * Q)) : result (list molecular_formulae_row) :=
  match lib_adducts with
  | [] => Ok []
  | (adduct, m) :: rest =>
      let '(min_tol, max_tol) := calculate_mz_tolerance (mz p) ppm in
      here ← (if Qlt_bool (5 # 10) (mz p - m) then
                rmap (mf_row composition_to_string (name p) (mz p) adduct m)
                     (select_mf sql_literal MF (min_tol - m) (max_tol - m) rules)
              else Ok []);
      more ← mf_values composition_to_string sql_literal MF rules p ppm rest;
      Ok (here ++ more)
  end.

(** The loops of [annotate_molecular_formulae] on the cursor, lines
    626-671, with a local store. *)
Definition annotate_molecular_formulae_cursor
  (composition_to_string : list (string * Z) -> string) (sql_literal : Q -> Q)
  (peaklist : dataframe) (lib_adducts : list (string * Q)) (ppm : Q)
  (MF : list mf_record) (rules : bool) : cmd (list molecular_formulae_row) :=
  cfor peaklist (fun p =>
    match mf_values composition_to_string sql_literal MF rules p ppm lib_adducts with
    | Raise e => fun tbl => (tbl, Some e)
    | Ok values => cfor values (fun r => exec (sql_insert molecular_formulae_key r))
    end).

(** [annotate_molecular_formulae] with a local store: the table is
    created anew, the loops run, and line 672 commits. *)
Definition annotate_molecular_formulae
  (composition_to_string : list (string * Z) -> string) (sql_literal : Q -> Q)
  (peaklist : dataframe) (lib_adducts : list (string * Q)) (ppm : Q)
  (MF : list mf_record) (rules : bool) : list molecular_formulae_row * option exn :=
  transaction
    (annotate_molecular_formulae_cursor composition_to_string sql_literal peaklist
       lib_adducts ppm MF rules) [].

(** ** The destination store as [summary] reads it *)

Record adduct_pairs_row : Type := mk_adduct_pairs_row {
  a_peak_id_a : string;
  a_peak_id_b : string;
  a_label_a : string;
  a_label_b : string;
  a_ppm_error : Q
}.

Record mci_row : Type := mk_mci_row {
  q_peak_id_a : string;
  q_peak_id_b : string;
  q_label_a : string;
  q_label_b : string;
  q_charge_a : Z;
  q_charge_b : Z;
  q_ppm_error : Q
}.

(** The rows of a table, by the schema it was created with. Tables that
    [summary] only tests for by name carry no rows here. *)
Inductive table : Type :=
| TAdductPairs (rows : list adduct_pairs_row)
| TMultipleChargedIons (rows : list mci_row)
| TOligomers (rows : list oligomers_row)
| TIsotopes (rows : list isotopes_row)
| TArtifacts (rows : list artifacts_row)
| TOther.

(** The tables of the SQLite file, in the order of [sqlite_master]. *)
Definition store : Type := list (string * table).

Definition table_names (s : store) : list string := map fst s.

Definition mem (x : string) (l : list string) : bool := existsb (String.eqb x) l.

(** [sub in s] on strings *)
Fixpoint contains (sub s : string) : bool :=
  String.prefix sub s ||
  match s with
  | EmptyString => false
  | String _ t => contains sub t
  end.

(** [SELECT DISTINCT] / [UNION]: duplicates of a row are dropped. *)
Fixpoint distinct {A : Type} (eqb : A -> A -> bool) (l : list A) : list A :=
  match l with
  | [] => []
  | x :: t => x :: filter (fun y => negb (eqb x y)) (distinct eqb t)
  end.

(** SQLite's [round(x)]: halves go away from zero. *)
Definition sql_round (x : Q) : Q :=
  let f := Qfloor x in
  let r := (x - inject_Z f)%Q in
  if Qle_bool 0 x then (if Qlt_bool r (1 # 2) then inject_Z f else inject_Z (f + 1))
  else (if Qle_bool r (1 # 2) then inject_Z f else inject_Z (f + 1)).

(** SQLite's [round(x, 1)]. *)
Definition sql_round1 (x : Q) : Q := (sql_round (x * 10) / 10)%Q.

(** *** Lines 935-939 and 987-988 *)

Definition tables_amo : list string :=
  ["adduct_pairs"; "multiple_charged_ions"; "oligomers"; "isotopes"].

Definition tables_to_union (tables : list string) : list string :=
  filter (fun tn => mem tn tables_amo) tables.

Definition flag_amo (tables : list string) : bool :=
  (0 <? length (filter (fun tl => mem tl tables) tables_amo))%nat.

Definition flag_isotopes (tables : list string) : bool := mem "isotopes" tables.

Definition has_groupings (tables : list string) : bool :=
  (0 <? length (tables_to_union tables))%nat && mem "groups" tables.

(** *** Lines 941-950: the edges the sub-groups are built from *)

Definition edges_of (t : table) : result (list (string * string)) :=
  match t with
  | TAdductPairs rows => Ok (map (fun r => (a_peak_id_a r, a_peak_id_b r)) rows)
  | TMultipleChargedIons rows => Ok (map (fun r => (q_peak_id_a r, q_peak_id_b r)) rows)
  | TOligomers rows => Ok (map (fun r => (o_peak_id_a r, o_peak_id_b r)) rows)
  | TIsotopes rows => Ok (map (fun r => (i_peak_id_a r, i_peak_id_b r)) rows)
  | TArtifacts rows => Ok (map (fun r => (f_peak_id_a r, f_peak_id_b r)) rows)
  | TOther => Raise OperationalError
  end.

Definition select_from {A : Type} (s : store) (tn : string) (q : table -> result A)
  : result A :=
  match assoc tn s with
  | Some t => q t
  | None => Raise OperationalError
  end.

Definition edge_eqb (e e' : string * string) : bool :=
  String.eqb e.1 e'.1 && String.eqb e.2 e'.2.

Definition group_edges (s : store) : result (list (string * string)) :=
  if has_groupings (table_names s) then
    per_table ← rmap (fun tn => select_from s tn edges_of) (tables_to_union (table_names s));
    Ok (distinct edge_eqb (concat per_table))
  else Ok [].

(** *** Lines 990-1007: the peak-relationship view [query_amo] *)

(** A row (peak_id_amo, label, charge, oligomer). *)
Definition amo_row : Type := (string * string * Z * Q)%type.

Definition amo_eqb (r r' : amo_row) : bool :=
  let '(p, l, c, o) := r in
  let '(p', l', c', o') := r' in
  String.eqb p p' && String.eqb l l' && (c =? c')%Z && Qeq_bool o o'.

Definition sub_query_adduct_pairs (t : table) : result (list amo_row) :=
  match t with
  | TAdductPairs rows =>
      Ok (distinct amo_eqb
            (map (fun r => (a_peak_id_a r, a_label_a r, 1%Z, 1%Q)) rows ++
             map (fun r => (a_peak_id_b r, a_label_b r, 1%Z, 1%Q)) rows))
  | _ => Raise OperationalError
  end.

Definition sub_query_multiple_charged_ions (t : table) : result (list amo_row) :=
  match t with
  | TMultipleChargedIons rows =>
      Ok (distinct amo_eqb
            (map (fun r => (q_peak_id_a r, q_label_a r, q_charge_a r, 1%Q)) rows ++
             map (fun r => (q_peak_id_b r, q_label_b r, q_charge_b r, 1%Q)) rows))
  | _ => Raise OperationalError
  end.

Definition sub_query_oligomers (t : table) : result (list amo_row) :=
  match t with
  | TOligomers rows =>
      Ok (distinct amo_eqb
            (map (fun r => (o_peak_id_a r, o_label_a r, 1%Z, 1%Q)) rows ++
             map (fun r => (o_peak_id_b r, o_label_b r, 1%Z, sql_round (o_mz_ratio r))) rows))
  | _ => Raise OperationalError
  end.

(** The list [sub_queries]: one entry per table of [tables_amo] that
    exists and has a branch at lines 994-1005. *)
Definition sub_queries (s : store) : list (result (list amo_row)) :=
  flat_map (fun tl =>
    if mem tl (table_names s) then
      if String.eqb tl "adduct_pairs" then [select_from s tl sub_query_adduct_pairs]
      else if String.eqb tl "multiple_charged_ions"
           then [select_from s tl sub_query_multiple_charged_ions]
      else if String.eqb tl "oligomers" then [select_from s tl sub_query_oligomers]
      else []
    else []) tables_amo.

(** [" union ".join(sub_queries)], evaluated. *)
Definition query_amo (s : store) : result (list amo_row) :=
  parts ← rmap (fun q => q) (sub_queries s);
  Ok (distinct amo_eqb (concat parts)).

(** *** Lines 1009-1019: the isotope view [query_isotopes] *)

(** A row (peak_id_a, label_a, peak_id_b, label_b, atoms, ppm_error) of
    the inner union. *)
Definition isotope_eqb (r r' : isotopes_row) : bool :=
  isotopes_key r r'
  && match i_atoms r, i_atoms r' with
     | Some x, Some y => Qeq_bool x y
     | None, None => true
     | _, _ => false
     end
  && Qeq_bool (i_ppm_error r) (i_ppm_error r').

Definition swap_isotope (r : isotopes_row) : isotopes_row :=
  mk_isotopes_row (i_peak_id_b r) (i_peak_id_a r) (i_label_b r) (i_label_a r)
    (i_atoms r) (i_ppm_error r).

(** One output row per peak: its labels, its partners, their labels and
    the atom estimates rounded to one digit, each list joined by
    [group_concat], which leaves out the nulls. *)
Record isotope_group : Type := mk_isotope_group {
  g_peak_id_a : string;
  g_isotope_labels_a : list string;
  g_isotope_ids : list string;
  g_isotope_labels_b : list string;
  g_atoms : list Q
}.

Definition group_of (rows : list isotopes_row) (p : string) : isotope_group :=
  let mine := filter (fun r => String.eqb (i_peak_id_a r) p) rows in
  mk_isotope_group p (map i_label_a mine) (map i_peak_id_b mine) (map i_label_b mine)
    (omap (fun r => sql_round1 <$> i_atoms r) mine).

Definition query_isotopes_on (t : table) : result (list isotope_group) :=
  match t with
  | TIsotopes rows =>
      let both := distinct isotope_eqb (rows ++ map swap_isotope rows) in
      Ok (map (group_of both) (distinct String.eqb (map i_peak_id_a both)))
  | _ => Raise OperationalError
  end.

Definition query_isotopes (s : store) : result (list isotope_group) :=
  if flag_isotopes (table_names s) then select_from s "isotopes" query_isotopes_on
  else Ok [].

(** *** Lines 1066-1150: which reference matches exist, and the check *)

Definition cpd_tables (tables : list string) : list string :=
  filter (contains "compound") tables.

Definition flag_mf (tables : list string) : bool := mem "molecular_formulae" tables.

Definition flag_cpd (tables : list string) : bool := (0 <? length (cpd_tables tables))%nat.

Definition columns : list string :=
  ["exact_mass"; "ppm_error"; "adduct"; "C"; "H"; "N"; "O"; "P"; "S"; "molecular_formula"].

Definition aliased (tbl : string) : string :=
  String.concat "" (map (fun c => ", " +:+ tbl +:+ "." +:+ c +:+ " as " +:+ c) columns).

Definition mf_cpc_columns (tables : list string) : string :=
  if flag_mf tables && flag_cpd tables then
    aliased "mf_cd" +:+ ", mf_cd.compound_name as compound_name, mf_cd.compound_id as compound_id"
  else if negb (flag_mf tables) && flag_cpd tables then
    aliased "ct" +:+ ", compound_name as compound_name, compound_id as compound_id"
  else if flag_mf tables && negb (flag_cpd tables) then aliased "mf"
  else "".

Definition columns_groupings : list string :=
  ["peak_id"; "group_id"; "degree_cor"; "sub_group_id"; "degree"; "n_nodes"; "n_edges"].

Definition columns_amo : list string := ["label"; "charge"; "oligomer"].

Definition columns_isotopes : list string :=
  ["isotope_labels_a"; "isotope_ids"; "isotope_labels_b"; "atoms"].

(** Lines 1021-1047: the statement that creates [peak_labels]. It fails
    to parse when [query_amo] is the empty string, which leaves
    [LEFT JOIN () ON ...] in it; otherwise the result is the list of the
    columns of the new table ([[]] when none is created). *)
Definition create_peak_labels (tables : list string) (n_sub_queries : nat)
  : result (list string) :=
  let lead := if has_groupings tables then columns_groupings else ["peak_id"] in
  if flag_amo tables && flag_isotopes tables then
    if (n_sub_queries =? 0)%nat then Raise OperationalError
    else Ok (lead ++ columns_amo ++ columns_isotopes)
  else if flag_isotopes tables && negb (flag_amo tables) then
    if has_groupings tables then Ok (columns_groupings ++ columns_isotopes)
    else Ok ("peak_id_a" :: columns_isotopes)
  else if negb (flag_isotopes tables) && flag_amo tables then
    Ok (lead ++ columns_amo)
  else Ok [].

(** [summary] up to line 1150, on the table names: the exception it
    raises, or the columns of [peak_labels] and the reference columns the
    final statement selects. The other statements on the way are taken
    to execute. *)
Definition summary_check (s : store) : result (list string * string) :=
  let tables := table_names s in
  columns_peak_labels ← create_peak_labels tables (length (sub_queries s));
  if (length columns_peak_labels =? 0)%nat && String.eqb (mf_cpc_columns tables) ""
  then Raise ValueError
  else Ok (columns_peak_labels, mf_cpc_columns tables).

(** ** Relationship orchestrators with insert-or-replace *)

(** A table of the destination file may be missing: [None]. *)
Definition stored (R : Type) : Type := option (list R).

(** [INSERT OR REPLACE INTO]: the rows holding the key are deleted, then
    the row is appended; without the table the statement fails. *)
Definition sql_insert_or_replace {R : Type} (same_key : R -> R -> bool) (r : R)
  (tbl : stored R) : result (stored R) :=
  match tbl with
  | None => Raise OperationalError
  | Some rows => Ok (Some (filter (fun r' => negb (same_key r r')) rows ++ [r]))
  end.

(** The two peak id columns of the relationship tables are declared
    INTEGER, and a peak id is handed over as text: SQLite stores the
    number a text spells in place of the text (so "1" and "1.0" are one
    value) and keeps any other text as it is. [integer_affinity id]
    stands for the value the column keeps, written back as text; the
    conversion is SQLite's and not part of the package, so the
    orchestrators take it as a parameter. The rows of a table hold the
    values the columns keep, and a primary key compares those. *)

(** PRIMARY KEY (peak_id_a, peak_id_b, label_a, label_b), on stored rows. *)
Definition adduct_pairs_key (r r' : adduct_pairs_row) : bool :=
  String.eqb (a_peak_id_a r) (a_peak_id_a r') && String.eqb (a_peak_id_b r) (a_peak_id_b r')
  && String.eqb (a_label_a r) (a_label_a r') && String.eqb (a_label_b r) (a_label_b r').

(** The row the table keeps for an assignment. *)
Definition adduct_pair_of (integer_affinity : string -> string) (asg : assignment)
  : adduct_pairs_row :=
  mk_adduct_pairs_row (integer_affinity (peak_id_a asg)) (integer_affinity (peak_id_b asg))
    (label_a asg) (label_b asg) (ppm_error asg).

Definition persist_adduct_pair (integer_affinity : string -> string) (asg : assignment)
  : cmd (stored adduct_pairs_row) :=
  exec (sql_insert_or_replace adduct_pairs_key (adduct_pair_of integer_affinity asg)).

(** The loops of [annotate_adducts] on the cursor, lines 310-321. *)
Definition annotate_adducts_cursor (integer_affinity : string -> string) (src : source)
  (ppm : Q) (lib_pairs : list lib_pair) : cmd (stored adduct_pairs_row) :=
  match src with
  | SrcGraphs gs =>
      cfor gs (fun graph =>
        cfor_gen (_annotate_pairs_from_graph graph ppm lib_pairs)
                 (persist_adduct_pair integer_affinity))
  | SrcFrame df =>
      cfor_gen (_annotate_pairs_from_peaklist df ppm lib_pairs)
               (persist_adduct_pair integer_affinity)
  end.

(** [annotate_adducts]: [existing] is the table [adduct_pairs] found in the
    file; unless [add] is set it is dropped and created anew, which takes
    effect at once. The rows of the loops are committed at line 322. *)
Definition annotate_adducts (integer_affinity : string -> string) (src : source) (ppm : Q)
  (lib : library) (add : bool) (existing : stored adduct_pairs_row)
  : stored adduct_pairs_row * option exn :=
  let tbl := if add then existing else Some [] in
  match _prep_lib lib with
  | Raise e => (tbl, Some e)
  | Ok lib_pairs =>
      transaction (annotate_adducts_cursor integer_affinity src ppm lib_pairs) tbl
  end.

(** PRIMARY KEY (peak_id_a, peak_id_b, label_a, label_b, charge_a, charge_b),
    on stored rows. *)
Definition mci_key (r r' : mci_row) : bool :=
  String.eqb (q_peak_id_a r) (q_peak_id_a r') && String.eqb (q_peak_id_b r) (q_peak_id_b r')
  && String.eqb (q_label_a r) (q_label_a r') && String.eqb (q_label_b r) (q_label_b r')
  && (q_charge_a r =? q_charge_a r')%Z && (q_charge_b r =? q_charge_b r')%Z.

Definition mci_of (integer_affinity : string -> string) (asg : assignment) : mci_row :=
  mk_mci_row (integer_affinity (peak_id_a asg)) (integer_affinity (peak_id_b asg))
    (label_a asg) (label_b asg) (charge_a asg) (charge_b asg) (ppm_error asg).

Definition persist_mci (integer_affinity : string -> string) (asg : assignment)
  : cmd (stored mci_row) :=
  exec (sql_insert_or_replace mci_key (mci_of integer_affinity asg)).

(** The loops of [annotate_multiple_charged_ions] on the cursor, lines
    562-575; the graph branch looks at [source[0]] without asking for the
    length first. *)
Definition annotate_multiple_charged_ions_cursor (integer_affinity : string -> string)
  (src : source) (ppm : Q) (lib_pairs : list lib_pair) : cmd (stored mci_row) :=
  match src with
  | SrcGraphs [] => fun tbl => (tbl, Some IndexError)
  | SrcGraphs gs =>
      cfor gs (fun graph =>
        cfor_gen (_annotate_pairs_from_graph graph ppm lib_pairs)
                 (persist_mci integer_affinity))
  | SrcFrame df =>
      cfor_gen (_annotate_pairs_from_peaklist df ppm lib_pairs) (persist_mci integer_affinity)
  end.

(** [annotate_multiple_charged_ions], with [add] as in [annotate_adducts];
    line 576 commits. *)
Definition annotate_multiple_charged_ions (integer_affinity : string -> string)
  (src : source) (ppm : Q) (lib : library) (add : bool) (existing : stored mci_row)
  : stored mci_row * option exn :=
  let tbl := if add then existing else Some [] in
  match _prep_lib lib with
  | Raise e => (tbl, Some e)
  | Ok lib_pairs =>
      transaction (annotate_multiple_charged_ions_cursor integer_affinity src ppm lib_pairs)
                  tbl
  end.

(** ** Records of a reference library *)

(** The values a record read from a library file holds: numbers, text,
    flags, and under "composition" a dict from element to count. *)
Inductive pyvalue : Type :=
| PFloat (q : Q)
| PInt (k : Z)
| PStr (s : string)
| PBool (b : bool)
| PDict (d : gmap string Z).

(** [record["composition"].pop(e, None)] if the record has a
    composition, [record.pop(e, None)] otherwise (lines 40-43). *)
Definition pop_element (record : gmap string pyvalue) (e : string)
  : result (gmap string pyvalue) :=
  match record !! "composition" with
  | Some (PDict c) => Ok (<["composition" := PDict (delete e c)]> record)
  | Some _ => Raise AttributeError
  | None => Ok (delete e record)
  end.

(** [for e in elements: ...] on one record. *)
Fixpoint pop_elements (elements : list string) (record : gmap string pyvalue)
  : result (gmap string pyvalue) :=
  match elements with
  | [] => Ok record
  | e :: rest => record' ← pop_element record e; pop_elements rest record'
  end.

(** [_remove_elements_from_compositions]; [nist_database] stands for the
    element symbols read from the file of the package. *)
Definition _remove_elements_from_compositions (nist_database : list string)
  (records : list (gmap string pyvalue)) (keep : list string)
  : result (list (gmap string pyvalue)) :=
  let elements := filter (fun e => negb (mem e keep)) nist_database in
  rmap (pop_elements elements) records.

(** [record.update(record["composition"]); del record["composition"]] *)
Definition flatten_record (record : gmap string pyvalue) : result (gmap string pyvalue) :=
  match record !! "composition" with
  | None => Raise KeyError
  | Some (PDict c) => Ok (delete "composition" ((PInt <$> c) ∪ record))
  | Some (PStr "") => Ok (delete "composition" record)
  | Some (PStr _) => Raise ValueError
  | Some _ => Raise TypeError
  end.

Definition _flatten_composition (records : list (gmap string pyvalue))
  : result (list (gmap string pyvalue)) :=
  rmap flatten_record records.

(** ** The store of predicted drug products *)

(** A row of the table [predicted_drug_products]. *)
Record drug_record : Type := mk_drug {
  d_compound_id : string;
  d_compound_name : string;
  d_smiles : string;
  d_exact_mass : Q;
  d_C : Z; d_H : Z; d_N : Z; d_O : Z; d_P : Z; d_S : Z;
  d_CHNOPS : bool;
  d_molecular_formula : string;
  d_sygma_score : Q;
  d_sygma_pathway : string;
  d_parent : string
}.

(** compound_id TEXT PRIMARY KEY *)
Definition drug_key (r r' : drug_record) : bool :=
  String.eqb (d_compound_id r) (d_compound_id r').

(** [DbDrugCompoundsMemory.insert] on the rows of the table. *)
Definition drug_insert (records : list drug_record) : cmd (list drug_record) :=
  cfor records (fun record => exec (sql_insert drug_key record)).

(** [DbDrugCompoundsMemory.select]; the bounds reach SQLite as text, as
    in the two reference stores. *)
Definition drug_select (sql_literal : Q -> Q) (tbl : list drug_record)
  (min_tol max_tol : Q) : list drug_record :=
  filter (fun r => in_range (sql_literal min_tol) (sql_literal max_tol) (d_exact_mass r)) tbl.

(** ** Predicates of the further statements *)

Definition tied_isotopes : library :=
  LibList [mk_iso "A" 100 "B" 1 (Some 1%Q); mk_iso "C" 100 "D" 1 (Some 1%Q)].

(** [isinstance(v, float)] on a library value. *)
Definition is_float (v : lib_value) : bool :=
  match v with
  | LFloat _ => true
  | LMassCharge _ _ => false
  end.

(** The sort key a pair is compared by equals [k]. *)
Definition has_key (k : Q) (p : lib_pair) : bool := Qeq_bool (pair_key p) k.

(** ["mass_difference" in e] *)
Definition has_difference (e : iso_entry) : bool :=
  match iso_mass_difference e with
  | Some _ => true
  | None => false
  end.

(** No row of the table has the key of a row before it. *)
Definition distinct_keys {R : Type} (same_key : R -> R -> bool) (tbl : list R) : Prop :=
  forall i j r r', (i < j)%nat -> tbl !! i = Some r -> tbl !! j = Some r' ->
    same_key r' r = false.

(** A command keeps a property of the table, also when it raises. *)
Definition keeps {S : Type} (P : S -> Prop) (c : cmd S) : Prop :=
  forall s, P s -> P (c s).1.

(** Every assignment the pair generators yield for a source, in order:
    the peak table, or one component after the other. *)
Definition all_assignments (src : source) (ppm : Q) (lib_pairs : list lib_pair)
  : gen assignment :=
  match src with
  | SrcFrame df => _annotate_pairs_from_peaklist df ppm lib_pairs
  | SrcGraphs gs => gfor gs (fun graph => _annotate_pairs_from_graph graph ppm lib_pairs)
  end.

(** What a row of a [compounds_<db>] table records: a peak, an adduct
    above the floor of 0.5, and a stored compound whose mass lies
    between the two bounds of the lookup, the bounds of the window of
    the peak less the adduct mass, as SQLite reads them. *)
Definition compound_match (sql_literal : Q -> Q) (peaklist : dataframe)
  (lib_adducts : list (string * Q)) (ppm : Q) (store : list compound_record)
  (r : compounds_row) : Prop :=
  exists p adduct m,
    p ∈ peaklist /\ (adduct, m) ∈ lib_adducts /\ c_record r ∈ store /\
    (5 # 10 < mz p - m)%Q /\
    c_id r = name p /\ c_mz r = mz p /\ c_adduct r = adduct /\
    c_exact_mass r = (cp_exact_mass (c_record r) + m)%Q /\
    c_ppm_error r = calculate_ppm_error (mz p) (c_exact_mass r) /\
    (sql_literal ((calculate_mz_tolerance (mz p) ppm).1 - m)
     <= cp_exact_mass (c_record r))%Q /\
    (cp_exact_mass (c_record r)
     <= sql_literal ((calculate_mz_tolerance (mz p) ppm).2 - m))%Q.

(** The same for a row of [molecular_formulae], with the rule flags. *)
Definition formula_match (composition_to_string : list (string * Z) -> string)
  (sql_literal : Q -> Q) (peaklist : dataframe) (lib_adducts : list (string * Q))
  (ppm : Q) (MF : list mf_record) (rules : bool) (r : molecular_formulae_row) : Prop :=
  exists p adduct m,
    p ∈ peaklist /\ (adduct, m) ∈ lib_adducts /\ m_record r ∈ MF /\
    (5 # 10 < mz p - m)%Q /\
    m_id r = name p /\ m_mz r = mz p /\ m_adduct r = adduct /\
    m_exact_mass r = (mf_exact_mass (m_record r) + m)%Q /\
    m_ppm_error r = calculate_ppm_error (mz p) (m_exact_mass r) /\
    m_molecular_formula r
    = composition_to_string
        [("C", mf_C (m_record r)); ("H", mf_H (m_record r)); ("N", mf_N (m_record r));
         ("O", mf_O (m_record r)); ("P", mf_P (m_record r)); ("S", mf_S (m_record r))] /\
    (sql_literal ((calculate_mz_tolerance (mz p) ppm).1 - m)
     <= mf_exact_mass (m_record r))%Q /\
    (mf_exact_mass (m_record r)
     <= sql_literal ((calculate_mz_tolerance (mz p) ppm).2 - m))%Q /\
    (rules = true ->
       mf_LEWIS (m_record r) = Some 1%Z /\ mf_SENIOR (m_record r) = Some 1%Z /\
       mf_HC (m_record r) = Some 1%Z /\ mf_NOPSC (m_record r) = Some 1%Z).

(** The rows left by a run of insert-or-replace statements. *)
Definition replace_all {R : Type} (same_key : R -> R -> bool) (rows start : list R)
  : list R :=
  fold_left (fun tbl r => filter (fun r' => negb (same_key r r')) tbl ++ [r]) rows start.

(** The conversion of an INTEGER column on ids that spell no number,
    such as "p1": the text is kept as it is. *)
Definition id_affinity (id : string) : string := id.

Definition two_adducts : library := LibDict [("A", LFloat 1); ("B", LFloat 2)].

Definition adduct_peaks : dataframe := [mk_peak "p1" 10 0 1; mk_peak "p2" 11 0 1].

Definition stale_adduct_pair : adduct_pairs_row :=
  mk_adduct_pairs_row "p1" "p2" "A" "B" 99.

(** The two label rows a relationship row stands for in [query_amo]. *)
Definition adduct_pair_ends (r : adduct_pairs_row) : list amo_row :=
  [(a_peak_id_a r, a_label_a r, 1%Z, 1%Q); (a_peak_id_b r, a_label_b r, 1%Z, 1%Q)].

Definition mci_ends (r : mci_row) : list amo_row :=
  [(q_peak_id_a r, q_label_a r, q_charge_a r, 1%Q);
   (q_peak_id_b r, q_label_b r, q_charge_b r, 1%Q)].

Definition oligomer_ends (r : oligomers_row) : list amo_row :=
  [(o_peak_id_a r, o_label_a r, 1%Z, 1%Q);
   (o_peak_id_b r, o_label_b r, 1%Z, sql_round (o_mz_ratio r))].

Definition amo_store_example : store :=
  [("peaklist", TOther);
   ("oligomers", TOligomers [mk_oligomers_row "p1" "p3" 10 19 "[M+H]+" "[2M+H]+" 2 0]);
   ("adduct_pairs", TAdductPairs [stale_adduct_pair])].

Definition isotope_store_example : store :=
  [("peaklist", TOther);
   ("isotopes", TIsotopes [mk_isotopes_row "p1" "p2" "C12" "C13" (Some 3%Q) 0])].

(** An element the removal drops: in the database and not kept. *)
Definition removed (nist_database keep : list string) (e : string) : bool :=
  mem e nist_database && negb (mem e keep).

Definition salt_record : gmap string pyvalue :=
  {[ "exact_mass" := PFloat 58;
     "composition" := PDict {[ "C" := 2%Z; "Na" := 1%Z ]} ]}.

Definition drug_example : drug_record :=
  mk_drug "CCO" "CCO" "CCO" 46 2 6 0 1 0 0 true "C2H6O" 1 "parent" "CCO".

(** ** Predicates of the statements *)

Definition descending {A : Type} (key : A -> Q) (x y : A) : Prop := (key y <= key x)%Q.

(** The table names [summary] recognises as annotation results. *)
Definition recognised (tn : string) : bool :=
  mem tn tables_amo || String.eqb tn "molecular_formulae" || contains "compound" tn.

(** The relationship and reference-match tables as the specification
    lists them among the outputs. *)
Definition spec_relationship_tables : list string :=
  ["adduct_pairs"; "isotopes"; "multiple_charged_ions"; "oligomers"; "artifacts"].

Definition spec_reference_table (tn : string) : bool :=
  String.eqb tn "molecular_formulae" || String.prefix "compounds_" tn
  || String.eqb tn "drug_products".

(** The denominator of the ppm error of a library pair on a second
    peak, [theo_mass * 0.000001] at line 29. *)
Definition ppm_denominator (mz_y : Q) (lp : lib_pair) : Q :=
  match lp with
  | PairDiff e => ((mz_y - default 0%Q (iso_mass_difference e)) * (1 # 1000000))%Q
  | PairMC a b => ((mz_y - side_mass b) * inject_Z (side_charge b) * (1 # 1000000))%Q
  end.



(** ** Inputs of the examples *)

Definition adducts_unsorted_example : library :=
  LibDict [("A", LFloat 1); ("B", LFloat 2); ("C", LFloat 4)].

Definition c13_pair : lib_pair := PairDiff (mk_iso "C12" 100 "C13" 1 (Some 1%Q)).

Definition carbon_isotopes : library := LibList [mk_iso "C12" 100 "C13" 1 (Some 1%Q)].

Definition proton_only : list (string * Q) := [("[M+H]+", 1%Q)].

Definition peaks_sorted_example : dataframe :=
  [mk_peak "p1" 10 0 1; mk_peak "p3" 19 0 1; mk_peak "p2" 100 0 1].

Definition peaks_unsorted_example : dataframe :=
  [mk_peak "p1" 10 0 1; mk_peak "p2" 100 0 1; mk_peak "p3" 19 0 1].

Definition graph_example : digraph :=
  mk_graph [("p1", mk_node 10 1); ("p3", mk_node 19 1)] [("p1", "p3")].



Definition zero_intensity_graph : digraph :=
  mk_graph [("p1", mk_node 10 1000); ("p2", mk_node 11 0)] [("p1", "p2")].

Definition zero_intensity_peaks : dataframe :=
  [mk_peak "p1" 10 0 1000; mk_peak "p2" 11 0 0].

Definition split_peak_example : dataframe :=
  [mk_peak "p1" 100 0 1; mk_peak "p2" (10001 # 100) 0 1].

Definition glucose : compound_record :=
  mk_compound "HMDB0000122" "D-Glucose" 180 6 12 0 6 0 0 (Some 1%Z) "C6H12O6".

Definition hexose : mf_record :=
  mk_mf 180 6 12 0 6 0 0 (Some 1%Q) (Some 1%Z) (Some 1%Z) (Some 1%Z) (Some 1%Z).

Definition hexose_heavier : mf_record :=
  mk_mf (1800001 # 10000) 6 12 0 6 0 0 (Some 1%Q) (Some 1%Z) (Some 1%Z) (Some 1%Z) (Some 1%Z).

(** A reading of the query text that gives back every bound as it was
    written. *)
Definition literal_exact (q : Q) : Q := q.

(** The double that Python prints as 1097.734059454874, and the next
    double above it. *)
Definition boundary_mass : Q := 4827885450305539 # 4398046511104.

Definition boundary_mass_next : Q := 4827885450305540 # 4398046511104.

(** SQLite 3.40.1 reads the text "1097.734059454874" as the next double
    above the one Python wrote it for; the other bound used with it,
    1098.0, is read back as it was written. *)
Definition literal_read_high (q : Q) : Q :=
  if Qeq_bool q boundary_mass then boundary_mass_next else q.

Definition boundary_compound : compound_record :=
  mk_compound "HMDB0000001" "on the bound" boundary_mass 0 0 0 0 0 0 (Some 1%Z) "".

Definition boundary_formula : mf_record :=
  mk_mf boundary_mass 0 0 0 0 0 0 (Some 1%Q) (Some 1%Z) (Some 1%Z) (Some 1%Z) (Some 1%Z).

Definition artifact_row_example : artifacts_row :=
  mk_artifacts_row "p1" "p2" (1 # 100) 100.

Definition artifacts_only_store : store :=
  [("peaklist", TOther); ("artifacts", TArtifacts [artifact_row_example])].

(** * Properties *)

(** ** Float comparisons *)

Lemma Qlt_bool_iff (x y : Q) : Qlt_bool x y = true <-> (x < y)%Q.
Proof.
  unfold Qlt_bool. rewrite negb_true_iff.
  destruct (Qle_bool y x) eqn:E.
  - apply Qle_bool_iff in E. split; [discriminate | intros H; lra].
  - split; [intros _ | reflexivity].
    apply Qnot_le_lt. intros H. apply Qle_bool_iff in H. congruence.
Qed.

Lemma Qlt_bool_false (x y : Q) : Qlt_bool x y = false <-> (y <= x)%Q.
Proof.
  unfold Qlt_bool. rewrite negb_false_iff. apply Qle_bool_iff.
Qed.

(** ** Library Normalizer *)

(** [combinations2] lists every pair of positions [i < j] once. *)
Lemma combinations2_elem {A : Type} (l : list A) (x y : A) :
  (x, y) ∈ combinations2 l <->
  exists i j, (i < j)%nat /\ l !! i = Some x /\ l !! j = Some y.
Proof.
  induction l as [|z t IH]; simpl.
  - split; [intros H; by apply elem_of_nil in H|].
    intros (i & j & _ & H & _). by rewrite lookup_nil in H.
  - rewrite elem_of_app, list_elem_of_fmap, IH. split.
    + intros [(y' & [= -> ->] & Hy)|(i & j & Hij & Hi & Hj)].
      * apply list_elem_of_lookup in Hy as [k Hk]. exists 0%nat, (S k). split; [lia|done].
      * exists (S i), (S j). split; [lia|done].
    + intros (i & j & Hij & Hi & Hj). destruct i as [|i].
      * injection Hi as ->. destruct j as [|j]; [lia|]. left. exists y.
        split; [reflexivity|]. apply list_elem_of_lookup. by exists j.
      * destruct j as [|j]; [lia|]. right. exists i, j. split; [lia|done].
Qed.

Lemma insert_desc_perm {A : Type} (key : A -> Q) (x : A) (l : list A) :
  insert_desc key x l ≡ₚ x :: l.
Proof.
  induction l as [|y t IH]; simpl; [reflexivity|].
  destruct (Qlt_bool (key x) (key y)); [|reflexivity].
  rewrite IH. apply Permutation_swap.
Qed.

Lemma sorted_reverse_perm {A : Type} (key : A -> Q) (l : list A) :
  sorted_reverse key l ≡ₚ l.
Proof.
  induction l as [|x t IH]; simpl; [reflexivity|].
  rewrite insert_desc_perm. by rewrite IH.
Qed.

Lemma insert_desc_sorted {A : Type} (key : A -> Q) (x : A) (l : list A) :
  StronglySorted (descending key) l ->
  StronglySorted (descending key) (insert_desc key x l).
Proof.
  induction 1 as [|y t Hs IH Hy]; simpl.
  - repeat constructor.
  - destruct (Qlt_bool (key x) (key y)) eqn:E.
    + apply Qlt_bool_iff in E. constructor; [exact IH|].
      rewrite insert_desc_perm. constructor; [|exact Hy].
      unfold descending. lra.
    + apply Qlt_bool_false in E. constructor; [by constructor|].
      constructor; [exact E|].
      eapply Forall_impl; [exact Hy|]. unfold descending. intros z Hz. lra.
Qed.

Lemma sorted_reverse_sorted {A : Type} (key : A -> Q) (l : list A) :
  StronglySorted (descending key) (sorted_reverse key l).
Proof.
  induction l as [|x t IH]; simpl; [constructor|].
  by apply insert_desc_sorted.
Qed.

Lemma StronglySorted_map {A B : Type} (f : A -> B) (R : B -> B -> Prop) (l : list A) :
  StronglySorted (fun x y => R (f x) (f y)) l -> StronglySorted R (map f l).
Proof.
  induction 1 as [|x t Hs IH Hx]; simpl; constructor; [exact IH|].
  by apply Forall_map.
Qed.

(** C1, as amended. The pairs the normalizer returns for a labelled
    library are the pairs of [itertools.combinations], reordered so that
    the signed difference (mass of the first label minus mass of the
    second) decreases; a pre-paired library comes back reordered by
    decreasing [mass_difference]. *)
Theorem prep_lib_sorted_by_signed_difference (lib : library) (pairs : list lib_pair) :
  _prep_lib lib = Ok pairs ->
  StronglySorted (descending pair_key) pairs /\
  match lib with
  | LibDict items =>
      exists built, rmap make_pair (combinations2 items) = Ok built /\ pairs ≡ₚ built
  | LibList l => pairs ≡ₚ map PairDiff l
  | LibOther => False
  end.
Proof.
  destruct lib as [items|l|]; simpl.
  - destruct (rmap make_pair (combinations2 items)) as [built|e] eqn:E; simpl; [|discriminate].
    intros [= <-]. split; [apply sorted_reverse_sorted|].
    exists built. split; [reflexivity|apply sorted_reverse_perm].
  - destruct l as [|e0 t]; [discriminate|].
    destruct (iso_mass_difference e0) eqn:E0; [|discriminate].
    destruct (rmap diff_key (e0 :: t)) as [ks|e]; simpl; [|discriminate].
    intros [= <-]. split.
    + apply StronglySorted_map.
      exact (sorted_reverse_sorted (fun d => default 0%Q (iso_mass_difference d)) (e0 :: t)).
    + change (PairDiff e0 :: map PairDiff t) with (map PairDiff (e0 :: t)).
      apply Permutation_map.
      exact (sorted_reverse_perm (fun d => default 0%Q (iso_mass_difference d)) (e0 :: t)).
  - discriminate.
Qed.

Lemma prep_lib_sorted_by_signed_difference_witness :
  exists pairs, _prep_lib adducts_unsorted_example = Ok pairs /\
    StronglySorted (descending pair_key) pairs /\ length pairs = 3%nat.
Proof.
  eexists. split; [reflexivity|]. split.
  - exact (proj1 (prep_lib_sorted_by_signed_difference adducts_unsorted_example _ eq_refl)).
  - reflexivity.
Defined.

(** C1, as stated, fails: for the labels A, B, C of masses 1, 2, 4 the
    pairs come back as (A,B), (B,C), (A,C), whose absolute differences
    1, 2, 3 increase. *)
Lemma prep_lib_not_sorted_by_absolute_difference :
  exists pairs, _prep_lib adducts_unsorted_example = Ok pairs /\
    ~ StronglySorted (descending (fun p => Qabs (pair_key p))) pairs.
Proof.
  eexists. split; [reflexivity|].
  intros H. vm_compute in H. inversion H as [|? ? _ Hall]; subst.
  inversion Hall as [|? ? Hbad _]; subst.
  unfold descending in Hbad. vm_compute in Hbad. by apply Hbad.
Qed.

(** ** The pairwise matching predicate *)

(** C2. With the shifted windows [x1,x2] and [y1,y2], the predicate
    answers 1 exactly when [x1 < y2] and [y1 < x2]; windows that only
    touch ([x2 == y1]) give 0 and no assignment is produced for them. *)
Theorem check_tolerance_strict (mz_x mz_y : Q) (lp : lib_pair) (ppm x1 x2 y1 y2 : Q) :
  shifted_windows mz_x mz_y lp ppm = Ok (x1, x2, y1, y2) ->
  (_check_tolerance mz_x mz_y lp ppm = Ok 1%Z <-> (x1 < y2 /\ y1 < x2)%Q) /\
  ((x2 == y1)%Q ->
     _check_tolerance mz_x mz_y lp ppm = Ok 0%Z /\
     forall id_x id_y, try_pair id_x id_y mz_x mz_y ppm lp = gnil).
Proof.
  intros Hw. unfold try_pair, _check_tolerance. rewrite Hw. simpl.
  destruct (Qlt_bool x1 y2) eqn:E1, (Qlt_bool y1 x2) eqn:E2; simpl;
    rewrite ?Qlt_bool_iff, ?Qlt_bool_false in *.
  - split; [tauto|]. intros Heq. lra.
  - split; [split; [discriminate|intros []; lra]|]. done.
  - split; [split; [discriminate|intros []; lra]|]. done.
  - split; [split; [discriminate|intros []; lra]|]. done.
Qed.

Lemma check_tolerance_strict_witness :
  _check_tolerance 10 11 c13_pair 0 = Ok 0%Z.
Proof.
  exact (proj1 (proj2 (check_tolerance_strict 10 11 c13_pair 0 _ _ _ _ eq_refl)
                 ltac:(reflexivity))).
Defined.

(** ** Reference range stores *)

Lemma in_range_iff (lo hi m : Q) : in_range lo hi m = true <-> (lo <= m /\ m <= hi)%Q.
Proof. unfold in_range. by rewrite andb_true_iff, !Qle_bool_iff. Qed.

Lemma is_one_iff (v : option Z) : is_one v = true <-> v = Some 1%Z.
Proof.
  destruct v as [k|]; simpl; [|done].
  rewrite Z.eqb_eq. split; [by intros ->|by intros [= ->]].
Qed.

Lemma select_mf_iff (sql_literal : Q -> Q) (MF : list mf_record) (lo hi : Q)
  (rules : bool) (r : mf_record) :
  r ∈ select_mf sql_literal MF lo hi rules <->
  r ∈ MF /\ (sql_literal lo <= mf_exact_mass r /\ mf_exact_mass r <= sql_literal hi)%Q /\
  (rules = true ->
     mf_LEWIS r = Some 1%Z /\ mf_SENIOR r = Some 1%Z /\
     mf_HC r = Some 1%Z /\ mf_NOPSC r = Some 1%Z).
Proof.
  unfold select_mf. rewrite list_elem_of_filter.
  rewrite andb_True, Is_true_true, in_range_iff.
  destruct rules.
  - rewrite !andb_True, !Is_true_true, !is_one_iff. tauto.
  - simpl. intuition discriminate.
Qed.

Lemma select_compounds_iff (sql_literal : Q -> Q) (COMPOUNDS : list compound_record)
  (lo hi : Q) (r : compound_record) :
  r ∈ select_compounds sql_literal COMPOUNDS lo hi <->
  r ∈ COMPOUNDS /\
  (sql_literal lo <= cp_exact_mass r /\ cp_exact_mass r <= sql_literal hi)%Q.
Proof.
  unfold select_compounds. rewrite list_elem_of_filter.
  rewrite Is_true_true, in_range_iff. tauto.
Qed.

(** C4. The code departs from the claim at the bounds. A lookup returns
    exactly the stored entries between the two bounds as SQLite reads
    them back from the query text, restricted to those with all four
    rule flags equal to 1 when the rule filter is on; where the text is
    read back as written this is the closed range of the claim. SQLite
    3.40.1 reads "1097.734059454874" one unit in the last place too
    high: the stored entry of that very mass lies in the range
    [1097.734059454874, 1098], and the lookup with these bounds omits
    it, in both stores. *)
Theorem select_omits_entry_on_bound :
  (forall (sql_literal : Q -> Q) (lo hi : Q),
     (forall (MF : list mf_record) (rules : bool) (r : mf_record),
        r ∈ select_mf sql_literal MF lo hi rules <->
        r ∈ MF /\
        (sql_literal lo <= mf_exact_mass r /\ mf_exact_mass r <= sql_literal hi)%Q /\
        (rules = true ->
           mf_LEWIS r = Some 1%Z /\ mf_SENIOR r = Some 1%Z /\
           mf_HC r = Some 1%Z /\ mf_NOPSC r = Some 1%Z)) /\
     (forall (COMPOUNDS : list compound_record) (r : compound_record),
        r ∈ select_compounds sql_literal COMPOUNDS lo hi <->
        r ∈ COMPOUNDS /\
        (sql_literal lo <= cp_exact_mass r /\ cp_exact_mass r <= sql_literal hi)%Q)) /\
  ((boundary_mass <= cp_exact_mass boundary_compound /\
    cp_exact_mass boundary_compound <= 1098)%Q /\
   select_compounds literal_read_high [boundary_compound] boundary_mass 1098 = [] /\
   select_compounds literal_exact [boundary_compound] boundary_mass 1098
   = [boundary_compound]) /\
  ((boundary_mass <= mf_exact_mass boundary_formula /\
    mf_exact_mass boundary_formula <= 1098)%Q /\
   (forall rules, select_mf literal_read_high [boundary_formula] boundary_mass 1098 rules = []) /\
   (forall rules, select_mf literal_exact [boundary_formula] boundary_mass 1098 rules
                  = [boundary_formula])).
Proof.
  split; [|split].
  - intros sql_literal lo hi. split.
    + intros MF rules r. apply select_mf_iff.
    + intros COMPOUNDS r. apply select_compounds_iff.
  - split; [split; discriminate|]. split; reflexivity.
  - split; [split; discriminate|]. split; intros [|]; reflexivity.
Qed.

(** ** Generators and ranges *)

Lemma py_range_spec (lo hi d : Z) : d ∈ py_range lo hi <-> (lo <= d < hi)%Z.
Proof.
  unfold py_range. rewrite list_elem_of_fmap. split.
  - intros (k & -> & Hk). apply elem_of_seq in Hk. lia.
  - intros H. exists (Z.to_nat (d - lo)). split; [lia|].
    apply elem_of_seq. lia.
Qed.

Lemma gfor_ext {X A : Type} (l : list X) (f g : X -> gen A) :
  (forall x, x ∈ l -> f x = g x) -> gfor l f = gfor l g.
Proof.
  induction l as [|x t IH]; intros H; simpl; [reflexivity|].
  rewrite (H x) by apply list_elem_of_here.
  rewrite IH; [reflexivity|]. intros y Hy. apply H. by apply list_elem_of_further.
Qed.

Lemma gfor_nil {X A : Type} (l : list X) (f : X -> gen A) :
  (forall x, x ∈ l -> f x = gnil) -> gfor l f = gnil.
Proof.
  induction l as [|x t IH]; intros H; simpl; [reflexivity|].
  rewrite (H x) by apply list_elem_of_here.
  rewrite IH; [reflexivity|]. intros y Hy. apply H. by apply list_elem_of_further.
Qed.

Lemma gapp_elem {A : Type} (g1 g2 : gen A) (x : A) :
  x ∈ (gapp g1 g2).1 -> x ∈ g1.1 \/ x ∈ g2.1.
Proof.
  destruct g1 as [l [e|]]; simpl; [tauto|].
  rewrite elem_of_app. tauto.
Qed.

Lemma gfor_elem {X A : Type} (l : list X) (f : X -> gen A) (x : A) :
  x ∈ (gfor l f).1 -> exists y, y ∈ l /\ x ∈ (f y).1.
Proof.
  induction l as [|y t IH]; simpl.
  - intros H. by apply elem_of_nil in H.
  - intros H. apply gapp_elem in H as [H|H].
    + exists y. split; [apply list_elem_of_here|exact H].
    + destruct (IH H) as (z & Hz & Hx). exists z. split; [by apply list_elem_of_further|exact Hx].
Qed.

Lemma later_pairs_elem {A : Type} (l : list A) (x : A) (rest : list A) :
  (x, rest) ∈ later_pairs l -> x ∈ l /\ forall y, y ∈ rest -> y ∈ l.
Proof.
  induction l as [|z t IH]; simpl; intros H.
  - by apply elem_of_nil in H.
  - apply elem_of_cons in H as [[= -> ->]|H].
    + split; [apply list_elem_of_here|]. intros y Hy. by apply list_elem_of_further.
    + destruct (IH H) as [Hx Hr]. split; [by apply list_elem_of_further|].
      intros y Hy. apply list_elem_of_further. by apply Hr.
Qed.

Lemma later_pairs_sorted {A : Type} (R : A -> A -> Prop) (l : list A) (x : A)
  (rest : list A) :
  StronglySorted R l -> (x, rest) ∈ later_pairs l -> StronglySorted R rest.
Proof.
  induction 1 as [|z t Hs IH Hz]; simpl; intros H.
  - by apply elem_of_nil in H.
  - apply elem_of_cons in H as [[= -> ->]|H]; [exact Hs|by apply IH].
Qed.

(** ** Oligomers: the early exit *)

Lemma tolerance_min_mono (m1 m2 ppm : Q) :
  (ppm <= 1000000)%Q -> (m1 <= m2)%Q ->
  ((calculate_mz_tolerance m1 ppm).1 <= (calculate_mz_tolerance m2 ppm).1)%Q.
Proof.
  intros Hp Hm. simpl.
  assert (0 <= (m2 - m1) * (1 - (1 # 1000000) * ppm))%Q as H.
  { apply Qmult_le_0_compat; lra. }
  lra.
Qed.

Lemma tolerance_max_mono (m1 m2 ppm : Q) :
  (0 <= ppm)%Q -> (m1 <= m2)%Q ->
  ((calculate_mz_tolerance m1 ppm).2 <= (calculate_mz_tolerance m2 ppm).2)%Q.
Proof.
  intros Hp Hm. simpl.
  assert (0 <= (m2 - m1) * (1 + (1 # 1000000) * ppm))%Q as H.
  { apply Qmult_le_0_compat; lra. }
  lra.
Qed.

(** What the windows are made of. *)
Lemma oligomer_windows_eq (mz_x mz_y m : Q) (d : Z) (ppm : Q) :
  oligomer_windows mz_x mz_y m d ppm =
  ((calculate_mz_tolerance (mz_x + (mz_x - m) * inject_Z d) ppm).1,
   (calculate_mz_tolerance (mz_x + (mz_x - m) * inject_Z d) ppm).2,
   (calculate_mz_tolerance mz_y ppm).1,
   (calculate_mz_tolerance mz_y ppm).2).
Proof. reflexivity. Qed.

(** A target whose window starts above the candidate's window is rejected. *)
Lemma above_not_accepted (a1 a2 b1 b2 m : Q) :
  (a2 < b1)%Q -> oligomer_accepts (a1, a2, b1, b2) m = false.
Proof.
  intros H. unfold oligomer_accepts. apply andb_false_iff. right.
  apply Qlt_bool_false. lra.
Qed.

Lemma diverged_above (a1 a2 b1 b2 : Q) :
  diverged (a1, a2, b1, b2) = true -> (a2 < b1)%Q.
Proof.
  unfold diverged. rewrite andb_true_iff, !Qlt_bool_iff. tauto.
Qed.

Lemma oligomer_try_rejected (id_x id_y : string) (mz_x mz_y : Q) (adduct : string)
  (m : Q) (d : Z) (ppm : Q) :
  oligomer_accepts (oligomer_windows mz_x mz_y m d ppm) m = false ->
  oligomer_try id_x id_y mz_x mz_y adduct m d ppm = gnil.
Proof. unfold oligomer_try. by intros ->. Qed.

(** Flat-list mode: once the [break] fires at a peak, no later peak of an
    m/z-sorted list is accepted either. *)
Lemma scan_later_exhaustive (pi : peak) (adduct : string) (m : Q) (d : Z) (ppm : Q)
  (rest : list peak) :
  (ppm <= 1000000)%Q ->
  StronglySorted (fun p q => (mz p <= mz q)%Q) rest ->
  scan_later pi adduct m d ppm rest =
  gfor rest (fun pj => oligomer_try (name pi) (name pj) (mz pi) (mz pj) adduct m d ppm).
Proof.
  intros Hp. induction 1 as [|pj t Hs IH Hpj]; [reflexivity|].
  cbn [scan_later].
  destruct (diverged (oligomer_windows (mz pi) (mz pj) m d ppm)) eqn:Hd.
  - rewrite oligomer_windows_eq in Hd. apply diverged_above in Hd.
    symmetry. rewrite gfor_nil; [reflexivity|].
    intros pk Hk. apply oligomer_try_rejected.
    rewrite oligomer_windows_eq. apply above_not_accepted.
    assert (mz pj <= mz pk)%Q as Hle.
    { apply elem_of_cons in Hk as [->|Hk]; [lra|].
      rewrite Forall_forall in Hpj. by apply Hpj. }
    pose proof (tolerance_min_mono _ _ ppm Hp Hle). lra.
  - cbn [gfor]. by rewrite IH.
Qed.

(** Graph mode: once the [break] fires at an adduct, no later adduct of a
    mass-sorted library is accepted either. *)
Lemma scan_adducts_exhaustive (n nn : string) (mz_x mz_y : Q) (d : Z) (ppm : Q)
  (adducts : list (string * Q)) :
  (0 <= ppm)%Q -> (0 <= d)%Z ->
  StronglySorted (fun a b => (a.2 <= b.2)%Q) adducts ->
  scan_adducts n nn mz_x mz_y d ppm adducts =
  gfor adducts (fun '(adduct, m) => oligomer_try n nn mz_x mz_y adduct m d ppm).
Proof.
  intros Hp Hd0. induction 1 as [|[adduct m] t Hs IH Ha]; [reflexivity|].
  cbn [scan_adducts].
  destruct (diverged (oligomer_windows mz_x mz_y m d ppm)) eqn:Hd.
  - rewrite oligomer_windows_eq in Hd. apply diverged_above in Hd.
    symmetry. rewrite gfor_nil; [reflexivity|].
    intros [adduct' m'] Hk. apply oligomer_try_rejected.
    rewrite oligomer_windows_eq. apply above_not_accepted.
    assert (m <= m')%Q as Hle.
    { apply elem_of_cons in Hk as [[= -> ->]|Hk]; [lra|].
      rewrite Forall_forall in Ha. by apply (Ha _ Hk). }
    assert (0 <= inject_Z d)%Q as HdQ.
    { change 0%Q with (inject_Z 0). by rewrite <- Zle_Qle. }
    assert (mz_x + (mz_x - m') * inject_Z d <= mz_x + (mz_x - m) * inject_Z d)%Q as Hc.
    { assert (0 <= (m' - m) * inject_Z d)%Q by (apply Qmult_le_0_compat; lra). lra. }
    pose proof (tolerance_max_mono _ _ ppm Hp Hc). lra.
  - cbn [gfor]. by rewrite IH.
Qed.

(** C3, as amended. For a tolerance between 0 and 5 * 10^5 ppm, the
    matcher with the [break] produces the matches (and the exception, if
    any) of the exhaustive loops on every peak list sorted by ascending
    m/z, for every maximum, and on every graph when the adduct library
    is sorted by ascending mass. The [break] is sound where the bounds
    of the window grow with the mass. In exact arithmetic the lower
    bound does so up to 10^6 ppm; computed in double precision as
    [mass - mass * 0.000001 * ppm] it does so only while the term taken
    off is at most half the mass, which is the bound of the statement. *)
Theorem oligomer_break_exhaustive_when_sorted (ppm : Q) (lib : list (string * Q)) :
  (0 <= ppm /\ ppm <= 500000)%Q ->
  (forall (df : dataframe) (maximum : Z),
     StronglySorted (fun p q => (mz p <= mz q)%Q) df ->
     oligomers_from_peaklist df ppm lib maximum
     = oligomers_from_peaklist_naive df ppm lib maximum) /\
  (forall graph : digraph,
     StronglySorted (fun a b => (a.2 <= b.2)%Q) lib ->
     oligomers_from_graph graph ppm lib = oligomers_from_graph_naive graph ppm lib).
Proof.
  intros [Hp0 Hp1]. split.
  - intros df maximum Hs. unfold oligomers_from_peaklist, oligomers_from_peaklist_naive.
    apply gfor_ext. intros [adduct m] _.
    apply gfor_ext. intros [pi rest] Hin.
    apply gfor_ext. intros d _.
    apply scan_later_exhaustive; [lra|].
    by eapply later_pairs_sorted.
  - intros graph Hs. unfold oligomers_from_graph, oligomers_from_graph_naive.
    apply gfor_ext. intros n _. simpl.
    apply gfor_ext. intros d Hd. apply py_range_spec in Hd.
    apply gfor_ext. intros nn _.
    destruct (node graph n) as [dx|]; [|reflexivity].
    destruct (node graph nn) as [dy|]; [|reflexivity].
    destruct (Qlt_bool _ _); [|reflexivity].
    apply scan_adducts_exhaustive; [exact Hp0|lia|exact Hs].
Qed.

Lemma oligomer_break_exhaustive_when_sorted_witness :
  (oligomers_from_peaklist peaks_sorted_example 5 proton_only 2
   = oligomers_from_peaklist_naive peaks_sorted_example 5 proton_only 2 /\
   length (oligomers_from_peaklist peaks_sorted_example 5 proton_only 2).1 = 1%nat) /\
  oligomers_from_graph graph_example 5 proton_only
  = oligomers_from_graph_naive graph_example 5 proton_only.
Proof.
  assert (0 <= 5 /\ 5 <= 500000)%Q as Hppm by (split; discriminate).
  destruct (oligomer_break_exhaustive_when_sorted 5 proton_only Hppm) as [Hflat Hgraph].
  split; [split|].
  - apply Hflat. repeat constructor; discriminate.
  - reflexivity.
  - apply Hgraph. repeat constructor.
Defined.

(** C3, as stated, fails: on the peak list 10, 100, 19 the [break] fires
    at the peak 100 and the dimer 19 of the peak 10 is never tested,
    while the exhaustive loops accept it. *)
Lemma oligomer_break_drops_match_when_unsorted :
  oligomers_from_peaklist peaks_unsorted_example 5 proton_only 2 = gnil /\
  length (oligomers_from_peaklist_naive peaks_unsorted_example 5 proton_only 2).1 = 1%nat /\
  oligomers_from_peaklist peaks_unsorted_example 5 proton_only 2
  <> oligomers_from_peaklist_naive peaks_unsorted_example 5 proton_only 2.
Proof.
  split; [reflexivity|]. split; [reflexivity|].
  intros H. apply (f_equal (fun g => length g.1)) in H. vm_compute in H. discriminate.
Qed.

(** ** Oligomers: the multiplicities *)

Lemma oligomer_try_elem (id_x id_y : string) (mz_x mz_y : Q) (adduct : string) (m : Q)
  (d : Z) (ppm : Q) (r : oligomers_row) :
  r ∈ (oligomer_try id_x id_y mz_x mz_y adduct m d ppm).1 ->
  oligomer_accepts (oligomer_windows mz_x mz_y m d ppm) m = true /\
  oligomer_row id_x id_y mz_x mz_y adduct m d = Ok r.
Proof.
  unfold oligomer_try.
  destruct (oligomer_accepts _ _); [|intros H; by apply elem_of_nil in H].
  destruct (oligomer_row _ _ _ _ _ _ _) as [r'|e]; simpl.
  - intros H. apply list_elem_of_singleton in H as ->. done.
  - intros H. by apply elem_of_nil in H.
Qed.

Lemma scan_later_elem (pi : peak) (adduct : string) (m : Q) (d : Z) (ppm : Q)
  (rest : list peak) (r : oligomers_row) :
  r ∈ (scan_later pi adduct m d ppm rest).1 ->
  exists pj, pj ∈ rest /\
    r ∈ (oligomer_try (name pi) (name pj) (mz pi) (mz pj) adduct m d ppm).1.
Proof.
  induction rest as [|pj t IH]; cbn [scan_later].
  - intros H. by apply elem_of_nil in H.
  - destruct (diverged _); [intros H; by apply elem_of_nil in H|].
    intros H. apply gapp_elem in H as [H|H].
    + exists pj. split; [apply list_elem_of_here|exact H].
    + destruct (IH H) as (pk & Hk & Hr). exists pk.
      split; [by apply list_elem_of_further|exact Hr].
Qed.

Lemma scan_adducts_elem (n nn : string) (mz_x mz_y : Q) (d : Z) (ppm : Q)
  (adducts : list (string * Q)) (r : oligomers_row) :
  r ∈ (scan_adducts n nn mz_x mz_y d ppm adducts).1 ->
  exists adduct m, (adduct, m) ∈ adducts /\
    r ∈ (oligomer_try n nn mz_x mz_y adduct m d ppm).1.
Proof.
  induction adducts as [|[adduct m] t IH]; cbn [scan_adducts].
  - intros H. by apply elem_of_nil in H.
  - destruct (diverged _); [intros H; by apply elem_of_nil in H|].
    intros H. apply gapp_elem in H as [H|H].
    + exists adduct, m. split; [apply list_elem_of_here|exact H].
    + destruct (IH H) as (a' & m' & Hk & Hr). exists a', m'.
      split; [by apply list_elem_of_further|exact Hr].
Qed.

Lemma gapp_total {A : Type} (g1 g2 : gen A) :
  g1.2 = None -> gapp g1 g2 = (g1.1 ++ g2.1, g2.2).
Proof. destruct g1 as [l [e|]]; simpl; [discriminate|done]. Qed.

Lemma gfor_total {X A : Type} (l : list X) (f : X -> gen A) :
  (forall x, x ∈ l -> (f x).2 = None) ->
  (gfor l f).2 = None /\
  forall a, a ∈ (gfor l f).1 <-> exists x, x ∈ l /\ a ∈ (f x).1.
Proof.
  induction l as [|x t IH]; intros H; simpl.
  - split; [reflexivity|]. intros a. split.
    + intros Ha. by apply elem_of_nil in Ha.
    + intros (x & Hx & _). by apply elem_of_nil in Hx.
  - destruct IH as [IH1 IH2].
    { intros y Hy. apply H. by apply list_elem_of_further. }
    rewrite gapp_total by apply H, list_elem_of_here. simpl.
    split; [exact IH1|]. intros a. rewrite elem_of_app, IH2. split.
    + intros [Ha|(y & Hy & Ha)].
      * exists x. split; [apply list_elem_of_here|exact Ha].
      * exists y. split; [by apply list_elem_of_further|exact Ha].
    + intros (y & Hy & Ha). apply elem_of_cons in Hy as [->|Hy]; [by left|].
      right. by exists y.
Qed.






Lemma later_pairs_lookup {A : Type} (l : list A) (x : A) (rest : list A) :
  (x, rest) ∈ later_pairs l <-> exists i, l !! i = Some x /\ rest = drop (S i) l.
Proof.
  induction l as [|z t IH]; simpl.
  - split; [intros H; by apply elem_of_nil in H|]. intros (i & H & _). by rewrite lookup_nil in H.
  - rewrite elem_of_cons, IH. split.
    + intros [[= -> ->]|(i & Hi & ->)]; [by exists 0%nat|by exists (S i)].
    + intros ([|i] & Hi & ->); simpl in *.
      * left. by injection Hi as ->.
      * right. by exists i.
Qed.







(** ** Isotopes: the atoms estimate *)

Lemma isotopes_from_graph_null_atoms (G : digraph) (abundances : gmap string Q)
  (asg : assignment) (ab_a ab_b : Q) (na nb : node_data) (tbl : list isotopes_row) :
  abundance abundances (label_a asg) = Ok ab_a ->
  abundance abundances (label_b asg) = Ok ab_b ->
  node G (peak_id_a asg) = Ok na ->
  node G (peak_id_b asg) = Ok nb ->
  estimate_atoms ab_a ab_b (node_intensity na) (node_intensity nb) = None ->
  isotopes_from_graph G abundances asg tbl = (tbl, Some TypeError).
Proof.
  intros Ha Hb Hna Hnb Hat. unfold isotopes_from_graph, exec.
  rewrite Ha, Hnb. simpl. rewrite Hb, Hna. simpl. by rewrite Hat.
Qed.

(** C5. The code departs from the claim in graph mode: for two peaks one
    C13 step apart, the second of intensity 0, the product is zero and
    [float(None)] raises a TypeError that ends the run with nothing
    persisted; flat-list mode persists the row with a null [atoms]. *)
Theorem isotopes_zero_product_graph_raises :
  annotate_isotopes (SrcGraphs [zero_intensity_graph]) 5 carbon_isotopes
  = ([], Some TypeError) /\
  annotate_isotopes (SrcFrame zero_intensity_peaks) 5 carbon_isotopes
  = ([mk_isotopes_row "p1" "p2" "C12" "C13" None (py_round2 0)], None).
Proof. split; reflexivity. Qed.

(** ** Artifacts *)

(** C9. The code departs from the claim: [range(n)] is handed the m/z
    column instead of its length, and a node view has no [iloc], so the
    run raises before any pair is compared and persists no row, for
    every peak table and every non-empty list of graphs. *)
Theorem annotate_artifacts_always_raises (diff : Q) :
  (forall df : dataframe,
     annotate_artifacts (SrcFrame df) diff = ([], Some TypeError)) /\
  (forall (g : digraph) (gs : list digraph),
     annotate_artifacts (SrcGraphs (g :: gs)) diff = ([], Some AttributeError)).
Proof. split; reflexivity. Qed.

Example annotate_artifacts_split_peak :
  annotate_artifacts (SrcFrame split_peak_example) (2 # 100) = ([], Some TypeError) /\
  Qlt_bool (Qabs (100 - (10001 # 100))) (2 # 100) = true.
Proof. split; reflexivity. Qed.

(** ** Commands and tables *)

Lemma keeps_cskip {S : Type} (P : S -> Prop) : keeps P cskip.
Proof. by intros s. Qed.

Lemma keeps_cseq {S : Type} (P : S -> Prop) (c1 c2 : cmd S) :
  keeps P c1 -> keeps P c2 -> keeps P (cseq c1 c2).
Proof.
  intros H1 H2 s Hs. unfold cseq. specialize (H1 s Hs).
  destruct (c1 s) as [s' [e|]]; simpl in *; [exact H1|]. by apply H2.
Qed.

Lemma keeps_cfor {A S : Type} (P : S -> Prop) (l : list A) (body : A -> cmd S) :
  (forall x, x ∈ l -> keeps P (body x)) -> keeps P (cfor l body).
Proof.
  induction l as [|x t IH]; intros H; simpl; [apply keeps_cskip|].
  apply keeps_cseq; [apply H, list_elem_of_here|].
  apply IH. intros y Hy. apply H. by apply list_elem_of_further.
Qed.

Lemma keeps_cfor_gen {A S : Type} (P : S -> Prop) (g : gen A) (body : A -> cmd S) :
  (forall x, x ∈ g.1 -> keeps P (body x)) -> keeps P (cfor_gen g body).
Proof.
  intros H. unfold cfor_gen. apply keeps_cseq; [by apply keeps_cfor|].
  intros s Hs. exact Hs.
Qed.

Lemma keeps_exec {S : Type} (P : S -> Prop) (f : S -> result S) :
  (forall s s', P s -> f s = Ok s' -> P s') -> keeps P (exec f).
Proof.
  intros H s Hs. unfold exec. destruct (f s) as [s'|e] eqn:E; simpl; [|exact Hs].
  by apply (H s).
Qed.

Lemma distinct_keys_nil {R : Type} (same_key : R -> R -> bool) : distinct_keys same_key [].
Proof. intros i j r r' _ H. by rewrite lookup_nil in H. Qed.

Lemma distinct_keys_snoc {R : Type} (same_key : R -> R -> bool) (tbl : list R) (r : R) :
  distinct_keys same_key tbl -> existsb (same_key r) tbl = false ->
  distinct_keys same_key (tbl ++ [r]).
Proof.
  intros Hd Hr i j x y Hij Hi Hj.
  destruct (decide (j < length tbl)%nat) as [Hlt|Hge].
  - rewrite lookup_app_l in Hi by lia. rewrite lookup_app_l in Hj by lia.
    exact (Hd i j x y Hij Hi Hj).
  - assert (j = length tbl) as ->.
    { apply lookup_lt_Some in Hj. rewrite length_app in Hj. simpl in Hj. lia. }
    rewrite lookup_app_l in Hi by lia.
    rewrite list_lookup_middle in Hj by reflexivity. injection Hj as <-.
    destruct (same_key r x) eqn:E; [|reflexivity].
    assert (existsb (same_key r) tbl = true) as Hex; [|congruence].
    apply existsb_exists. exists x. split; [|exact E].
    apply list_elem_of_In, list_elem_of_lookup. eauto.
Qed.

Lemma keeps_sql_insert {R : Type} (same_key : R -> R -> bool) (r : R) :
  keeps (distinct_keys same_key) (exec (sql_insert same_key r)).
Proof.
  apply keeps_exec. intros s s' Hs. unfold sql_insert.
  destruct (existsb (same_key r) s) eqn:E; [discriminate|].
  intros [= <-]. by apply distinct_keys_snoc.
Qed.

(** ** Reference matches: duplicates *)

Lemma sql_insert_duplicate {R : Type} (same_key : R -> R -> bool) (r : R) (tbl : list R)
  (next : cmd (list R)) :
  existsb (same_key r) tbl = true ->
  cseq (exec (sql_insert same_key r)) next tbl = (tbl, Some IntegrityError).
Proof. intros H. unfold cseq, exec, sql_insert. by rewrite H. Qed.

Lemma transaction_raises {S : Type} (c : cmd S) (s s' : S) (e : exn) :
  c s = (s', Some e) -> transaction c s = (s, Some e).
Proof. unfold transaction. by intros ->. Qed.

Lemma transaction_outcome {S : Type} (P : S -> Prop) (c : cmd S) (s : S) :
  keeps P c -> P s ->
  (exists s', transaction c s = (s', None) /\ P s') \/
  (exists e, transaction c s = (s, Some e)).
Proof.
  intros Hc Hs. specialize (Hc s Hs). unfold transaction.
  destruct (c s) as [s' [e|]]; simpl in *; eauto.
Qed.

Lemma keeps_annotate_compounds_cursor (P : list compounds_row -> Prop)
  (sql_literal : Q -> Q) (peaklist : dataframe) (lib_adducts : list (string * Q))
  (ppm : Q) (store : list compound_record) :
  (forall p adduct m record,
     p ∈ peaklist -> (adduct, m) ∈ lib_adducts ->
     Qlt_bool (5 # 10) (mz p - m) = true ->
     record ∈ select_compounds sql_literal store
                ((calculate_mz_tolerance (mz p) ppm).1 - m)
                ((calculate_mz_tolerance (mz p) ppm).2 - m) ->
     keeps P (persist_compound (name p) (mz p) adduct m record)) ->
  keeps P (annotate_compounds_cursor sql_literal peaklist lib_adducts ppm store).
Proof.
  intros H. unfold annotate_compounds_cursor.
  apply keeps_cfor. intros p Hp.
  destruct (calculate_mz_tolerance (mz p) ppm) as [min_tol max_tol] eqn:Et.
  apply keeps_cfor. intros [adduct m] Ha.
  destruct (Qlt_bool (5 # 10) (mz p - m)) eqn:Hg; [|apply keeps_cskip].
  apply keeps_cfor. intros record Hr.
  apply (H p adduct m record Hp Ha Hg). by rewrite Et.
Qed.

Lemma keeps_annotate_molecular_formulae_cursor (P : list molecular_formulae_row -> Prop)
  (composition_to_string : list (string * Z) -> string) (sql_literal : Q -> Q)
  (peaklist : dataframe) (lib_adducts : list (string * Q)) (ppm : Q)
  (MF : list mf_record) (rules : bool) :
  (forall p values r,
     p ∈ peaklist ->
     mf_values composition_to_string sql_literal MF rules p ppm lib_adducts = Ok values ->
     r ∈ values -> keeps P (exec (sql_insert molecular_formulae_key r))) ->
  keeps P (annotate_molecular_formulae_cursor composition_to_string sql_literal peaklist
             lib_adducts ppm MF rules).
Proof.
  intros H. unfold annotate_molecular_formulae_cursor.
  apply keeps_cfor. intros p Hp.
  destruct (mf_values _ _ _ _ _ _ _) as [values|e] eqn:Ev; [|intros s Hs; exact Hs].
  apply keeps_cfor. intros r Hr. by apply (H p values r).
Qed.

Lemma keeps_persist_compound (name_ : string) (mz_ : Q) (adduct : string) (m : Q)
  (record : compound_record) :
  keeps (distinct_keys compounds_key) (persist_compound name_ mz_ adduct m record).
Proof.
  unfold persist_compound. apply keeps_exec. intros s s' Hs.
  destruct (ppm_error_checked _ _) as [pe|e]; simpl; [|discriminate].
  unfold sql_insert. destruct (existsb _ s) eqn:E; [discriminate|].
  intros [= <-]. by apply distinct_keys_snoc.
Qed.

(** C6, as amended. A second match whose composite key is already in the
    table makes the insert raise an integrity error: the duplicate is
    neither ignored nor written over the first row, nothing that follows
    in the run is executed, and since the commit follows the loops the
    table of the file is left without any row of the run. A run of
    either orchestrator thus ends normally with a table of pairwise
    distinct keys, or raises and leaves the table empty. *)
Theorem reference_match_duplicate_raises :
  (forall (name_ : string) (mz_ : Q) (adduct : string) (m : Q) (record : compound_record)
          (tbl : list compounds_row) (pe : Q) (before next : cmd (list compounds_row)),
     before [] = (tbl, None) ->
     ppm_error_checked mz_ (cp_exact_mass record + m) = Ok pe ->
     existsb (compounds_key
                (mk_compounds_row name_ mz_ (cp_exact_mass record + m) pe adduct record))
             tbl = true ->
     cseq before (cseq (persist_compound name_ mz_ adduct m record) next) []
     = (tbl, Some IntegrityError) /\
     transaction (cseq before (cseq (persist_compound name_ mz_ adduct m record) next)) []
     = ([], Some IntegrityError)) /\
  (forall (r : molecular_formulae_row) (tbl : list molecular_formulae_row)
          (before next : cmd (list molecular_formulae_row)),
     before [] = (tbl, None) ->
     existsb (molecular_formulae_key r) tbl = true ->
     cseq before (cseq (exec (sql_insert molecular_formulae_key r)) next) []
     = (tbl, Some IntegrityError) /\
     transaction (cseq before (cseq (exec (sql_insert molecular_formulae_key r)) next)) []
     = ([], Some IntegrityError)) /\
  (forall sql_literal peaklist lib_adducts ppm store,
     (exists tbl,
        annotate_compounds sql_literal peaklist lib_adducts ppm store = (tbl, None) /\
        distinct_keys compounds_key tbl) \/
     (exists e,
        annotate_compounds sql_literal peaklist lib_adducts ppm store = ([], Some e))) /\
  (forall composition_to_string sql_literal peaklist lib_adducts ppm MF rules,
     (exists tbl,
        annotate_molecular_formulae composition_to_string sql_literal peaklist lib_adducts
          ppm MF rules = (tbl, None) /\
        distinct_keys molecular_formulae_key tbl) \/
     (exists e,
        annotate_molecular_formulae composition_to_string sql_literal peaklist lib_adducts
          ppm MF rules = ([], Some e))).
Proof.
  split; [|split; [|split]].
  - intros name_ mz_ adduct m record tbl pe before next Hb Hpe Hdup.
    assert (cseq before (cseq (persist_compound name_ mz_ adduct m record) next) []
            = (tbl, Some IntegrityError)) as Hrun.
    { unfold cseq at 1. rewrite Hb.
      unfold cseq, persist_compound, exec. rewrite Hpe. simpl.
      unfold sql_insert. by rewrite Hdup. }
    split; [exact Hrun|]. by apply (transaction_raises _ _ tbl).
  - intros r tbl before next Hb Hdup.
    assert (cseq before (cseq (exec (sql_insert molecular_formulae_key r)) next) []
            = (tbl, Some IntegrityError)) as Hrun.
    { unfold cseq at 1. rewrite Hb. by apply sql_insert_duplicate. }
    split; [exact Hrun|]. by apply (transaction_raises _ _ tbl).
  - intros sql_literal peaklist lib_adducts ppm store. unfold annotate_compounds.
    apply transaction_outcome; [|apply distinct_keys_nil].
    apply keeps_annotate_compounds_cursor. intros. apply keeps_persist_compound.
  - intros cts sql_literal peaklist lib_adducts ppm MF rules.
    unfold annotate_molecular_formulae.
    apply transaction_outcome; [|apply distinct_keys_nil].
    apply keeps_annotate_molecular_formulae_cursor. intros. apply keeps_sql_insert.
Qed.

Lemma reference_match_duplicate_raises_witness :
  cseq (persist_compound "p1" 181 "[M+H]+" 1 glucose)
       (cseq (persist_compound "p1" 181 "[M+H]+" 1 glucose) cskip) []
  = ((persist_compound "p1" 181 "[M+H]+" 1 glucose []).1, Some IntegrityError) /\
  transaction (cseq (persist_compound "p1" 181 "[M+H]+" 1 glucose)
                    (cseq (persist_compound "p1" 181 "[M+H]+" 1 glucose) cskip)) []
  = ([], Some IntegrityError).
Proof.
  refine (proj1 reference_match_duplicate_raises "p1" 181%Q "[M+H]+" 1%Q glucose
            _ _ (persist_compound "p1" 181 "[M+H]+" 1 glucose) cskip _ _ _);
    reflexivity.
Defined.

(** C6, as stated, fails: a second match with the key of an earlier one
    is not ignored. With two formula records of the same composition
    (the store keys them by composition and mass) in the window of the
    peak p1, whatever [composition_to_string] computes, and with a
    reference table listing D-Glucose twice, the second insert raises an
    integrity error after the first row; the run ends with it and
    commits nothing. *)
Lemma reference_match_duplicate_not_ignored :
  (forall composition_to_string,
     (exists row,
        annotate_molecular_formulae_cursor composition_to_string literal_exact
          [mk_peak "p1" 181 0 1] proton_only 5 [hexose; hexose_heavier] true []
        = ([row], Some IntegrityError)) /\
     annotate_molecular_formulae composition_to_string literal_exact
       [mk_peak "p1" 181 0 1] proton_only 5 [hexose; hexose_heavier] true
     = ([], Some IntegrityError)) /\
  (exists row,
     annotate_compounds_cursor literal_exact [mk_peak "p1" 181 0 1] proton_only 5
       [glucose; glucose] []
     = ([row], Some IntegrityError)) /\
  annotate_compounds literal_exact [mk_peak "p1" 181 0 1] proton_only 5 [glucose; glucose]
  = ([], Some IntegrityError).
Proof.
  split; [|split].
  - intros cts.
    assert (exists row,
      annotate_molecular_formulae_cursor cts literal_exact
        [mk_peak "p1" 181 0 1] proton_only 5 [hexose; hexose_heavier] true []
      = ([row], Some IntegrityError)) as [row Hrow].
    { eexists. cbv -[String.eqb]. rewrite !String.eqb_refl. reflexivity. }
    split; [by exists row|].
    unfold annotate_molecular_formulae. by apply (transaction_raises _ _ [row]).
  - eexists. reflexivity.
  - reflexivity.
Qed.

(** ** Summary: when there is nothing to summarise *)

Lemma mem_spec (x : string) (l : list string) : mem x l = true <-> x ∈ l.
Proof.
  unfold mem. rewrite existsb_exists. split.
  - intros (y & Hy & E). apply String.eqb_eq in E as ->. by apply list_elem_of_In.
  - intros H. exists x. split; [by apply list_elem_of_In|apply String.eqb_refl].
Qed.

Lemma length_filter_pos {A : Type} (P : A -> bool) (l : list A) :
  (0 <? length (filter P l))%nat = true <-> exists x, x ∈ l /\ P x = true.
Proof.
  rewrite Nat.ltb_lt. split.
  - intros H. destruct (filter P l) as [|x t] eqn:E; [simpl in H; lia|].
    exists x. assert (x ∈ filter P l) as Hin by (rewrite E; apply list_elem_of_here).
    apply list_elem_of_filter in Hin as [HP Hin].
    split; [exact Hin|by apply Is_true_true].
  - intros (x & Hx & HP).
    assert (x ∈ filter P l) as Hin.
    { apply list_elem_of_filter. split; [by rewrite HP|exact Hx]. }
    destruct (filter P l); [by apply elem_of_nil in Hin|simpl; lia].
Qed.

Lemma flag_amo_spec (tables : list string) :
  flag_amo tables = true <-> exists tn, tn ∈ tables /\ mem tn tables_amo = true.
Proof.
  unfold flag_amo. rewrite length_filter_pos. split.
  - intros (tl & Hin & Hm). exists tl. by rewrite !mem_spec in *.
  - intros (tn & Hin & Hm). exists tn. by rewrite !mem_spec in *.
Qed.

Lemma flag_isotopes_amo (tables : list string) :
  flag_isotopes tables = true -> flag_amo tables = true.
Proof.
  unfold flag_isotopes. intros H. apply flag_amo_spec.
  exists "isotopes". split; [by apply mem_spec|reflexivity].
Qed.

Lemma mf_cpc_columns_empty (tables : list string) :
  String.eqb (mf_cpc_columns tables) "" = true <->
  flag_mf tables = false /\ flag_cpd tables = false.
Proof.
  unfold mf_cpc_columns.
  destruct (flag_mf tables), (flag_cpd tables); simpl; vm_compute; intuition discriminate.
Qed.

Lemma create_peak_labels_amo (tables : list string) (k : nat) :
  flag_amo tables = true ->
  create_peak_labels tables k = Raise OperationalError \/
  exists c cs, create_peak_labels tables k = Ok (c :: cs).
Proof.
  intros Ha. unfold create_peak_labels. rewrite Ha. simpl.
  destruct (flag_isotopes tables); simpl.
  - destruct (k =? 0)%nat; [by left|right].
    destruct (has_groupings tables); simpl; eauto.
  - right. destruct (has_groupings tables); simpl; eauto.
Qed.

Lemma create_peak_labels_none (tables : list string) (k : nat) :
  flag_amo tables = false -> create_peak_labels tables k = Ok [].
Proof.
  intros Ha. unfold create_peak_labels. rewrite Ha.
  destruct (flag_isotopes tables) eqn:Hi; [|reflexivity].
  apply flag_isotopes_amo in Hi. congruence.
Qed.

(** C7, as amended. [summary] raises its "no annotation results" error
    exactly when the store holds none of the tables it recognises:
    adduct_pairs, multiple_charged_ions, oligomers, isotopes,
    molecular_formulae, or a table with "compound" in its name. *)
Theorem summary_raises_iff_nothing_recognised (s : store) :
  summary_check s = Raise ValueError <->
  (forall tn, tn ∈ table_names s -> recognised tn = false).
Proof.
  unfold summary_check. set (tables := table_names s).
  destruct (flag_amo tables) eqn:Ha.
  - split.
    + intros H. exfalso.
      destruct (create_peak_labels_amo tables (length (sub_queries s)) Ha)
        as [E|(c & cs & E)]; rewrite E in H; simpl in H; discriminate.
    + intros H. apply flag_amo_spec in Ha as (tn & Hin & Hm).
      specialize (H tn Hin). unfold recognised in H. rewrite Hm in H. discriminate.
  - rewrite create_peak_labels_none by exact Ha. simpl.
    destruct (String.eqb (mf_cpc_columns tables) "") eqn:Hc.
    + apply mf_cpc_columns_empty in Hc as [Hmf Hcpd]. split; [intros _|reflexivity].
      intros tn Hin. unfold recognised.
      destruct (mem tn tables_amo) eqn:E1.
      { assert (flag_amo tables = true) by (apply flag_amo_spec; eauto). congruence. }
      destruct (String.eqb tn "molecular_formulae") eqn:E2.
      { apply String.eqb_eq in E2 as ->.
        assert (flag_mf tables = true) by (by apply mem_spec). congruence. }
      destruct (contains "compound" tn) eqn:E3; [|reflexivity].
      assert (flag_cpd tables = true) by (apply length_filter_pos; eauto). congruence.
    + split; [discriminate|]. intros H. exfalso.
      assert (flag_mf tables = false /\ flag_cpd tables = false) as Hboth.
      { split.
        - destruct (flag_mf tables) eqn:E; [|reflexivity].
          apply mem_spec in E. specialize (H _ E). discriminate.
        - destruct (flag_cpd tables) eqn:E; [|reflexivity].
          apply length_filter_pos in E as (tn & Hin & Hc').
          specialize (H _ Hin). unfold recognised in H. rewrite Hc' in H.
          by rewrite orb_true_r in H. }
      apply mf_cpc_columns_empty in Hboth. congruence.
Qed.

Lemma summary_raises_iff_nothing_recognised_witness :
  summary_check artifacts_only_store = Raise ValueError.
Proof.
  apply (proj2 (summary_raises_iff_nothing_recognised artifacts_only_store)).
  intros tn Hin. vm_compute in Hin.
  apply elem_of_cons in Hin as [->|Hin]; [reflexivity|].
  apply list_elem_of_singleton in Hin as ->. reflexivity.
Defined.

(** C7, as stated, fails: a store that holds the relationship table
    [artifacts] still makes [summary] raise the error; so does a store
    that holds only the reference-match table [drug_products]. *)
Lemma summary_raises_despite_annotation_table :
  (summary_check artifacts_only_store = Raise ValueError /\
   "artifacts" ∈ table_names artifacts_only_store /\
   "artifacts" ∈ spec_relationship_tables) /\
  (summary_check [("peaklist", TOther); ("drug_products", TOther)] = Raise ValueError /\
   spec_reference_table "drug_products" = true).
Proof.
  repeat split; try reflexivity.
  - apply list_elem_of_further, list_elem_of_here.
  - do 4 apply list_elem_of_further. apply list_elem_of_here.
Qed.

(** With [isotopes] as the only relationship table, the statement that
    creates [peak_labels] is malformed and a database error is raised. *)
Example summary_isotopes_only :
  summary_check [("peaklist", TOther); ("isotopes", TIsotopes [])] = Raise OperationalError.
Proof. reflexivity. Qed.

(** ** Summary: the artifacts table *)

Lemma filter_ext_elem {A : Type} (P Q : A -> bool) (l : list A) :
  (forall x, x ∈ l -> P x = Q x) -> filter P l = filter Q l.
Proof.
  induction l as [|x l IH]; intros H; [reflexivity|].
  rewrite !filter_cons. rewrite (H x) by apply list_elem_of_here.
  rewrite IH; [reflexivity|]. intros y Hy. apply H. by apply list_elem_of_further.
Qed.

Section Artifacts.

Variables (s1 s2 : store) (t : table).

Lemma assoc_app {V : Type} (k : string) (l1 l2 : list (string * V)) :
  assoc k (l1 ++ l2) = match assoc k l1 with Some v => Some v | None => assoc k l2 end.
Proof.
  induction l1 as [|[k' v] l1 IH]; simpl; [reflexivity|].
  destruct (String.eqb k k'); [reflexivity|exact IH].
Qed.

Lemma assoc_skip_artifacts (tn : string) :
  String.eqb tn "artifacts" = false ->
  assoc tn (s1 ++ ("artifacts", t) :: s2) = assoc tn (s1 ++ s2).
Proof.
  intros H. rewrite !assoc_app. simpl. by rewrite H.
Qed.

Lemma mem_skip_artifacts (tn : string) :
  String.eqb tn "artifacts" = false ->
  mem tn (table_names (s1 ++ ("artifacts", t) :: s2)) = mem tn (table_names (s1 ++ s2)).
Proof.
  intros H. unfold table_names, mem.
  rewrite !map_app, !existsb_app. simpl. by rewrite H.
Qed.

Lemma filter_skip_artifacts (P : string -> bool) :
  P "artifacts" = false ->
  filter P (table_names (s1 ++ ("artifacts", t) :: s2)) = filter P (table_names (s1 ++ s2)).
Proof.
  intros H. unfold table_names.
  rewrite !map_app, !filter_app. simpl. rewrite filter_cons_False; [reflexivity|].
  rewrite H. tauto.
Qed.

Lemma select_from_skip_artifacts {A : Type} (tn : string) (q : table -> result A) :
  String.eqb tn "artifacts" = false ->
  select_from (s1 ++ ("artifacts", t) :: s2) tn q = select_from (s1 ++ s2) tn q.
Proof. intros H. unfold select_from. by rewrite assoc_skip_artifacts. Qed.

Lemma tables_to_union_skip_artifacts :
  tables_to_union (table_names (s1 ++ ("artifacts", t) :: s2)) = tables_to_union (table_names (s1 ++ s2)).
Proof. by apply filter_skip_artifacts. Qed.

Lemma flags_skip_artifacts :
  flag_amo (table_names (s1 ++ ("artifacts", t) :: s2)) = flag_amo (table_names (s1 ++ s2)) /\
  flag_isotopes (table_names (s1 ++ ("artifacts", t) :: s2)) = flag_isotopes (table_names (s1 ++ s2)) /\
  has_groupings (table_names (s1 ++ ("artifacts", t) :: s2)) = has_groupings (table_names (s1 ++ s2)) /\
  flag_mf (table_names (s1 ++ ("artifacts", t) :: s2)) = flag_mf (table_names (s1 ++ s2)) /\
  cpd_tables (table_names (s1 ++ ("artifacts", t) :: s2)) = cpd_tables (table_names (s1 ++ s2)).
Proof.
  unfold flag_amo, flag_isotopes, has_groupings, flag_mf, cpd_tables, tables_amo.
  rewrite tables_to_union_skip_artifacts.
  rewrite !(mem_skip_artifacts "isotopes"), !(mem_skip_artifacts "groups"),
    !(mem_skip_artifacts "molecular_formulae") by reflexivity.
  rewrite (filter_skip_artifacts (contains "compound")) by reflexivity.
  repeat split.
  f_equal. f_equal. apply filter_ext_elem. intros tl Hin.
  apply mem_skip_artifacts.
  repeat (apply elem_of_cons in Hin as [->|Hin]; [reflexivity|]).
  by apply elem_of_nil in Hin.
Qed.

End Artifacts.

Lemma rmap_ext_elem {A B : Type} (f g : A -> result B) (l : list A) :
  (forall x, x ∈ l -> f x = g x) -> rmap f l = rmap g l.
Proof.
  induction l as [|x l IH]; intros H; [reflexivity|]. simpl.
  rewrite (H x) by apply list_elem_of_here.
  rewrite IH; [reflexivity|]. intros y Hy. apply H. by apply list_elem_of_further.
Qed.

Lemma sub_queries_skip_artifacts (s1 s2 : store) (t : table) :
  sub_queries (s1 ++ ("artifacts", t) :: s2) = sub_queries (s1 ++ s2).
Proof.
  unfold sub_queries, tables_amo. cbn [flat_map].
  rewrite !(mem_skip_artifacts s1 s2 t) by reflexivity.
  rewrite !(select_from_skip_artifacts s1 s2 t) by reflexivity.
  reflexivity.
Qed.

(** C10. Whether a table [artifacts] is present, and whatever rows it
    holds, the tables unioned for the sub-groups, their edges, the
    (peak, label, charge, oligomer) rows of the peak-relationship view,
    the isotope partner view and the check before the final statement
    are the same as without it. *)
Theorem artifacts_table_never_contributes (s1 s2 : store) (t : table) :
  tables_to_union (table_names (s1 ++ ("artifacts", t) :: s2))
  = tables_to_union (table_names (s1 ++ s2)) /\
  group_edges (s1 ++ ("artifacts", t) :: s2) = group_edges (s1 ++ s2) /\
  query_amo (s1 ++ ("artifacts", t) :: s2) = query_amo (s1 ++ s2) /\
  query_isotopes (s1 ++ ("artifacts", t) :: s2) = query_isotopes (s1 ++ s2) /\
  summary_check (s1 ++ ("artifacts", t) :: s2) = summary_check (s1 ++ s2).
Proof.
  destruct (flags_skip_artifacts s1 s2 t) as (Hamo & Hiso & Hgrp & Hmf & Hcpd).
  pose proof (tables_to_union_skip_artifacts s1 s2 t) as Hunion.
  pose proof (sub_queries_skip_artifacts s1 s2 t) as Hsub.
  repeat split.
  - exact Hunion.
  - unfold group_edges. rewrite Hgrp, Hunion.
    destruct (has_groupings (table_names (s1 ++ s2))); [|reflexivity].
    f_equal. apply rmap_ext_elem. intros tn Hin.
    apply select_from_skip_artifacts.
    unfold tables_to_union in Hin. apply list_elem_of_filter in Hin as [Hm _].
    apply Is_true_true, mem_spec in Hm.
    repeat (apply elem_of_cons in Hm as [->|Hm]; [reflexivity|]).
    by apply elem_of_nil in Hm.
  - unfold query_amo. by rewrite Hsub.
  - unfold query_isotopes. rewrite Hiso.
    destruct (flag_isotopes (table_names (s1 ++ s2))); [|reflexivity].
    by apply select_from_skip_artifacts.
  - unfold summary_check, create_peak_labels, mf_cpc_columns, flag_cpd.
    by rewrite Hamo, Hiso, Hgrp, Hmf, Hcpd, Hsub.
Qed.

Example artifacts_table_never_contributes_example :
  query_amo [("adduct_pairs",
              TAdductPairs [mk_adduct_pairs_row "p1" "p2" "[M+H]+" "[M+Na]+" 0]);
             ("artifacts", TArtifacts [artifact_row_example])]
  = Ok [("p1", "[M+H]+", 1%Z, 1%Q); ("p2", "[M+Na]+", 1%Z, 1%Q)].
Proof. reflexivity. Qed.

(** * Further properties *)

(** ** Lists of results *)

Lemma rmap_all_ok {A B : Type} (f : A -> result B) (l : list A) :
  (forall x, x ∈ l -> exists y, f x = Ok y) <-> exists l', rmap f l = Ok l'.
Proof.
  induction l as [|x t IH]; simpl.
  - split; [eauto|]. intros _ x H. by apply elem_of_nil in H.
  - split.
    + intros H. destruct (H x (list_elem_of_here _ _)) as [y ->]. simpl.
      destruct (proj1 IH) as [ys ->]; [|simpl; eauto].
      intros z Hz. apply H. by apply list_elem_of_further.
    + intros [l' H] z Hz.
      destruct (f x) as [y|e] eqn:Ex; simpl in H; [|discriminate].
      destruct (rmap f t) as [ys|e] eqn:Et; simpl in H; [|discriminate].
      apply elem_of_cons in Hz as [->|Hz]; [eauto|].
      apply (proj2 IH); eauto.
Qed.

Lemma rmap_ok_elem {A B : Type} (f : A -> result B) (l : list A) (l' : list B) (y : B) :
  rmap f l = Ok l' -> y ∈ l' -> exists x, x ∈ l /\ f x = Ok y.
Proof.
  revert l'. induction l as [|x t IH]; simpl; intros l'.
  - intros [= <-] H. by apply elem_of_nil in H.
  - destruct (f x) as [z|e] eqn:Ex; simpl; [|discriminate].
    destruct (rmap f t) as [zs|e]; simpl; [|discriminate].
    intros [= <-] H. apply elem_of_cons in H as [->|H].
    + exists x. split; [apply list_elem_of_here|exact Ex].
    + destruct (IH zs eq_refl H) as (x' & Hx' & Hf). exists x'.
      split; [by apply list_elem_of_further|exact Hf].
Qed.

Lemma prep_lib_list_pairs (l : list iso_entry) (lib_pairs : list lib_pair) (lp : lib_pair) :
  _prep_lib (LibList l) = Ok lib_pairs -> lp ∈ lib_pairs ->
  exists e d, lp = PairDiff e /\ e ∈ l /\ iso_mass_difference e = Some d.
Proof.
  destruct l as [|e0 t]; [discriminate|]. cbn [_prep_lib].
  destruct (iso_mass_difference e0); [|discriminate].
  destruct (rmap diff_key (e0 :: t)) as [ds|ex] eqn:E; [|discriminate].
  intros H Hlp.
  assert (lib_pairs = map PairDiff
            (sorted_reverse (fun d => default 0%Q (iso_mass_difference d)) (e0 :: t)))
    as -> by (by injection H).
  apply list_elem_of_fmap in Hlp as (e & -> & He).
  rewrite sorted_reverse_perm in He.
  destruct (proj2 (rmap_all_ok diff_key (e0 :: t)) (ex_intro _ ds E) e He) as [d Hd].
  exists e, d. split; [reflexivity|]. split; [exact He|].
  unfold diff_key in Hd. destruct (iso_mass_difference e); [by inversion Hd|discriminate].
Qed.

Lemma prep_lib_pairs_wellformed (lib : library) (lib_pairs : list lib_pair) (lp : lib_pair) :
  _prep_lib lib = Ok lib_pairs -> lp ∈ lib_pairs ->
  match lp with
  | PairDiff e => exists d, iso_mass_difference e = Some d
  | PairMC _ _ => True
  end.
Proof.
  destruct lib as [items|l|]; [| |discriminate].
  - cbn [_prep_lib].
    destruct (rmap make_pair (combinations2 items)) as [built|e] eqn:E; [|discriminate].
    intros H Hlp.
    assert (lib_pairs = sorted_reverse pair_key built) as -> by (by injection H).
    rewrite sorted_reverse_perm in Hlp.
    destruct (rmap_ok_elem _ _ _ _ E Hlp) as ([[la va] [lb vb]] & _ & Hmk).
    destruct va, vb; simpl in Hmk; try discriminate; by injection Hmk as <-.
  - intros H Hlp. destruct (prep_lib_list_pairs _ _ _ H Hlp) as (e & d & -> & _ & Hd). eauto.
Qed.

(** ** The pairwise matchers *)

Lemma gfor_no_items {X A : Type} (l : list X) (f : X -> gen A) :
  (forall x, x ∈ l -> (f x).1 = []) -> (gfor l f).1 = [].
Proof.
  induction l as [|x t IH]; intros H; [reflexivity|]. simpl.
  pose proof (H x (list_elem_of_here _ _)) as Hx.
  destruct (f x) as [lx [e|]]; simpl in *; [exact Hx|].
  rewrite Hx, IH; [reflexivity|]. intros y Hy. apply H. by apply list_elem_of_further.
Qed.

Lemma gapp_finished {A : Type} (g1 g2 : gen A) :
  (gapp g1 g2).2 = None ->
  g1.2 = None /\ g2.2 = None /\ (gapp g1 g2).1 = g1.1 ++ g2.1.
Proof. destruct g1 as [l1 [e|]]; simpl; [discriminate|done]. Qed.

Lemma gfor_finished {X A : Type} (l : list X) (f : X -> gen A) (x : X) (a : A) :
  (gfor l f).2 = None -> x ∈ l ->
  (f x).2 = None /\ (a ∈ (f x).1 -> a ∈ (gfor l f).1).
Proof.
  induction l as [|y t IH]; intros Hfin Hx; [by apply elem_of_nil in Hx|].
  simpl in Hfin. apply gapp_finished in Hfin as (H1 & H2 & Hl).
  simpl. rewrite Hl. apply elem_of_cons in Hx as [->|Hx].
  - split; [exact H1|]. intros Ha. apply elem_of_app. by left.
  - destruct (IH H2 Hx) as [Hf Hin]. split; [exact Hf|].
    intros Ha. apply elem_of_app. right. by apply Hin.
Qed.

Lemma elem_of_drop_lookup {A : Type} (l : list A) (i : nat) (y : A) :
  y ∈ drop (S i) l <-> exists j, (i < j)%nat /\ l !! j = Some y.
Proof.
  rewrite list_elem_of_lookup. split.
  - intros [k Hk]. rewrite lookup_drop in Hk. exists (S i + k)%nat. split; [lia|exact Hk].
  - intros (j & Hij & Hj). exists (j - S i)%nat. rewrite lookup_drop.
    replace (S i + (j - S i))%nat with j by lia. exact Hj.
Qed.

Lemma try_pair_elem (id_x id_y : string) (mz_x mz_y ppm : Q) (lp : lib_pair)
  (a : assignment) :
  a ∈ (try_pair id_x id_y mz_x mz_y ppm lp).1 ->
  _check_tolerance mz_x mz_y lp ppm = Ok 1%Z /\
  exists pe, pair_ppm_error mz_x mz_y lp = Ok pe /\
    a = mk_assignment id_x id_y (pair_labels lp).1 (pair_labels lp).2
          (pair_charges lp).1 (pair_charges lp).2 (py_round2 pe).
Proof.
  unfold try_pair.
  destruct (_check_tolerance mz_x mz_y lp ppm) as [ct|e]; [|intros H; by apply elem_of_nil in H].
  destruct (ct =? 1)%Z eqn:E; [|intros H; by apply elem_of_nil in H].
  apply Z.eqb_eq in E as ->.
  destruct (pair_ppm_error mz_x mz_y lp) as [pe|e]; simpl.
  - intros H. apply list_elem_of_singleton in H as ->. eauto.
  - intros H. by apply elem_of_nil in H.
Qed.


Lemma try_pair_total (id_x id_y : string) (mz_x mz_y ppm : Q) (lp : lib_pair) :
  match lp with
  | PairDiff e => exists d, iso_mass_difference e = Some d
  | PairMC _ _ => True
  end ->
  ~ (ppm_denominator mz_y lp == 0)%Q ->
  (try_pair id_x id_y mz_x mz_y ppm lp).2 = None.
Proof.
  intros Hwf Hnz. unfold try_pair.
  assert (exists ct, _check_tolerance mz_x mz_y lp ppm = Ok ct) as [ct ->].
  { unfold _check_tolerance, shifted_windows.
    destruct (calculate_mz_tolerance mz_x ppm) as [a1 a2].
    destruct (calculate_mz_tolerance mz_y ppm) as [b1 b2].
    destruct lp as [a b|e]; cbn.
    - destruct (_ && _); eauto.
    - destruct Hwf as [d ->]. cbn. destruct (_ && _); eauto. }
  destruct (ct =? 1)%Z; [|reflexivity].
  assert (exists pe, pair_ppm_error mz_x mz_y lp = Ok pe) as [pe ->]; [|reflexivity].
  unfold pair_ppm_error, ppm_error_checked. destruct lp as [a b|e]; simpl in Hnz.
  - destruct (Qeq_bool _ 0) eqn:E; [|eauto].
    exfalso. apply Qeq_bool_iff in E. by apply Hnz.
  - destruct Hwf as [d Hd]. rewrite Hd in *. simpl in Hnz.
    destruct (Qeq_bool _ 0) eqn:E; [|eauto].
    exfalso. apply Qeq_bool_iff in E. by apply Hnz.
Qed.

Lemma pairs_from_peaklist_finished (peaklist : dataframe) (ppm : Q)
  (lib_pairs : list lib_pair) (a : assignment) :
  (_annotate_pairs_from_peaklist peaklist ppm lib_pairs).2 = None ->
  (a ∈ (_annotate_pairs_from_peaklist peaklist ppm lib_pairs).1 <->
   exists i j pi pj lp pe,
     (i < j)%nat /\ peaklist !! i = Some pi /\ peaklist !! j = Some pj /\
     lp ∈ lib_pairs /\
     _check_tolerance (mz pi) (mz pj) lp ppm = Ok 1%Z /\
     pair_ppm_error (mz pi) (mz pj) lp = Ok pe /\
     a = mk_assignment (name pi) (name pj) (pair_labels lp).1 (pair_labels lp).2
           (pair_charges lp).1 (pair_charges lp).2 (py_round2 pe)).
Proof.
  intros Hfin. unfold _annotate_pairs_from_peaklist in *. split.
  - intros H.
    apply gfor_elem in H as ([pi rest] & Hpair & H).
    apply gfor_elem in H as (pj & Hpj & H).
    apply gfor_elem in H as (lp & Hlp & H).
    apply try_pair_elem in H as (Hct & pe & Hpe & ->).
    apply later_pairs_lookup in Hpair as (i & Hi & ->).
    apply elem_of_drop_lookup in Hpj as (j & Hij & Hj).
    exists i, j, pi, pj, lp, pe. done.
  - intros (i & j & pi & pj & lp & pe & Hij & Hi & Hj & Hlp & Hct & Hpe & ->).
    assert ((pi, drop (S i) peaklist) ∈ later_pairs peaklist) as Hpair.
    { apply later_pairs_lookup. by exists i. }
    assert (pj ∈ drop (S i) peaklist) as Hpj.
    { apply elem_of_drop_lookup. by exists j. }
    set (row := mk_assignment (name pi) (name pj) (pair_labels lp).1 (pair_labels lp).2
                  (pair_charges lp).1 (pair_charges lp).2 (py_round2 pe)).
    destruct (gfor_finished _ _ _ row Hfin Hpair) as [Hf1 Hin1]. apply Hin1.
    cbn beta iota in Hf1 |- *.
    destruct (gfor_finished _ _ _ row Hf1 Hpj) as [Hf2 Hin2]. apply Hin2.
    destruct (gfor_finished _ _ _ row Hf2 Hlp) as [Hf3 Hin3]. apply Hin3.
    unfold try_pair. rewrite Hct, Hpe. simpl. apply list_elem_of_here.
Qed.

(** X4. Flat-list mode reports exactly the matching pairs. With the
    pairs of a library the normalizer accepts, and no peak for which the
    denominator of a ppm error, [theo_mass * 0.000001], is zero, the
    generator over a peak table raises nothing, and the assignments it
    yields are those of a library pair and two peaks, the first earlier
    in the table than the second, for which the tolerance predicate
    answers 1; they carry the names of the two peaks and the labels and
    charges of the pair. *)
Theorem pairs_from_peaklist_exact (peaklist : dataframe) (ppm : Q) (lib : library)
  (lib_pairs : list lib_pair) :
  _prep_lib lib = Ok lib_pairs ->
  (forall pj lp, pj ∈ peaklist -> lp ∈ lib_pairs ->
     ~ (ppm_denominator (mz pj) lp == 0)%Q) ->
  (_annotate_pairs_from_peaklist peaklist ppm lib_pairs).2 = None /\
  forall a,
    a ∈ (_annotate_pairs_from_peaklist peaklist ppm lib_pairs).1 <->
    exists i j pi pj lp pe,
      (i < j)%nat /\ peaklist !! i = Some pi /\ peaklist !! j = Some pj /\
      lp ∈ lib_pairs /\
      _check_tolerance (mz pi) (mz pj) lp ppm = Ok 1%Z /\
      pair_ppm_error (mz pi) (mz pj) lp = Ok pe /\
      a = mk_assignment (name pi) (name pj) (pair_labels lp).1 (pair_labels lp).2
            (pair_charges lp).1 (pair_charges lp).2 (py_round2 pe).
Proof.
  intros Hprep Hnz.
  assert ((_annotate_pairs_from_peaklist peaklist ppm lib_pairs).2 = None) as Hfin.
  { unfold _annotate_pairs_from_peaklist.
    apply gfor_total. intros [pi rest] Hpair.
    apply later_pairs_elem in Hpair as [_ Hrest].
    apply gfor_total. intros pj Hpj.
    apply gfor_total. intros lp Hlp.
    apply try_pair_total.
    - exact (prep_lib_pairs_wellformed lib lib_pairs lp Hprep Hlp).
    - apply Hnz; [by apply Hrest|exact Hlp]. }
  split; [exact Hfin|]. intros a. by apply pairs_from_peaklist_finished.
Qed.

Lemma pairs_from_peaklist_exact_witness :
  (_annotate_pairs_from_peaklist zero_intensity_peaks 5 [c13_pair]).2 = None /\
  mk_assignment "p1" "p2" "C12" "C13" 1 1 (py_round2 0)
  ∈ (_annotate_pairs_from_peaklist zero_intensity_peaks 5 [c13_pair]).1.
Proof.
  assert (forall pj lp, pj ∈ zero_intensity_peaks -> lp ∈ [c13_pair] ->
            ~ (ppm_denominator (mz pj) lp == 0)%Q) as Hnz.
  { intros pj lp Hpj Hlp. apply list_elem_of_singleton in Hlp as ->.
    unfold zero_intensity_peaks in Hpj.
    repeat (apply elem_of_cons in Hpj as [->|Hpj]); [| |by apply elem_of_nil in Hpj];
      intros H; vm_compute in H; discriminate. }
  destruct (pairs_from_peaklist_exact zero_intensity_peaks 5 carbon_isotopes [c13_pair]
              eq_refl Hnz) as [Hfin Hiff].
  split; [exact Hfin|]. apply Hiff.
  exists 0%nat, 1%nat, (mk_peak "p1" 10 0 1000), (mk_peak "p2" 11 0 0), c13_pair,
    (calculate_ppm_error 10 (11 - 1)).
  repeat split; try reflexivity; [lia|apply list_elem_of_here].
Defined.

(** X5. Graph mode reports exactly the matching edges. When the
    generator over a graph ends without an exception, the assignments it
    yields are those of an edge and a library pair for which the
    tolerance predicate answers 1 on the m/z of the two end nodes, in
    the direction of the edge. *)
Theorem pairs_from_graph_exact (G : digraph) (ppm : Q) (lib_pairs : list lib_pair)
  (a : assignment) :
  (_annotate_pairs_from_graph G ppm lib_pairs).2 = None ->
  (a ∈ (_annotate_pairs_from_graph G ppm lib_pairs).1 <->
   exists e dx dy lp pe,
     e ∈ edges G /\ node G e.1 = Ok dx /\ node G e.2 = Ok dy /\ lp ∈ lib_pairs /\
     _check_tolerance (node_mz dx) (node_mz dy) lp ppm = Ok 1%Z /\
     pair_ppm_error (node_mz dx) (node_mz dy) lp = Ok pe /\
     a = mk_assignment e.1 e.2 (pair_labels lp).1 (pair_labels lp).2
           (pair_charges lp).1 (pair_charges lp).2 (py_round2 pe)).
Proof.
  intros Hfin. unfold _annotate_pairs_from_graph in *. split.
  - intros H.
    apply gfor_elem in H as (e & He & H).
    destruct (node G e.1) as [dx|] eqn:Hx; [|destruct (node G e.2); by apply elem_of_nil in H].
    destruct (node G e.2) as [dy|] eqn:Hy; [|by apply elem_of_nil in H].
    apply gfor_elem in H as (lp & Hlp & H).
    apply try_pair_elem in H as (Hct & pe & Hpe & ->).
    exists e, dx, dy, lp, pe. done.
  - intros (e & dx & dy & lp & pe & He & Hx & Hy & Hlp & Hct & Hpe & ->).
    set (row := mk_assignment e.1 e.2 (pair_labels lp).1 (pair_labels lp).2
                  (pair_charges lp).1 (pair_charges lp).2 (py_round2 pe)).
    destruct (gfor_finished _ _ _ row Hfin He) as [Hf1 Hin1]. apply Hin1.
    cbn beta in Hf1 |- *. rewrite Hx, Hy in Hf1 |- *.
    destruct (gfor_finished _ _ _ row Hf1 Hlp) as [Hf2 Hin2]. apply Hin2.
    unfold try_pair. rewrite Hct, Hpe. simpl. apply list_elem_of_here.
Qed.

Lemma pairs_from_graph_exact_witness :
  mk_assignment "p1" "p2" "C12" "C13" 1 1 (py_round2 0)
  ∈ (_annotate_pairs_from_graph zero_intensity_graph 5 [c13_pair]).1.
Proof.
  apply (proj2 (pairs_from_graph_exact zero_intensity_graph 5 [c13_pair] _ eq_refl)).
  exists ("p1", "p2"), (mk_node 10 1000), (mk_node 11 0), c13_pair,
    (calculate_ppm_error 10 (11 - 1)).
  repeat split; try reflexivity; apply list_elem_of_here.
Defined.

(** X6. With a tolerance of 0 ppm nothing matches, not even exact
    masses: the windows shrink to points and the overlap test is strict.
    Neither generator yields an assignment. *)
Theorem zero_tolerance_matches_nothing (lib_pairs : list lib_pair) :
  (forall mz_x mz_y lp, _check_tolerance mz_x mz_y lp 0 <> Ok 1%Z) /\
  (forall peaklist : dataframe, (_annotate_pairs_from_peaklist peaklist 0 lib_pairs).1 = []) /\
  (forall G : digraph, (_annotate_pairs_from_graph G 0 lib_pairs).1 = []).
Proof.
  assert (forall mz_x mz_y lp, _check_tolerance mz_x mz_y lp 0 <> Ok 1%Z) as Hnever.
  { intros mz_x mz_y lp. unfold _check_tolerance, shifted_windows. simpl.
    destruct lp as [sa sb|e]; simpl.
    - destruct (_ && _) eqn:E; [|discriminate].
      apply andb_true_iff in E as [E1 E2].
      apply Qlt_bool_iff in E1, E2. exfalso. lra.
    - destruct (iso_mass_difference e) as [d|]; simpl; [|discriminate].
      destruct (_ && _) eqn:E; [|discriminate].
      apply andb_true_iff in E as [E1 E2].
      apply Qlt_bool_iff in E1, E2. exfalso. lra. }
  assert (forall id_x id_y mz_x mz_y lp, (try_pair id_x id_y mz_x mz_y 0 lp).1 = []) as Htry.
  { intros id_x id_y mz_x mz_y lp. unfold try_pair.
    pose proof (Hnever mz_x mz_y lp) as Hn.
    destruct (_check_tolerance mz_x mz_y lp 0) as [ct|e]; [|reflexivity].
    destruct (ct =? 1)%Z eqn:E; [|reflexivity].
    apply Z.eqb_eq in E as ->. by destruct Hn. }
  split; [exact Hnever|]. split.
  - intros peaklist. unfold _annotate_pairs_from_peaklist.
    apply gfor_no_items. intros [pi rest] _.
    apply gfor_no_items. intros pj _.
    apply gfor_no_items. intros lp _. apply Htry.
  - intros G. unfold _annotate_pairs_from_graph.
    apply gfor_no_items. intros e _.
    destruct (node G e.1); [|by destruct (node G e.2)].
    destruct (node G e.2); [|reflexivity].
    apply gfor_no_items. intros lp _. apply Htry.
Qed.

(** X7. Matching an adduct pair does not depend on the orientation: the
    predicate gives the same answer when the two peaks and the two sides
    of the pair are swapped together. *)
Theorem check_tolerance_swap (mz_x mz_y ppm : Q) (a b : side) :
  _check_tolerance mz_x mz_y (PairMC a b) ppm = _check_tolerance mz_y mz_x (PairMC b a) ppm.
Proof.
  unfold _check_tolerance, shifted_windows. simpl.
  destruct (Qlt_bool _ _), (Qlt_bool _ _); reflexivity.
Qed.

(** ** Library Normalizer: errors, size and ties *)

Lemma rmap_ok_length {A B : Type} (f : A -> result B) (l : list A) (l' : list B) :
  rmap f l = Ok l' -> length l' = length l.
Proof.
  revert l'. induction l as [|x t IH]; simpl; intros l'.
  - by intros [= <-].
  - destruct (f x) as [y|e]; simpl; [|discriminate].
    destruct (rmap f t) as [ys|e]; simpl; [|discriminate].
    intros [= <-]. simpl. f_equal. by apply IH.
Qed.

Lemma combinations2_length {A : Type} (l : list A) :
  (2 * length (combinations2 l) = length l * (length l - 1))%nat.
Proof.
  induction l as [|x t IH]; simpl; [reflexivity|].
  rewrite length_app, length_map. nia.
Qed.

Lemma make_pair_ok (x y : string * lib_value) :
  (exists p, make_pair (x, y) = Ok p) <-> is_float x.2 = is_float y.2.
Proof.
  destruct x as [la [ma|ma ca]], y as [lb [mb|mb cb]]; simpl;
    split; try done; try (intros [p H]; discriminate); eauto.
Qed.

(** X9. On a labelled library the normalizer raises no exception exactly
    when all its values are of one kind (all bare masses, or all
    mass/charge entries); it then returns n(n-1)/2 pairs for n labels. A
    library that mixes the two kinds makes it raise. *)
Theorem prep_lib_dict_total_iff_homogeneous (items : list (string * lib_value)) :
  ((exists pairs, _prep_lib (LibDict items) = Ok pairs) <->
   (forall x y, x ∈ items -> y ∈ items -> is_float x.2 = is_float y.2)) /\
  (forall pairs, _prep_lib (LibDict items) = Ok pairs ->
     (2 * length pairs = length items * (length items - 1))%nat).
Proof.
  split.
  - split.
    + intros [pairs H]. simpl in H.
      destruct (rmap make_pair (combinations2 items)) as [built|e] eqn:E; [|discriminate].
      assert (forall c, c ∈ combinations2 items -> exists p, make_pair c = Ok p) as Hall.
      { apply rmap_all_ok. eauto. }
      intros x y Hx Hy.
      apply list_elem_of_lookup in Hx as [i Hi]. apply list_elem_of_lookup in Hy as [j Hj].
      destruct (Nat.lt_trichotomy i j) as [Hlt|[->|Hgt]].
      * apply make_pair_ok, Hall, combinations2_elem. eauto.
      * congruence.
      * symmetry. apply make_pair_ok, Hall, combinations2_elem. eauto.
    + intros Hhom. simpl.
      destruct (proj1 (rmap_all_ok make_pair (combinations2 items))) as [built ->];
        [|simpl; eauto].
      intros [x y] Hc. apply combinations2_elem in Hc as (i & j & _ & Hi & Hj).
      apply make_pair_ok, Hhom; apply list_elem_of_lookup; eauto.
  - intros pairs H. simpl in H.
    destruct (rmap make_pair (combinations2 items)) as [built|e] eqn:E; [|discriminate].
    injection H as <-.
    rewrite (Permutation_length (sorted_reverse_perm pair_key built)).
    rewrite (rmap_ok_length _ _ _ E). apply combinations2_length.
Qed.

Lemma prep_lib_dict_total_iff_homogeneous_witness :
  exists pairs, _prep_lib adducts_unsorted_example = Ok pairs.
Proof.
  apply (proj2 (proj1 (prep_lib_dict_total_iff_homogeneous
                         [("A", LFloat 1); ("B", LFloat 2); ("C", LFloat 4)]))).
  intros x y Hx Hy.
  repeat (apply elem_of_cons in Hx as [->|Hx]);
    repeat (apply elem_of_cons in Hy as [->|Hy]);
    try reflexivity; try (by apply elem_of_nil in Hx); by apply elem_of_nil in Hy.
Defined.

(** X10. On a pre-paired library the normalizer tells its failures
    apart: an empty list raises IndexError, a first entry without
    [mass_difference] raises ValueError, a later entry without it raises
    KeyError, and otherwise as many entries come back as went in. *)
Theorem prep_lib_list_errors (l : list iso_entry) :
  match l with
  | [] => _prep_lib (LibList l) = Raise IndexError
  | e0 :: _ =>
      match iso_mass_difference e0 with
      | None => _prep_lib (LibList l) = Raise ValueError
      | Some _ =>
          if forallb has_difference l
          then exists pairs, _prep_lib (LibList l) = Ok pairs /\ length pairs = length l
          else _prep_lib (LibList l) = Raise KeyError
      end
  end.
Proof.
  destruct l as [|e0 t]; [reflexivity|]. cbn [_prep_lib].
  destruct (iso_mass_difference e0) as [d0|] eqn:E0; [|reflexivity].
  generalize (e0 :: t) as l. clear. intros l.
  assert (forall l',
    if forallb has_difference l'
    then exists ks, rmap diff_key l' = Ok ks
    else rmap diff_key l' = Raise KeyError) as Hkeys.
  { induction l' as [|e t IH]; simpl; [eauto|].
    assert (diff_key e = match iso_mass_difference e with
                         | Some d => Ok d
                         | None => Raise KeyError
                         end) as Hd by reflexivity.
    rewrite !Hd. unfold has_difference at 1.
    destruct (iso_mass_difference e) as [d|]; simpl; [|reflexivity].
    destruct (forallb _ t).
    - destruct IH as [ks ->]. simpl. eauto.
    - by rewrite IH. }
  specialize (Hkeys l). destruct (forallb _ l).
  - destruct Hkeys as [ks ->]. simpl. eexists. split; [reflexivity|].
    rewrite length_map. apply Permutation_length, sorted_reverse_perm.
  - by rewrite Hkeys.
Qed.

Lemma insert_desc_keeps_ties {A : Type} (key : A -> Q) (k : Q) (x : A) (l : list A) :
  filter (fun y => Qeq_bool (key y) k) (insert_desc key x l)
  = filter (fun y => Qeq_bool (key y) k) (x :: l).
Proof.
  induction l as [|y t IH]; [reflexivity|]. cbn [insert_desc].
  destruct (Qlt_bool (key x) (key y)) eqn:E; [|reflexivity].
  apply Qlt_bool_iff in E.
  rewrite (filter_cons _ y), IH, !filter_cons.
  destruct (decide (Qeq_bool (key y) k)) as [Hy|Hy];
    destruct (decide (Qeq_bool (key x) k)) as [Hx|Hx]; try reflexivity.
  apply Is_true_true, Qeq_bool_iff in Hx, Hy. lra.
Qed.

Lemma sorted_reverse_keeps_ties {A : Type} (key : A -> Q) (k : Q) (l : list A) :
  filter (fun y => Qeq_bool (key y) k) (sorted_reverse key l)
  = filter (fun y => Qeq_bool (key y) k) l.
Proof.
  induction l as [|x t IH]; [reflexivity|]. cbn [sorted_reverse foldr].
  change (foldr (insert_desc key) [] t) with (sorted_reverse key t).
  rewrite insert_desc_keeps_ties, !filter_cons, IH. reflexivity.
Qed.

Lemma filter_map_bool {A B : Type} (f : A -> B) (P : B -> bool) (l : list A) :
  filter P (map f l) = map f (filter (fun x => P (f x)) l).
Proof.
  induction l as [|x t IH]; [reflexivity|]. simpl.
  rewrite !filter_cons, IH. by destruct (decide (P (f x))).
Qed.

(** X11. Ties are broken by the order of the library: among the pairs
    that share one sort key, the normalizer keeps the order in which
    [itertools.combinations] (or the pre-paired list) had them. *)
Theorem prep_lib_ties_keep_library_order (lib : library) (pairs : list lib_pair) (k : Q) :
  _prep_lib lib = Ok pairs ->
  match lib with
  | LibDict items =>
      exists built, rmap make_pair (combinations2 items) = Ok built /\
        filter (has_key k) pairs = filter (has_key k) built
  | LibList l => filter (has_key k) pairs = filter (has_key k) (map PairDiff l)
  | LibOther => False
  end.
Proof.
  destruct lib as [items|l|]; simpl; [| |discriminate].
  - destruct (rmap make_pair (combinations2 items)) as [built|e]; simpl; [|discriminate].
    intros [= <-]. exists built. split; [reflexivity|].
    apply sorted_reverse_keeps_ties.
  - destruct l as [|e0 t]; [discriminate|].
    destruct (iso_mass_difference e0); [|discriminate].
    destruct (rmap diff_key (e0 :: t)); simpl; [|discriminate].
    intros [= <-].
    change (PairDiff e0 :: map PairDiff t) with (map PairDiff (e0 :: t)).
    unfold has_key. rewrite !filter_map_bool. f_equal.
    exact (sorted_reverse_keeps_ties
             (fun d => default 0%Q (iso_mass_difference d)) k (e0 :: t)).
Qed.

Lemma prep_lib_ties_keep_library_order_witness :
  exists pairs, _prep_lib tied_isotopes = Ok pairs /\
    filter (has_key 1) pairs
    = [PairDiff (mk_iso "A" 100 "B" 1 (Some 1%Q)); PairDiff (mk_iso "C" 100 "D" 1 (Some 1%Q))].
Proof.
  eexists. split; [reflexivity|].
  exact (prep_lib_ties_keep_library_order tied_isotopes _ 1 eq_refl).
Defined.

(** ** Tables filled by plain inserts *)

Lemma keeps_transaction {S : Type} (P : S -> Prop) (c : cmd S) :
  keeps P c -> keeps P (transaction c).
Proof.
  intros H s Hs. specialize (H s Hs). unfold transaction.
  destruct (c s) as [s' [e|]]; simpl in *; [exact Hs|exact H].
Qed.

Lemma keeps_annotate_oligomers_cursor (src : source) (ppm : Q) (lib : list (string * Q))
  (maximum : Z) :
  keeps (distinct_keys oligomers_key) (annotate_oligomers_cursor src ppm lib maximum).
Proof.
  unfold annotate_oligomers_cursor. destruct src as [df|gs].
  - apply keeps_cfor_gen. intros r _. apply keeps_sql_insert.
  - apply keeps_cfor. intros g _.
    apply keeps_cfor_gen. intros r _. apply keeps_sql_insert.
Qed.

Lemma keeps_annotate_isotopes_cursor (src : source) (ppm : Q) (lib_pairs : list lib_pair)
  (abundances : gmap string Q) :
  keeps (distinct_keys isotopes_key) (annotate_isotopes_cursor src ppm lib_pairs abundances).
Proof.
  unfold annotate_isotopes_cursor. destruct src as [df|gs].
  - apply keeps_cfor_gen. intros asg _.
    unfold isotopes_from_peaklist.
    apply keeps_exec. intros s s' Hs.
    destruct (abundance abundances (label_a asg)); simpl; [|discriminate].
    destruct (intensity_of df (peak_id_b asg)); simpl; [|discriminate].
    destruct (abundance abundances (label_b asg)); simpl; [|discriminate].
    destruct (intensity_of df (peak_id_a asg)); simpl; [|discriminate].
    unfold sql_insert. destruct (existsb _ s) eqn:E; [discriminate|].
    intros [= <-]. by apply distinct_keys_snoc.
  - apply keeps_cfor. intros g _.
    apply keeps_cfor_gen. intros asg _. unfold isotopes_from_graph.
    apply keeps_exec. intros s s' Hs.
    destruct (abundance abundances (label_a asg)); simpl; [|discriminate].
    destruct (node g (peak_id_b asg)); simpl; [|discriminate].
    destruct (abundance abundances (label_b asg)); simpl; [|discriminate].
    destruct (node g (peak_id_a asg)); simpl; [|discriminate].
    destruct (py_float _); simpl; [|discriminate].
    unfold sql_insert. destruct (existsb _ s) eqn:E; [discriminate|].
    intros [= <-]. by apply distinct_keys_snoc.
Qed.

(** X12. A table filled by plain inserts never holds two rows with one
    primary key: whatever the input, and also when the run ends in an
    exception, no row the cursor of [annotate_compounds],
    [annotate_molecular_formulae], [annotate_oligomers] and
    [annotate_isotopes] has inserted has the key of a row before it, and
    the same holds of the table the run leaves in the file. *)
Theorem inserted_tables_have_distinct_keys :
  (forall sql_literal peaklist lib_adducts ppm store,
     distinct_keys compounds_key
       (annotate_compounds_cursor sql_literal peaklist lib_adducts ppm store []).1 /\
     distinct_keys compounds_key
       (annotate_compounds sql_literal peaklist lib_adducts ppm store).1) /\
  (forall composition_to_string sql_literal peaklist lib_adducts ppm MF rules,
     distinct_keys molecular_formulae_key
       (annotate_molecular_formulae_cursor composition_to_string sql_literal peaklist
          lib_adducts ppm MF rules []).1 /\
     distinct_keys molecular_formulae_key
       (annotate_molecular_formulae composition_to_string sql_literal peaklist
          lib_adducts ppm MF rules).1) /\
  (forall src ppm lib maximum,
     distinct_keys oligomers_key (annotate_oligomers_cursor src ppm lib maximum []).1 /\
     distinct_keys oligomers_key (annotate_oligomers src ppm lib maximum).1) /\
  (forall src ppm lib,
     (forall lib_pairs abundances,
        distinct_keys isotopes_key
          (annotate_isotopes_cursor src ppm lib_pairs abundances []).1) /\
     distinct_keys isotopes_key (annotate_isotopes src ppm lib).1).
Proof.
  split; [|split; [|split]].
  - intros sql_literal peaklist lib_adducts ppm store.
    assert (keeps (distinct_keys compounds_key)
              (annotate_compounds_cursor sql_literal peaklist lib_adducts ppm store)) as Hk.
    { apply keeps_annotate_compounds_cursor. intros. apply keeps_persist_compound. }
    split; [apply Hk, distinct_keys_nil|].
    unfold annotate_compounds. apply keeps_transaction; [exact Hk|apply distinct_keys_nil].
  - intros cts sql_literal peaklist lib_adducts ppm MF rules.
    assert (keeps (distinct_keys molecular_formulae_key)
              (annotate_molecular_formulae_cursor cts sql_literal peaklist lib_adducts ppm
                 MF rules)) as Hk.
    { apply keeps_annotate_molecular_formulae_cursor. intros. apply keeps_sql_insert. }
    split; [apply Hk, distinct_keys_nil|].
    unfold annotate_molecular_formulae.
    apply keeps_transaction; [exact Hk|apply distinct_keys_nil].
  - intros src ppm lib maximum.
    pose proof (keeps_annotate_oligomers_cursor src ppm lib maximum) as Hk.
    split; [apply Hk, distinct_keys_nil|].
    unfold annotate_oligomers. apply keeps_transaction; [exact Hk|apply distinct_keys_nil].
  - intros src ppm lib. split.
    + intros lib_pairs abundances.
      apply keeps_annotate_isotopes_cursor, distinct_keys_nil.
    + unfold annotate_isotopes.
      destruct (_prep_lib lib) as [lib_pairs|e]; [|apply distinct_keys_nil].
      destruct (abundances_of_lib lib) as [abundances|e]; [|apply distinct_keys_nil].
      pose proof (keeps_annotate_isotopes_cursor src ppm lib_pairs abundances) as Hk.
      destruct src as [df|gs].
      * apply Hk, distinct_keys_nil.
      * apply keeps_transaction; [exact Hk|apply distinct_keys_nil].
Qed.

(** ** Reference matches: what a row records *)

Lemma ppm_error_checked_ok (mass theo_mass pe : Q) :
  ppm_error_checked mass theo_mass = Ok pe -> pe = calculate_ppm_error mass theo_mass.
Proof.
  unfold ppm_error_checked. destruct (Qeq_bool _ _); [discriminate|]. by intros [= <-].
Qed.

(** X13. Every row the cursor of [annotate_compounds] inserts, and so
    every row of the table the run leaves, records a peak of the list,
    an adduct of the library with [mz - mass > 0.5] and a compound of
    the store whose mass lies between the bounds of the lookup: the row
    carries the name and m/z of the peak, the adduct label, the
    compound's mass shifted by the adduct mass, and the ppm error of the
    m/z against that shifted mass. *)
Theorem annotate_compounds_rows_sound (sql_literal : Q -> Q) (peaklist : dataframe)
  (lib_adducts : list (string * Q)) (ppm : Q) (store : list compound_record)
  (r : compounds_row) :
  r ∈ (annotate_compounds_cursor sql_literal peaklist lib_adducts ppm store []).1 \/
  r ∈ (annotate_compounds sql_literal peaklist lib_adducts ppm store).1 ->
  compound_match sql_literal peaklist lib_adducts ppm store r.
Proof.
  set (P := fun tbl : list compounds_row =>
              forall x, x ∈ tbl ->
                compound_match sql_literal peaklist lib_adducts ppm store x).
  assert (keeps P (annotate_compounds_cursor sql_literal peaklist lib_adducts ppm store))
    as Hk.
  { apply keeps_annotate_compounds_cursor. intros p adduct m record Hp Ha Efloor Hrec.
    apply Qlt_bool_iff in Efloor.
    apply select_compounds_iff in Hrec as (Hin & Hlo & Hhi).
    unfold persist_compound. apply keeps_exec. intros s s' Hs.
    destruct (ppm_error_checked _ _) as [pe|e] eqn:Epe; simpl; [|discriminate].
    unfold sql_insert. destruct (existsb _ s); [discriminate|]. intros [= <-].
    intros x Hx. apply elem_of_app in Hx as [Hx|Hx]; [by apply Hs|].
    apply list_elem_of_singleton in Hx as ->.
    apply ppm_error_checked_ok in Epe.
    exists p, adduct, m. simpl. repeat split; done. }
  assert (P []) as Hnil by (intros x Hx; by apply elem_of_nil in Hx).
  intros [H|H].
  - by apply (Hk [] Hnil).
  - unfold annotate_compounds in H. by apply (keeps_transaction P _ Hk [] Hnil).
Qed.

Lemma annotate_compounds_rows_sound_witness :
  exists r, compound_match literal_exact [mk_peak "p1" 181 0 1] proton_only 5 [glucose] r.
Proof.
  eexists.
  apply (annotate_compounds_rows_sound literal_exact [mk_peak "p1" 181 0 1] proton_only 5
           [glucose]).
  right. vm_compute. apply list_elem_of_here.
Defined.

Lemma mf_values_sound (composition_to_string : list (string * Z) -> string)
  (sql_literal : Q -> Q) (peaklist : dataframe) (lib_adducts : list (string * Q))
  (ppm : Q) (MF : list mf_record) (rules : bool) (p : peak) (sub : list (string * Q))
  (values : list molecular_formulae_row) (r : molecular_formulae_row) :
  p ∈ peaklist -> (forall a, a ∈ sub -> a ∈ lib_adducts) ->
  mf_values composition_to_string sql_literal MF rules p ppm sub = Ok values ->
  r ∈ values ->
  formula_match composition_to_string sql_literal peaklist lib_adducts ppm MF rules r.
Proof.
  intros Hp. revert values. induction sub as [|[adduct m] rest IH]; intros values Hsub.
  - simpl. intros [= <-] H. by apply elem_of_nil in H.
  - cbn [mf_values].
    destruct (calculate_mz_tolerance (mz p) ppm) as [min_tol max_tol] eqn:Et.
    destruct (Qlt_bool (5 # 10) (mz p - m)) eqn:Efloor.
    + destruct (rmap _ _) as [here|e] eqn:Ehere; simpl; [|discriminate].
      destruct (mf_values _ _ _ _ _ _ rest) as [more|e] eqn:Emore; simpl; [|discriminate].
      intros [= <-] Hr. apply elem_of_app in Hr as [Hr|Hr].
      * destruct (rmap_ok_elem _ _ _ _ Ehere Hr) as (record & Hrec & Hrow).
        apply select_mf_iff in Hrec as (Hin & [Hlo Hhi] & Hrules).
        apply Qlt_bool_iff in Efloor. unfold mf_row in Hrow.
        destruct (ppm_error_checked _ _) as [pe|e] eqn:Epe; simpl in Hrow; [|discriminate].
        injection Hrow as <-. apply ppm_error_checked_ok in Epe.
        exists p, adduct, m. rewrite Et. simpl.
        repeat split; try done; try (by apply Hrules).
        apply Hsub, list_elem_of_here.
      * apply (IH more); [|reflexivity|exact Hr].
        intros a Ha. apply Hsub. by apply list_elem_of_further.
    + simpl. destruct (mf_values _ _ _ _ _ _ rest) as [more|e] eqn:Emore; simpl; [|discriminate].
      intros [= <-] Hr. apply (IH more); [|reflexivity|exact Hr].
      intros a Ha. apply Hsub. by apply list_elem_of_further.
Qed.

(** X14. Every row the cursor of [annotate_molecular_formulae] inserts,
    and so every row of the table the run leaves, records a peak, an
    adduct with [mz - mass > 0.5] and a formula of the store whose mass
    lies between the bounds of the lookup; it carries that mass shifted
    by the adduct mass, its formula string is built from the six element
    counts of that record, and with the rule filter on the record passes
    all four rules. *)
Theorem annotate_molecular_formulae_rows_sound
  (composition_to_string : list (string * Z) -> string) (sql_literal : Q -> Q)
  (peaklist : dataframe) (lib_adducts : list (string * Q)) (ppm : Q)
  (MF : list mf_record) (rules : bool) (r : molecular_formulae_row) :
  r ∈ (annotate_molecular_formulae_cursor composition_to_string sql_literal peaklist
         lib_adducts ppm MF rules []).1 \/
  r ∈ (annotate_molecular_formulae composition_to_string sql_literal peaklist
         lib_adducts ppm MF rules).1 ->
  formula_match composition_to_string sql_literal peaklist lib_adducts ppm MF rules r.
Proof.
  set (P := fun tbl : list molecular_formulae_row =>
              forall x, x ∈ tbl ->
                formula_match composition_to_string sql_literal peaklist lib_adducts ppm
                  MF rules x).
  assert (keeps P (annotate_molecular_formulae_cursor composition_to_string sql_literal
                     peaklist lib_adducts ppm MF rules)) as Hk.
  { apply keeps_annotate_molecular_formulae_cursor. intros p values row Hp Ev Hrow.
    apply keeps_exec. intros s s' Hs.
    unfold sql_insert. destruct (existsb _ s); [discriminate|]. intros [= <-].
    intros x Hx. apply elem_of_app in Hx as [Hx|Hx]; [by apply Hs|].
    apply list_elem_of_singleton in Hx as ->.
    by eapply (mf_values_sound _ _ _ _ _ _ _ p lib_adducts values). }
  assert (P []) as Hnil by (intros x Hx; by apply elem_of_nil in Hx).
  intros [H|H].
  - by apply (Hk [] Hnil).
  - unfold annotate_molecular_formulae in H.
    by apply (keeps_transaction P _ Hk [] Hnil).
Qed.

Lemma annotate_molecular_formulae_rows_sound_witness :
  exists r, formula_match (fun _ => "C6H12O6") literal_exact [mk_peak "p1" 181 0 1]
              proton_only 5 [hexose] true r.
Proof.
  eexists.
  apply (annotate_molecular_formulae_rows_sound (fun _ => "C6H12O6") literal_exact
           [mk_peak "p1" 181 0 1] proton_only 5 [hexose] true).
  right. vm_compute. apply list_elem_of_here.
Defined.

(** ** Relationship tables: insert or replace *)

Lemma cfor_app {A S : Type} (l1 l2 : list A) (body : A -> cmd S) (s : S) :
  cfor (l1 ++ l2) body s = cseq (cfor l1 body) (cfor l2 body) s.
Proof.
  revert s. induction l1 as [|x t IH]; intros s; simpl; [reflexivity|].
  unfold cseq. destruct (body x s) as [s' [e|]]; [reflexivity|].
  rewrite IH. reflexivity.
Qed.

Lemma cfor_gen_gapp {A S : Type} (g1 g2 : gen A) (body : A -> cmd S) (s : S) :
  cfor_gen (gapp g1 g2) body s = cseq (cfor_gen g1 body) (cfor_gen g2 body) s.
Proof.
  destruct g1 as [l1 [e|]], g2 as [l2 e2]; unfold cfor_gen, cseq; simpl.
  - by destruct (cfor l1 body s) as [s' [e'|]].
  - rewrite cfor_app. unfold cseq.
    by destruct (cfor l1 body s) as [s' [e'|]].
Qed.

(** Persisting component after component is persisting the whole
    stream of assignments. *)
Lemma cfor_graphs_as_stream {X A S : Type} (gs : list X) (G : X -> gen A)
  (body : A -> cmd S) (s : S) :
  cfor gs (fun g => cfor_gen (G g) body) s = cfor_gen (gfor gs G) body s.
Proof.
  revert s. induction gs as [|g t IH]; intros s; [reflexivity|].
  cbn [cfor gfor]. rewrite cfor_gen_gapp. unfold cseq.
  destruct (cfor_gen (G g) body s) as [s' [e|]]; [reflexivity|apply IH].
Qed.

Lemma cfor_replace {A R : Type} (same_key : R -> R -> bool) (f : A -> R)
  (l : list A) (start : list R) :
  cfor l (fun a => exec (sql_insert_or_replace same_key (f a))) (Some start)
  = (Some (replace_all same_key (map f l) start), None).
Proof.
  revert start. induction l as [|a t IH]; intros start; [reflexivity|].
  cbn [cfor map]. unfold cseq, exec at 1. simpl. apply IH.
Qed.

Lemma replace_all_elem {R : Type} (same_key : R -> R -> bool) (rows start : list R) (x : R) :
  x ∈ replace_all same_key rows start -> x ∈ start \/ x ∈ rows.
Proof.
  revert start. induction rows as [|r t IH]; intros start; simpl; [tauto|].
  intros H. apply IH in H as [H|H]; [|right; by apply list_elem_of_further].
  apply elem_of_app in H as [H|H].
  - apply list_elem_of_filter in H. tauto.
  - apply list_elem_of_singleton in H as ->. right. apply list_elem_of_here.
Qed.

Lemma replace_all_keeps {R : Type} (same_key : R -> R -> bool) (rows start : list R) (x : R) :
  x ∈ start -> (forall r, r ∈ rows -> same_key r x = false) ->
  x ∈ replace_all same_key rows start.
Proof.
  revert start. induction rows as [|r t IH]; intros start Hx Hk; simpl; [exact Hx|].
  apply IH.
  - apply elem_of_app. left. apply list_elem_of_filter. split; [|exact Hx].
    rewrite (Hk r) by apply list_elem_of_here. done.
  - intros r' Hr'. apply Hk. by apply list_elem_of_further.
Qed.

Lemma replace_all_last {R : Type} (same_key : R -> R -> bool) (l1 l2 start : list R) (r : R) :
  (forall r2, r2 ∈ l2 -> same_key r2 r = false) ->
  r ∈ replace_all same_key (l1 ++ r :: l2) start.
Proof.
  intros Hk. unfold replace_all. rewrite fold_left_app. simpl.
  apply replace_all_keeps; [|exact Hk].
  apply elem_of_app. right. apply list_elem_of_here.
Qed.

Lemma distinct_keys_cons {R : Type} (same_key : R -> R -> bool) (x : R) (t : list R) :
  distinct_keys same_key (x :: t) <->
  (forall y, y ∈ t -> same_key y x = false) /\ distinct_keys same_key t.
Proof.
  split.
  - intros Hd. split.
    + intros y Hy. apply list_elem_of_lookup in Hy as [j Hj].
      apply (Hd 0%nat (S j) x y); [lia|reflexivity|exact Hj].
    + intros i j r r' Hij Hi Hj. apply (Hd (S i) (S j) r r'); [lia|exact Hi|exact Hj].
  - intros [Hx Hd] i j r r' Hij Hi Hj. destruct j as [|j]; [lia|]. simpl in Hj.
    destruct i as [|i]; simpl in Hi.
    + injection Hi as <-. apply Hx, list_elem_of_lookup. eauto.
    + apply (Hd i j r r'); [lia|exact Hi|exact Hj].
Qed.

Lemma distinct_keys_filter {R : Type} (same_key : R -> R -> bool) (P : R -> bool)
  (tbl : list R) :
  distinct_keys same_key tbl -> distinct_keys same_key (filter P tbl).
Proof.
  induction tbl as [|x t IH]; intros Hd; [exact Hd|].
  apply distinct_keys_cons in Hd as [Hx Hd]. rewrite filter_cons.
  destruct (decide (P x)); [|by apply IH].
  apply distinct_keys_cons. split; [|by apply IH].
  intros y Hy. apply list_elem_of_filter in Hy as [_ Hy]. by apply Hx.
Qed.

Lemma distinct_keys_replace {R : Type} (same_key : R -> R -> bool) (tbl : list R) (r : R) :
  distinct_keys same_key tbl ->
  distinct_keys same_key (filter (fun r' => negb (same_key r r')) tbl ++ [r]).
Proof.
  intros Hd. apply distinct_keys_snoc; [by apply distinct_keys_filter|].
  apply not_true_is_false. intros H. apply existsb_exists in H as (x & Hx & Hk).
  apply list_elem_of_In, list_elem_of_filter in Hx as [Hn _].
  rewrite Hk in Hn. done.
Qed.

Lemma distinct_keys_replace_all {R : Type} (same_key : R -> R -> bool)
  (rows start : list R) :
  distinct_keys same_key start -> distinct_keys same_key (replace_all same_key rows start).
Proof.
  revert start. induction rows as [|r t IH]; intros start Hd; [exact Hd|].
  simpl. apply IH. by apply distinct_keys_replace.
Qed.

Lemma annotate_adducts_cursor_stream (integer_affinity : string -> string) (src : source)
  (ppm : Q) (lib_pairs : list lib_pair) (tbl : stored adduct_pairs_row) :
  annotate_adducts_cursor integer_affinity src ppm lib_pairs tbl
  = cfor_gen (all_assignments src ppm lib_pairs) (persist_adduct_pair integer_affinity) tbl.
Proof.
  unfold annotate_adducts_cursor, all_assignments. destruct src as [df|gs]; [reflexivity|].
  apply cfor_graphs_as_stream.
Qed.

(** X15. [annotate_adducts] keeps the last match per key, the key being
    compared on the values the table keeps. With an accepted library and
    an existing table, the cursor leaves a table of which every row is an
    old row or the row of a yielded assignment; an assignment is in it
    when no later assignment has its key; an old row stays when no
    assignment has its key (which only matters with [add]); and keys
    that were distinct stay distinct. That table is what the run leaves
    when the generators end without an exception; when they raise, the
    run ends with the exception and the table as it was before the
    loops. *)
Theorem annotate_adducts_last_write_wins (integer_affinity : string -> string)
  (src : source) (ppm : Q) (lib : library) (add : bool)
  (existing : stored adduct_pairs_row) (lib_pairs : list lib_pair)
  (asgs : list assignment) (e : option exn) (start : list adduct_pairs_row) :
  _prep_lib lib = Ok lib_pairs ->
  all_assignments src ppm lib_pairs = (asgs, e) ->
  (if add then existing else Some []) = Some start ->
  exists tbl,
    annotate_adducts_cursor integer_affinity src ppm lib_pairs (Some start)
    = (Some tbl, e) /\
    annotate_adducts integer_affinity src ppm lib add existing
    = match e with
      | None => (Some tbl, None)
      | Some ex => (Some start, Some ex)
      end /\
    (forall x, x ∈ tbl ->
       x ∈ start \/ exists a, a ∈ asgs /\ x = adduct_pair_of integer_affinity a) /\
    (forall l1 a l2, asgs = l1 ++ a :: l2 ->
       (forall a2, a2 ∈ l2 ->
          adduct_pairs_key (adduct_pair_of integer_affinity a2)
            (adduct_pair_of integer_affinity a) = false) ->
       adduct_pair_of integer_affinity a ∈ tbl) /\
    (forall x, x ∈ start ->
       (forall a, a ∈ asgs ->
          adduct_pairs_key (adduct_pair_of integer_affinity a) x = false) ->
       x ∈ tbl) /\
    (distinct_keys adduct_pairs_key start -> distinct_keys adduct_pairs_key tbl).
Proof.
  intros Hlib Hgen Hstart.
  exists (replace_all adduct_pairs_key (map (adduct_pair_of integer_affinity) asgs) start).
  assert (annotate_adducts_cursor integer_affinity src ppm lib_pairs (Some start)
          = (Some (replace_all adduct_pairs_key
                     (map (adduct_pair_of integer_affinity) asgs) start), e)) as Hrun.
  { rewrite annotate_adducts_cursor_stream, Hgen.
    unfold cfor_gen, cseq, persist_adduct_pair. simpl. by rewrite cfor_replace. }
  split; [exact Hrun|]. split.
  - unfold annotate_adducts. rewrite Hlib, Hstart. unfold transaction. rewrite Hrun.
    by destruct e.
  - split; [|split; [|split]].
    + intros x Hx. apply replace_all_elem in Hx as [Hx|Hx]; [by left|right].
      apply list_elem_of_fmap in Hx as (a & -> & Ha). eauto.
    + intros l1 a l2 -> Hk. rewrite map_app. simpl. apply replace_all_last.
      intros r2 Hr2. apply list_elem_of_fmap in Hr2 as (a2 & -> & Ha2). by apply Hk.
    + intros x Hx Hk. apply replace_all_keeps; [exact Hx|].
      intros r Hr. apply list_elem_of_fmap in Hr as (a & -> & Ha). by apply Hk.
    + apply distinct_keys_replace_all.
Qed.

Lemma annotate_adducts_last_write_wins_witness :
  exists tbl,
    annotate_adducts id_affinity (SrcFrame adduct_peaks) 5 two_adducts true
      (Some [stale_adduct_pair])
    = (Some tbl, None) /\
    mk_adduct_pairs_row "p1" "p2" "A" "B" (py_round2 0) ∈ tbl /\
    stale_adduct_pair ∉ tbl.
Proof.
  destruct (annotate_adducts_last_write_wins id_affinity (SrcFrame adduct_peaks) 5
              two_adducts true (Some [stale_adduct_pair]) _ _ None [stale_adduct_pair]
              eq_refl eq_refl eq_refl)
    as (tbl & Hcur & Hrun & _ & Hlast & _).
  exists tbl. split; [exact Hrun|]. split.
  - apply (Hlast [] (mk_assignment "p1" "p2" "A" "B" 1 1 (py_round2 0)) []); [reflexivity|].
    intros a2 H. by apply elem_of_nil in H.
  - injection Hcur as <-. intros H. apply list_elem_of_singleton in H. discriminate.
Defined.

(** X16. Edge behaviour of the two insert-or-replace orchestrators.
    Without [add], a library the normalizer rejects still costs the old
    table: it is dropped and left empty. With [add] and no table in the
    file, the first assignment makes the insert fail and nothing is
    created. On an empty list of graphs [annotate_adducts] returns
    normally, while [annotate_multiple_charged_ions] raises IndexError. *)
Theorem relationship_orchestrators_edges (integer_affinity : string -> string) (ppm : Q)
  (lib : library) :
  (forall src e existing existing',
     _prep_lib lib = Raise e ->
     annotate_adducts integer_affinity src ppm lib false existing = (Some [], Some e) /\
     annotate_multiple_charged_ions integer_affinity src ppm lib false existing'
     = (Some [], Some e)) /\
  (forall src lib_pairs a rest e,
     _prep_lib lib = Ok lib_pairs ->
     all_assignments src ppm lib_pairs = (a :: rest, e) ->
     annotate_adducts integer_affinity src ppm lib true None
     = (None, Some OperationalError) /\
     (src <> SrcGraphs [] ->
      annotate_multiple_charged_ions integer_affinity src ppm lib true None
      = (None, Some OperationalError))) /\
  (forall lib_pairs add existing existing',
     _prep_lib lib = Ok lib_pairs ->
     annotate_adducts integer_affinity (SrcGraphs []) ppm lib add existing
     = (if add then existing else Some [], None) /\
     annotate_multiple_charged_ions integer_affinity (SrcGraphs []) ppm lib add existing'
     = (if add then existing' else Some [], Some IndexError)).
Proof.
  split; [|split].
  - intros src e existing existing' Hlib.
    unfold annotate_adducts, annotate_multiple_charged_ions. by rewrite Hlib.
  - intros src lib_pairs a rest e Hlib Hgen.
    unfold annotate_adducts, annotate_multiple_charged_ions. rewrite Hlib.
    assert (forall (R : Type) (body : assignment -> cmd (stored R)),
              (forall x, body x None = (None, Some OperationalError)) ->
              cfor_gen (all_assignments src ppm lib_pairs) body None
              = (None, Some OperationalError)) as Hrun.
    { intros R body Hbody. rewrite Hgen. unfold cfor_gen, cseq. simpl.
      unfold cseq. by rewrite Hbody. }
    split.
    + apply (transaction_raises _ _ None). rewrite annotate_adducts_cursor_stream.
      by apply Hrun.
    + intros Hne. apply (transaction_raises _ _ None).
      unfold annotate_multiple_charged_ions_cursor.
      destruct src as [df|gs]; [by apply Hrun|].
      destruct gs as [|g gs]; [done|].
      rewrite cfor_graphs_as_stream. by apply Hrun.
  - intros lib_pairs add existing existing' Hlib.
    unfold annotate_adducts, annotate_multiple_charged_ions. by rewrite Hlib.
Qed.

Lemma relationship_orchestrators_edges_witness :
  annotate_adducts id_affinity (SrcFrame adduct_peaks) 5 two_adducts true None
  = (None, Some OperationalError) /\
  annotate_adducts id_affinity (SrcFrame adduct_peaks) 5 LibOther false
    (Some [stale_adduct_pair])
  = (Some [], Some ValueError) /\
  annotate_multiple_charged_ions id_affinity (SrcGraphs []) 5 two_adducts false None
  = (Some [], Some IndexError).
Proof.
  destruct (relationship_orchestrators_edges id_affinity 5 two_adducts)
    as (_ & Hadd & Hempty).
  destruct (relationship_orchestrators_edges id_affinity 5 LibOther) as (Hrej & _ & _).
  split; [|split].
  - exact (proj1 (Hadd (SrcFrame adduct_peaks) _ _ _ _ eq_refl eq_refl)).
  - exact (proj1 (Hrej (SrcFrame adduct_peaks) ValueError (Some [stale_adduct_pair])
                    None eq_refl)).
  - exact (proj2 (Hempty _ false None None eq_refl)).
Defined.

(** ** Isotopes: the estimate *)

(** X17. The atoms estimate is null exactly when one of the two
    abundance-weighted intensities is zero, and when the two abundances
    differ it does not depend on which of the two peaks comes first. *)
Theorem estimate_atoms_null_and_orientation (ab_a ab_b int_a int_b : Q) :
  (estimate_atoms ab_a ab_b int_a int_b = None <->
   (ab_b * int_a == 0 \/ ab_a * int_b == 0)%Q) /\
  (~ (ab_a == ab_b)%Q ->
   estimate_atoms ab_a ab_b int_a int_b = estimate_atoms ab_b ab_a int_b int_a).
Proof.
  unfold estimate_atoms. split.
  - destruct (Qeq_bool (ab_b * int_a) 0) eqn:Ex; simpl.
    + apply Qeq_bool_iff in Ex. tauto.
    + destruct (Qeq_bool (ab_a * int_b) 0) eqn:Ey; simpl.
      * apply Qeq_bool_iff in Ey. tauto.
      * apply Qeq_bool_neq in Ex, Ey.
        destruct (Qlt_bool ab_a ab_b); split; try discriminate; tauto.
  - intros Hne. rewrite (orb_comm (Qeq_bool (ab_a * int_b) 0)).
    destruct (_ || _); [reflexivity|].
    destruct (Qlt_bool ab_a ab_b) eqn:E1, (Qlt_bool ab_b ab_a) eqn:E2; try reflexivity.
    + apply Qlt_bool_iff in E1, E2. lra.
    + apply Qlt_bool_false in E1, E2. exfalso. apply Hne. lra.
Qed.

Lemma estimate_atoms_null_and_orientation_witness :
  estimate_atoms 100 1 1000 30 = estimate_atoms 1 100 30 1000.
Proof.
  apply (proj2 (estimate_atoms_null_and_orientation 100 1 1000 30)). discriminate.
Defined.

(** ** Oligomers: what a row records *)

(** X18. An oligomer match always runs from an earlier peak of the table
    to a later one (flat list), or from a node to a neighbour of
    strictly larger m/z (graph); the row carries the two names and m/z,
    the adduct label, and the rounded ratio of the two de-adducted
    masses, whose denominator is not zero. *)
Theorem oligomer_rows_sound (ppm : Q) (lib : list (string * Q)) (r : oligomers_row) :
  (forall (df : dataframe) (maximum : Z),
     r ∈ (oligomers_from_peaklist df ppm lib maximum).1 ->
     exists i j pi pj adduct m,
       (i < j)%nat /\ df !! i = Some pi /\ df !! j = Some pj /\ (adduct, m) ∈ lib /\
       o_peak_id_a r = name pi /\ o_peak_id_b r = name pj /\
       o_mz_a r = mz pi /\ o_mz_b r = mz pj /\ o_label_a r = adduct /\
       ~ (mz pi - m == 0)%Q /\
       o_mz_ratio r = py_round2 ((mz pj - m) / (mz pi - m))) /\
  (forall graph : digraph,
     r ∈ (oligomers_from_graph graph ppm lib).1 ->
     exists dx dy adduct m,
       (o_peak_id_a r, o_peak_id_b r) ∈ edges graph /\
       node graph (o_peak_id_a r) = Ok dx /\ node graph (o_peak_id_b r) = Ok dy /\
       (adduct, m) ∈ lib /\
       o_mz_a r = node_mz dx /\ o_mz_b r = node_mz dy /\ (o_mz_a r < o_mz_b r)%Q /\
       o_label_a r = adduct /\
       o_mz_ratio r = py_round2 ((node_mz dy - m) / (node_mz dx - m))).
Proof.
  assert (forall id_x id_y mz_x mz_y adduct m d,
            oligomer_row id_x id_y mz_x mz_y adduct m d = Ok r ->
            o_peak_id_a r = id_x /\ o_peak_id_b r = id_y /\ o_mz_a r = mz_x /\
            o_mz_b r = mz_y /\ o_label_a r = adduct /\ ~ (mz_x - m == 0)%Q /\
            o_mz_ratio r = py_round2 ((mz_y - m) / (mz_x - m))) as Hrow.
  { intros id_x id_y mz_x mz_y adduct m d. unfold oligomer_row.
    destruct (Qeq_bool (mz_x - m) 0) eqn:E; [discriminate|].
    apply Qeq_bool_neq in E.
    destruct (ppm_error_checked _ _) as [pe|e]; simpl; [|discriminate].
    intros [= <-]. simpl. done. }
  split.
  - intros df maximum H. unfold oligomers_from_peaklist in H.
    apply gfor_elem in H as ([adduct m] & Hlib & H).
    apply gfor_elem in H as ([pi rest] & Hpair & H).
    apply gfor_elem in H as (d & Hd & H).
    apply scan_later_elem in H as (pj & Hpj & H).
    apply oligomer_try_elem in H as [_ Hr]. apply Hrow in Hr.
    apply later_pairs_lookup in Hpair as (i & Hi & ->).
    apply elem_of_drop_lookup in Hpj as (j & Hij & Hj).
    exists i, j, pi, pj, adduct, m. tauto.
  - intros graph H. unfold oligomers_from_graph in H.
    apply gfor_elem in H as (n & _ & H). cbn zeta in H.
    apply gfor_elem in H as (d & _ & H).
    apply gfor_elem in H as (nn & Hnn & H).
    destruct (node graph n) as [dx|] eqn:Hx; [|by apply elem_of_nil in H].
    destruct (node graph nn) as [dy|] eqn:Hy; [|by apply elem_of_nil in H].
    destruct (Qlt_bool _ _) eqn:Elt; [|by apply elem_of_nil in H].
    apply Qlt_bool_iff in Elt.
    apply scan_adducts_elem in H as (adduct & m & Hlib & H).
    apply oligomer_try_elem in H as [_ Hr]. apply Hrow in Hr.
    destruct Hr as (-> & -> & Ha & Hb & Hl & _ & Hratio).
    exists dx, dy, adduct, m. rewrite Ha, Hb.
    repeat split; try done.
    unfold neighbors in Hnn. apply list_elem_of_fmap in Hnn as ([u v] & -> & He).
    apply list_elem_of_filter in He as [Hu He]. simpl in Hu.
    apply Is_true_true, String.eqb_eq in Hu as ->. exact He.
Qed.

Lemma oligomer_rows_sound_witness :
  exists r dx dy adduct m,
    (o_peak_id_a r, o_peak_id_b r) ∈ edges graph_example /\
    node graph_example (o_peak_id_a r) = Ok dx /\
    node graph_example (o_peak_id_b r) = Ok dy /\
    (adduct, m) ∈ proton_only /\
    o_mz_a r = node_mz dx /\ o_mz_b r = node_mz dy /\ (o_mz_a r < o_mz_b r)%Q /\
    o_label_a r = adduct /\
    o_mz_ratio r = py_round2 ((node_mz dy - m) / (node_mz dx - m)).
Proof.
  eexists.
  apply (proj2 (oligomer_rows_sound 5 proton_only _) graph_example).
  vm_compute. apply list_elem_of_here.
Defined.

(** ** Summary: the views *)

Lemma distinct_elem {A : Type} (eqb : A -> A -> bool) (l : list A) (x : A) :
  x ∈ distinct eqb l -> x ∈ l.
Proof.
  induction l as [|y t IH]; simpl; [done|].
  intros H. apply elem_of_cons in H as [->|H]; [apply list_elem_of_here|].
  apply list_elem_of_filter in H as [_ H]. apply list_elem_of_further. by apply IH.
Qed.

Lemma distinct_covers {A : Type} (eqb : A -> A -> bool) (l : list A) (x : A) :
  (forall a, eqb a a = true) ->
  (forall a b c, eqb a b = true -> eqb b c = true -> eqb a c = true) ->
  x ∈ l -> exists y, y ∈ distinct eqb l /\ eqb y x = true.
Proof.
  intros Hrefl Htrans. induction l as [|z t IH]; simpl; intros H; [by apply elem_of_nil in H|].
  apply elem_of_cons in H as [->|H].
  - exists z. split; [apply list_elem_of_here|apply Hrefl].
  - destruct (IH H) as (y & Hy & Hyx).
    destruct (eqb z y) eqn:E.
    + exists z. split; [apply list_elem_of_here|]. by apply (Htrans z y x).
    + exists y. split; [|exact Hyx]. apply list_elem_of_further, list_elem_of_filter.
      split; [by rewrite E|exact Hy].
Qed.

Lemma amo_eqb_refl (a : amo_row) : amo_eqb a a = true.
Proof.
  destruct a as [[[p l] c] o]. simpl.
  rewrite !String.eqb_refl, Z.eqb_refl. simpl. by apply Qeq_bool_iff.
Qed.

Lemma amo_eqb_trans (a b c : amo_row) :
  amo_eqb a b = true -> amo_eqb b c = true -> amo_eqb a c = true.
Proof.
  destruct a as [[[p1 l1] c1] o1], b as [[[p2 l2] c2] o2], c as [[[p3 l3] c3] o3]. simpl.
  rewrite !andb_true_iff, !String.eqb_eq, !Z.eqb_eq, !Qeq_bool_iff.
  intros (((-> & ->) & ->) & H1) (((-> & ->) & ->) & H2). repeat split. lra.
Qed.

Lemma assoc_mem {V : Type} (k : string) (s : list (string * V)) (v : V) :
  assoc k s = Some v -> mem k (map fst s) = true.
Proof.
  induction s as [|[k' v'] t IH]; simpl; [discriminate|].
  unfold mem in *. simpl. destruct (String.eqb k k'); [done|]. exact IH.
Qed.

Lemma rmap_id_elem {B : Type} (l : list (result B)) (parts : list B) (q : result B) :
  rmap (fun q => q) l = Ok parts -> q ∈ l -> exists part, q = Ok part /\ part ∈ parts.
Proof.
  revert parts. induction l as [|x t IH]; simpl; intros parts.
  - intros _ H. by apply elem_of_nil in H.
  - destruct x as [px|e]; simpl; [|discriminate].
    destruct (rmap _ t) as [ps|e]; simpl; [|discriminate].
    intros [= <-] H. apply elem_of_cons in H as [->|H].
    + exists px. split; [reflexivity|apply list_elem_of_here].
    + destruct (IH ps eq_refl H) as (part & -> & Hp). exists part.
      split; [reflexivity|by apply list_elem_of_further].
Qed.

Lemma rmap_id_parts {B : Type} (l : list (result B)) (parts : list B) (part : B) :
  rmap (fun q => q) l = Ok parts -> part ∈ parts -> Ok part ∈ l.
Proof.
  intros H Hp. destruct (rmap_ok_elem _ _ _ _ H Hp) as (q & Hq & ->). exact Hq.
Qed.

Lemma query_amo_covers (s : store) (view : list amo_row) (q : result (list amo_row))
  (part : list amo_row) (x : amo_row) :
  query_amo s = Ok view -> q ∈ sub_queries s -> q = Ok part -> x ∈ part ->
  exists v, v ∈ view /\ amo_eqb v x = true.
Proof.
  unfold query_amo. intros H Hq -> Hx.
  destruct (rmap _ (sub_queries s)) as [parts|e] eqn:E; simpl in H; [|discriminate].
  injection H as <-.
  destruct (rmap_id_elem _ _ _ E Hq) as (part' & [= <-] & Hpart).
  apply distinct_covers; [apply amo_eqb_refl|apply amo_eqb_trans|].
  apply list_elem_of_In, in_concat. exists part. split; by apply list_elem_of_In.
Qed.

(** X19. The peak-relationship view is symmetric: when [query_amo]
    evaluates, each row of [adduct_pairs], [multiple_charged_ions] and
    [oligomers] is represented in it by both of its ends (a row equal to
    the end up to the numeric value of its last column), and every row
    of the view is an end of a row of one of these three tables. *)
Theorem query_amo_both_ends (s : store) (view : list amo_row) :
  query_amo s = Ok view ->
  (forall rows r x, assoc "adduct_pairs" s = Some (TAdductPairs rows) ->
     r ∈ rows -> x ∈ adduct_pair_ends r -> exists v, v ∈ view /\ amo_eqb v x = true) /\
  (forall rows r x, assoc "multiple_charged_ions" s = Some (TMultipleChargedIons rows) ->
     r ∈ rows -> x ∈ mci_ends r -> exists v, v ∈ view /\ amo_eqb v x = true) /\
  (forall rows r x, assoc "oligomers" s = Some (TOligomers rows) ->
     r ∈ rows -> x ∈ oligomer_ends r -> exists v, v ∈ view /\ amo_eqb v x = true) /\
  (forall v, v ∈ view ->
     (exists rows r, assoc "adduct_pairs" s = Some (TAdductPairs rows) /\
        r ∈ rows /\ v ∈ adduct_pair_ends r) \/
     (exists rows r, assoc "multiple_charged_ions" s = Some (TMultipleChargedIons rows) /\
        r ∈ rows /\ v ∈ mci_ends r) \/
     (exists rows r, assoc "oligomers" s = Some (TOligomers rows) /\
        r ∈ rows /\ v ∈ oligomer_ends r)).
Proof.
  intros Hview.
  assert (forall (A : Type) (f g : A -> amo_row) (rows : list A) (r : A) (x : amo_row),
            r ∈ rows -> x ∈ [f r; g r] ->
            exists y, y ∈ distinct amo_eqb (map f rows ++ map g rows) /\ amo_eqb y x = true)
    as Hends.
  { intros A f g rows r x Hr Hx.
    apply distinct_covers; [apply amo_eqb_refl|apply amo_eqb_trans|].
    apply elem_of_app.
    apply elem_of_cons in Hx as [->|Hx]; [left; by apply list_elem_of_fmap_2|].
    apply list_elem_of_singleton in Hx as ->. right. by apply list_elem_of_fmap_2. }
  assert (forall (A : Type) (f g : A -> amo_row) (rows : list A) (v : amo_row),
            v ∈ distinct amo_eqb (map f rows ++ map g rows) ->
            exists r, r ∈ rows /\ v ∈ [f r; g r]) as Hback.
  { intros A f g rows v Hv. apply distinct_elem, elem_of_app in Hv as [Hv|Hv];
      apply list_elem_of_fmap in Hv as (r & -> & Hr); exists r; split; try done.
    - apply list_elem_of_here.
    - apply list_elem_of_further, list_elem_of_here. }
  assert (forall tn t (q : table -> result (list amo_row)) rows_part x,
            assoc tn s = Some t -> q t = Ok rows_part ->
            select_from s tn q ∈ sub_queries s ->
            (exists y, y ∈ rows_part /\ amo_eqb y x = true) ->
            exists v, v ∈ view /\ amo_eqb v x = true) as Hlift.
  { intros tn t q part x Ht Hq Hin (y & Hy & Hyx).
    assert (select_from s tn q = Ok part) as Hsel by (unfold select_from; by rewrite Ht).
    destruct (query_amo_covers s view _ part y Hview Hin Hsel Hy) as (v & Hv & Hvy).
    exists v. split; [exact Hv|]. by apply (amo_eqb_trans v y x). }
  repeat split.
  - intros rows r x Ht Hr Hx.
    apply (Hlift "adduct_pairs" _ sub_query_adduct_pairs _ x Ht eq_refl).
    + unfold sub_queries, tables_amo. cbn [flat_map].
      unfold table_names. rewrite (assoc_mem _ _ _ Ht). simpl. apply list_elem_of_here.
    + eapply Hends; [exact Hr|exact Hx].
  - intros rows r x Ht Hr Hx.
    apply (Hlift "multiple_charged_ions" _ sub_query_multiple_charged_ions _ x Ht eq_refl).
    + unfold sub_queries, tables_amo. cbn [flat_map].
      unfold table_names. rewrite (assoc_mem _ _ _ Ht). simpl.
      apply elem_of_app. right. apply list_elem_of_here.
    + eapply Hends; [exact Hr|exact Hx].
  - intros rows r x Ht Hr Hx.
    apply (Hlift "oligomers" _ sub_query_oligomers _ x Ht eq_refl).
    + unfold sub_queries, tables_amo. cbn [flat_map].
      unfold table_names. rewrite (assoc_mem _ _ _ Ht). simpl.
      apply elem_of_app. right. apply elem_of_app. right. apply list_elem_of_here.
    + eapply Hends; [exact Hr|exact Hx].
  - intros v Hv. unfold query_amo in Hview.
    destruct (rmap _ (sub_queries s)) as [parts|e] eqn:E; simpl in Hview; [|discriminate].
    injection Hview as <-.
    apply distinct_elem, list_elem_of_In, in_concat in Hv as (part & Hpart & Hv).
    apply list_elem_of_In in Hpart, Hv.
    apply (rmap_id_parts _ _ _ E) in Hpart.
    unfold sub_queries, tables_amo in Hpart. cbn [flat_map] in Hpart.
    assert (forall tn (q : table -> result (list amo_row)),
              select_from s tn q = Ok part -> exists t, assoc tn s = Some t /\ q t = Ok part)
      as Hsel.
    { intros tn q. unfold select_from. destruct (assoc tn s) as [t|]; [eauto|discriminate]. }
    rewrite !elem_of_app in Hpart.
    destruct Hpart as [Hp|[Hp|[Hp|[Hp|Hp]]]].
    + destruct (mem "adduct_pairs" (table_names s)); [|by apply elem_of_nil in Hp].
      simpl in Hp. apply list_elem_of_singleton in Hp. symmetry in Hp.
      apply Hsel in Hp as (t & Ht & Hq). destruct t; try discriminate.
      injection Hq as <-. left. destruct (Hback _ _ _ _ _ Hv) as (r & Hr & Hin). eauto.
    + destruct (mem "multiple_charged_ions" (table_names s)); [|by apply elem_of_nil in Hp].
      simpl in Hp. apply list_elem_of_singleton in Hp. symmetry in Hp.
      apply Hsel in Hp as (t & Ht & Hq). destruct t; try discriminate.
      injection Hq as <-. right. left.
      destruct (Hback _ _ _ _ _ Hv) as (r & Hr & Hin). eauto.
    + destruct (mem "oligomers" (table_names s)); [|by apply elem_of_nil in Hp].
      simpl in Hp. apply list_elem_of_singleton in Hp. symmetry in Hp.
      apply Hsel in Hp as (t & Ht & Hq). destruct t; try discriminate.
      injection Hq as <-. right. right.
      destruct (Hback _ _ _ _ _ Hv) as (r & Hr & Hin). eauto.
    + destruct (mem "isotopes" (table_names s)); simpl in Hp; by apply elem_of_nil in Hp.
    + by apply elem_of_nil in Hp.
Qed.

Lemma query_amo_both_ends_witness :
  exists view v,
    query_amo amo_store_example = Ok view /\ v ∈ view /\
    amo_eqb v ("p2", "B", 1%Z, 1%Q) = true.
Proof.
  pose proof (query_amo_both_ends amo_store_example _ eq_refl) as (Hap & _).
  destruct (Hap [stale_adduct_pair] stale_adduct_pair ("p2", "B", 1%Z, 1%Q) eq_refl
              (list_elem_of_here _ _)
              (list_elem_of_further _ _ _ (list_elem_of_here _ _))) as (v & Hv & He).
  eexists _, v. split; [reflexivity|]. split; [exact Hv|exact He].
Defined.

Lemma distinct_NoDup {A : Type} (eqb : A -> A -> bool) (l : list A) :
  (forall a b, eqb a b = true <-> a = b) -> NoDup (distinct eqb l).
Proof.
  intros Heq. induction l as [|x t IH]; simpl; constructor.
  - intros H. apply list_elem_of_filter in H as [Hn _].
    rewrite (proj2 (Heq x x) eq_refl) in Hn. done.
  - by apply NoDup_filter.
Qed.

Lemma isotope_eqb_refl (r : isotopes_row) : isotope_eqb r r = true.
Proof.
  unfold isotope_eqb, isotopes_key. rewrite !String.eqb_refl. simpl.
  rewrite (proj2 (Qeq_bool_iff _ _) (Qeq_refl (i_ppm_error r))).
  destruct (i_atoms r) as [x|]; [|reflexivity].
  by rewrite (proj2 (Qeq_bool_iff _ _) (Qeq_refl x)).
Qed.

Lemma isotope_eqb_ids (r r' : isotopes_row) :
  isotope_eqb r r' = true ->
  i_peak_id_a r = i_peak_id_a r' /\ i_peak_id_b r = i_peak_id_b r' /\
  i_label_a r = i_label_a r' /\ i_label_b r = i_label_b r'.
Proof.
  unfold isotope_eqb, isotopes_key. rewrite !andb_true_iff, !String.eqb_eq. tauto.
Qed.

Lemma isotope_eqb_trans (a b c : isotopes_row) :
  isotope_eqb a b = true -> isotope_eqb b c = true -> isotope_eqb a c = true.
Proof.
  unfold isotope_eqb, isotopes_key.
  rewrite !andb_true_iff, !String.eqb_eq, !Qeq_bool_iff.
  intros [[(((-> & ->) & ->) & ->) Hat1] Hp1] [[(((-> & ->) & ->) & ->) Hat2] Hp2].
  repeat split; [|lra].
  destruct (i_atoms a), (i_atoms b), (i_atoms c); try done.
  apply Qeq_bool_iff in Hat1, Hat2. apply Qeq_bool_iff. lra.
Qed.

(** X20. The isotope view has one row per peak. When [query_isotopes]
    evaluates on a store with an [isotopes] table, no peak has two rows,
    each peak on either side of an isotope row has one, the three lists
    of a row (own labels, partner ids, partner labels) have one length
    and are not empty, and every partner listed for a peak is the other
    end of an isotope row of that peak. *)
Theorem query_isotopes_one_row_per_peak (s : store) (rows : list isotopes_row)
  (groups : list isotope_group) :
  assoc "isotopes" s = Some (TIsotopes rows) ->
  query_isotopes s = Ok groups ->
  NoDup (map g_peak_id_a groups) /\
  (forall r, r ∈ rows ->
     i_peak_id_a r ∈ map g_peak_id_a groups /\ i_peak_id_b r ∈ map g_peak_id_a groups) /\
  (forall g, g ∈ groups ->
     length (g_isotope_labels_a g) = length (g_isotope_ids g) /\
     length (g_isotope_labels_b g) = length (g_isotope_ids g) /\
     g_isotope_ids g <> [] /\
     forall id, id ∈ g_isotope_ids g ->
       exists r, r ∈ rows /\
         ((i_peak_id_a r = g_peak_id_a g /\ i_peak_id_b r = id) \/
          (i_peak_id_b r = g_peak_id_a g /\ i_peak_id_a r = id))).
Proof.
  intros Ht. unfold query_isotopes, flag_isotopes, table_names.
  rewrite (assoc_mem _ _ _ Ht). unfold select_from. rewrite Ht. simpl.
  intros [= <-].
  set (both := distinct isotope_eqb (rows ++ map swap_isotope rows)).
  set (ids := distinct String.eqb (map i_peak_id_a both)).
  assert (map g_peak_id_a (map (group_of both) ids) = ids) as Hids.
  { rewrite map_map. simpl. apply map_id. }
  assert (forall y, y ∈ rows ++ map swap_isotope rows -> i_peak_id_a y ∈ ids) as Hcov.
  { intros y Hy.
    destruct (distinct_covers isotope_eqb _ y isotope_eqb_refl isotope_eqb_trans Hy)
      as (z & Hz & Hzy).
    apply isotope_eqb_ids in Hzy as (<- & _).
    destruct (distinct_covers String.eqb (map i_peak_id_a both) (i_peak_id_a z)) as (w & Hw & E).
    - apply String.eqb_refl.
    - intros a b c. rewrite !String.eqb_eq. congruence.
    - by apply list_elem_of_fmap_2.
    - apply String.eqb_eq in E as <-. exact Hw. }
  rewrite Hids. split; [|split].
  - apply distinct_NoDup. apply String.eqb_eq.
  - intros r Hr. split.
    + apply (Hcov r). apply elem_of_app. by left.
    + apply (Hcov (swap_isotope r)). apply elem_of_app. right. by apply list_elem_of_fmap_2.
  - intros g Hg. apply list_elem_of_fmap in Hg as (p & -> & Hp). simpl.
    rewrite !length_map. split; [reflexivity|]. split; [reflexivity|].
    assert (forall y, y ∈ filter (fun r => String.eqb (i_peak_id_a r) p) both ->
              y ∈ rows ++ map swap_isotope rows /\ i_peak_id_a y = p) as Hmine.
    { intros y Hy. apply list_elem_of_filter in Hy as [Hk Hy].
      apply Is_true_true, String.eqb_eq in Hk. split; [|exact Hk].
      by apply distinct_elem in Hy. }
    split.
    + apply distinct_elem, list_elem_of_fmap in Hp as (y & -> & Hy).
      intros Hnil. apply fmap_nil_inv in Hnil.
      assert (y ∈ filter (fun r => String.eqb (i_peak_id_a r) (i_peak_id_a y)) both) as Hin.
      { apply list_elem_of_filter. split; [|exact Hy]. by rewrite String.eqb_refl. }
      rewrite Hnil in Hin. by apply elem_of_nil in Hin.
    + intros id Hid. apply list_elem_of_fmap in Hid as (y & -> & Hy).
      apply Hmine in Hy as [Hy <-]. apply elem_of_app in Hy as [Hy|Hy].
      * exists y. split; [exact Hy|]. by left.
      * apply list_elem_of_fmap in Hy as (r & -> & Hr). exists r. split; [exact Hr|].
        right. done.
Qed.

Lemma query_isotopes_one_row_per_peak_witness :
  exists groups, query_isotopes isotope_store_example = Ok groups /\
    "p2" ∈ map g_peak_id_a groups.
Proof.
  eexists. split; [reflexivity|].
  exact (proj2 (proj1 (proj2 (query_isotopes_one_row_per_peak isotope_store_example
                                 _ _ eq_refl eq_refl))
                  (mk_isotopes_row "p1" "p2" "C12" "C13" (Some 3%Q) 0)
                  (list_elem_of_here _ _))).
Defined.

(** ** Records of a reference library *)

Lemma rmap_ok_lookup {A B : Type} (f : A -> result B) (l : list A) (l' : list B)
  (i : nat) (x : A) (y : B) :
  rmap f l = Ok l' -> l !! i = Some x -> l' !! i = Some y -> f x = Ok y.
Proof.
  revert l' i. induction l as [|a t IH]; intros l' i; simpl.
  - intros _ H. by rewrite lookup_nil in H.
  - destruct (f a) as [b|e] eqn:Ea; simpl; [|discriminate].
    destruct (rmap f t) as [bs|e]; simpl; [|discriminate].
    intros [= <-]. destruct i as [|i]; simpl.
    + by intros [= <-] [= <-].
    + by apply IH.
Qed.

Lemma mem_filter (P : string -> bool) (l : list string) (x : string) :
  mem x (filter P l) = mem x l && P x.
Proof.
  apply eq_true_iff_eq. rewrite andb_true_iff, !mem_spec, list_elem_of_filter.
  rewrite Is_true_true. tauto.
Qed.

Lemma pop_elements_composition (elements : list string) (record : gmap string pyvalue)
  (c : gmap string Z) :
  record !! "composition" = Some (PDict c) ->
  exists c', pop_elements elements record = Ok (<["composition" := PDict c']> record) /\
    forall e, c' !! e = if mem e elements then None else c !! e.
Proof.
  revert record c. induction elements as [|x rest IH]; intros record c Hc.
  - exists c. split; [simpl; by rewrite insert_id|done].
  - cbn [pop_elements]. unfold pop_element at 1. rewrite Hc. simpl.
    destruct (IH (<["composition" := PDict (delete x c)]> record) (delete x c))
      as (c' & Hrun & Hc'); [by rewrite lookup_insert_eq|].
    exists c'. split.
    + change (pop_elements rest (<["composition":=PDict (delete x c)]> record)
              = Ok (<["composition":=PDict c']> record)).
      rewrite Hrun. by rewrite insert_insert_eq.
    + intros e. rewrite Hc'. unfold mem. simpl.
      destruct (existsb (String.eqb e) rest) eqn:Er; [by rewrite orb_true_r|].
      rewrite orb_false_r. destruct (String.eqb e x) eqn:Ex.
      * apply String.eqb_eq in Ex as ->. by rewrite lookup_delete_eq.
      * apply String.eqb_neq in Ex. by rewrite lookup_delete_ne.
Qed.

Lemma pop_elements_flat (elements : list string) (record : gmap string pyvalue) :
  record !! "composition" = None ->
  exists record', pop_elements elements record = Ok record' /\
    forall k, record' !! k = if mem k elements then None else record !! k.
Proof.
  revert record. induction elements as [|x rest IH]; intros record Hc.
  - exists record. done.
  - cbn [pop_elements]. unfold pop_element at 1. rewrite Hc. simpl.
    destruct (IH (delete x record)) as (record' & Hrun & Hk).
    { destruct (decide (x = "composition")) as [->|Hne];
        [by rewrite lookup_delete_eq|by rewrite lookup_delete_ne]. }
    exists record'. split; [exact Hrun|].
    intros k. rewrite Hk. unfold mem. simpl.
    destruct (existsb (String.eqb k) rest) eqn:Er; [by rewrite orb_true_r|].
    rewrite orb_false_r. destruct (String.eqb k x) eqn:Ex.
    + apply String.eqb_eq in Ex as ->. by rewrite lookup_delete_eq.
    + apply String.eqb_neq in Ex. by rewrite lookup_delete_ne.
Qed.

Lemma pop_elements_not_dict (elements : list string) (record : gmap string pyvalue)
  (v : pyvalue) :
  record !! "composition" = Some v -> (forall c, v <> PDict c) -> elements <> [] ->
  pop_elements elements record = Raise AttributeError.
Proof.
  intros Hc Hv Hne. destruct elements as [|x rest]; [done|].
  cbn [pop_elements]. unfold pop_element. rewrite Hc.
  destruct v; try reflexivity. by destruct (Hv d).
Qed.

(** X21. [_remove_elements_from_compositions] drops, and does not merely
    zero, the elements of the database that are not kept: when it
    returns, the records correspond one to one; in a record with a
    composition only the composition changes, losing exactly those
    elements; a record without one loses exactly those keys. *)
Theorem remove_elements_drops_exactly (nist_database keep : list string)
  (records records' : list (gmap string pyvalue)) :
  _remove_elements_from_compositions nist_database records keep = Ok records' ->
  length records' = length records /\
  forall i record record',
    records !! i = Some record -> records' !! i = Some record' ->
    match record !! "composition" with
    | Some (PDict c) =>
        exists c', record' !! "composition" = Some (PDict c') /\
          (forall e, c' !! e = if removed nist_database keep e then None else c !! e) /\
          (forall k, k <> "composition" -> record' !! k = record !! k)
    | Some _ => forall e, removed nist_database keep e = false
    | None =>
        forall k, record' !! k = if removed nist_database keep k then None else record !! k
    end.
Proof.
  unfold _remove_elements_from_compositions. intros H.
  split; [by apply (rmap_ok_length _ _ _ H)|].
  intros i record record' Hi Hi'.
  pose proof (rmap_ok_lookup _ _ _ _ _ _ H Hi Hi') as Hrun.
  set (elements := filter (fun e => negb (mem e keep)) nist_database) in *.
  assert (forall e, mem e elements = removed nist_database keep e) as Hmem.
  { intros e. unfold elements, removed. apply mem_filter. }
  destruct (record !! "composition") as [v|] eqn:Hc.
  - destruct v as [q|k|s|b|c].
    5: { destruct (pop_elements_composition elements record c Hc) as (c' & Hrun' & Hc').
         rewrite Hrun' in Hrun. injection Hrun as <-. exists c'.
         split; [by rewrite lookup_insert_eq|]. split.
         - intros e. by rewrite Hc', Hmem.
         - intros k Hk. by rewrite lookup_insert_ne. }
    all: intros e; rewrite <- Hmem; destruct elements as [|x rest] eqn:El; [reflexivity|];
      rewrite (pop_elements_not_dict (x :: rest) record _ Hc) in Hrun; done.
  - destruct (pop_elements_flat elements record Hc) as (r' & Hrun' & Hk).
    rewrite Hrun' in Hrun. injection Hrun as <-.
    intros k. by rewrite Hk, Hmem.
Qed.

Lemma remove_elements_drops_exactly_witness :
  exists records',
    _remove_elements_from_compositions ["C"; "H"; "Na"] [salt_record] ["C"; "H"] = Ok records' /\
    length records' = 1%nat.
Proof.
  eexists. split; [vm_compute; reflexivity|].
  exact (proj1 (remove_elements_drops_exactly ["C"; "H"; "Na"] ["C"; "H"] [salt_record] _
                  ltac:(vm_compute; reflexivity))).
Defined.

(** X22. Stripping and then flattening, as the stores do when they are
    built: a record with a composition comes out without the key
    "composition"; each kept element of the composition has become a
    key of the record with its count, each dropped element has not (the
    key keeps whatever the record itself held under that name), and all
    other keys are untouched. Flattening the result once more raises
    KeyError. *)
Theorem flatten_after_remove (nist_database keep : list string)
  (records records' records'' : list (gmap string pyvalue)) :
  _remove_elements_from_compositions nist_database records keep = Ok records' ->
  _flatten_composition records' = Ok records'' ->
  (forall i record record'' c,
     records !! i = Some record -> records'' !! i = Some record'' ->
     record !! "composition" = Some (PDict c) ->
     record'' !! "composition" = None /\
     (forall k, k <> "composition" ->
        record'' !! k =
        match c !! k with
        | Some n => if removed nist_database keep k then record !! k else Some (PInt n)
        | None => record !! k
        end)) /\
  (records <> [] -> _flatten_composition records'' = Raise KeyError).
Proof.
  unfold _remove_elements_from_compositions, _flatten_composition. intros Hrem Hflat.
  assert (forall r r', flatten_record r = Ok r' -> r' !! "composition" = None) as Hgone.
  { intros r r'. unfold flatten_record.
    destruct (r !! "composition") as [[q|k|s|b|c]|]; try discriminate.
    - destruct s; [|discriminate]. intros [= <-]. apply lookup_delete_eq.
    - intros [= <-]. apply lookup_delete_eq. }
  split.
  - intros i record record'' c Hi Hi'' Hc.
    assert (exists record', records' !! i = Some record') as [record' Hi'].
    { apply lookup_lt_is_Some. rewrite <- (rmap_ok_length _ _ _ Hflat).
      by apply lookup_lt_Some in Hi''. }
    pose proof (rmap_ok_lookup _ _ _ _ _ _ Hrem Hi Hi') as Hrun.
    pose proof (rmap_ok_lookup _ _ _ _ _ _ Hflat Hi' Hi'') as Hfl.
    split; [by apply (Hgone record')|].
    destruct (pop_elements_composition
                (filter (fun e => negb (mem e keep)) nist_database) record c Hc)
      as (c' & Hrun' & Hc').
    rewrite Hrun' in Hrun. injection Hrun as <-.
    unfold flatten_record in Hfl. rewrite lookup_insert_eq in Hfl. injection Hfl as <-.
    intros k Hk. rewrite lookup_delete_ne by done.
    rewrite lookup_union, lookup_fmap, lookup_insert_ne by done.
    rewrite Hc', mem_filter. fold (removed nist_database keep k).
    destruct (removed nist_database keep k).
    + simpl. destruct (c !! k); by destruct (record !! k).
    + destruct (c !! k); simpl; by destruct (record !! k).
  - intros Hne. destruct records as [|r0 rs]; [done|].
    simpl in Hrem. destruct (pop_elements _ r0) as [r0'|]; simpl in Hrem; [|discriminate].
    destruct (rmap _ rs) as [rs'|]; simpl in Hrem; [|discriminate].
    injection Hrem as <-. simpl in Hflat.
    destruct (flatten_record r0') as [r0''|] eqn:E0; simpl in Hflat; [|discriminate].
    destruct (rmap flatten_record rs') as [rs''|]; simpl in Hflat; [|discriminate].
    injection Hflat as <-. cbn [rmap].
    assert (flatten_record r0'' = Raise KeyError) as ->; [|reflexivity].
    unfold flatten_record. by rewrite (Hgone _ _ E0).
Qed.

Lemma flatten_after_remove_witness :
  exists records' records'',
    _remove_elements_from_compositions ["C"; "H"; "Na"] [salt_record] ["C"; "H"] = Ok records' /\
    _flatten_composition records' = Ok records'' /\
    _flatten_composition records'' = Raise KeyError.
Proof.
  eexists _, _. split; [vm_compute; reflexivity|]. split; [vm_compute; reflexivity|].
  refine (proj2 (flatten_after_remove ["C"; "H"; "Na"] ["C"; "H"] [salt_record] _ _
                   ltac:(vm_compute; reflexivity) ltac:(vm_compute; reflexivity)) _).
  discriminate.
Defined.

(** ** The store of predicted drug products *)

Lemma drug_key_taken (r : drug_record) (tbl : list drug_record) :
  existsb (drug_key r) tbl = true <-> d_compound_id r ∈ map d_compound_id tbl.
Proof.
  rewrite existsb_exists, list_elem_of_fmap. unfold drug_key. split.
  - intros (x & Hx & E). apply String.eqb_eq in E. exists x.
    split; [exact E|by apply list_elem_of_In].
  - intros (x & E & Hx). exists x. split; [by apply list_elem_of_In|].
    by apply String.eqb_eq.
Qed.

Lemma drug_insert_cons (r : drug_record) (t start : list drug_record) :
  drug_insert (r :: t) start =
  if existsb (drug_key r) start then (start, Some IntegrityError)
  else drug_insert t (start ++ [r]).
Proof.
  unfold drug_insert. cbn [cfor]. unfold cseq, exec, sql_insert.
  destruct (existsb (drug_key r) start); reflexivity.
Qed.

Lemma drug_insert_from (records start : list drug_record) :
  NoDup (map d_compound_id start) ->
  if decide (NoDup (map d_compound_id (start ++ records)))
  then drug_insert records start = (start ++ records, None)
  else exists pre r rest,
      records = pre ++ r :: rest /\
      drug_insert records start = (start ++ pre, Some IntegrityError) /\
      d_compound_id r ∈ map d_compound_id (start ++ pre).
Proof.
  revert start. induction records as [|r t IH]; intros start Hstart.
  - rewrite app_nil_r. destruct (decide _); [reflexivity|done].
  - rewrite drug_insert_cons.
    destruct (existsb (drug_key r) start) eqn:E.
    + apply drug_key_taken in E.
      destruct (decide _) as [Hnd|_].
      * exfalso. rewrite map_app in Hnd. apply NoDup_app in Hnd as (_ & Hdisj & _).
        apply (Hdisj _ E). simpl. apply list_elem_of_here.
      * exists [], r, t. rewrite !app_nil_r. split; [reflexivity|]. split; [reflexivity|exact E].
    + assert (NoDup (map d_compound_id (start ++ [r]))) as Hnext.
      { rewrite map_app. apply NoDup_app. split; [exact Hstart|]. split.
        - intros x Hx Hr. simpl in Hr. apply list_elem_of_singleton in Hr as ->.
          apply drug_key_taken in Hx. congruence.
        - simpl. apply NoDup_singleton. }
      specialize (IH (start ++ [r]) Hnext). rewrite <- !app_assoc in IH. simpl in IH.
      destruct (decide _) as [Hnd|Hnd]; [exact IH|].
      destruct IH as (pre & x & rest & -> & Hrun & Hx).
      exists (r :: pre), x, rest. rewrite <- !app_assoc in Hrun, Hx. simpl in Hrun, Hx.
      split; [reflexivity|]. split; [exact Hrun|exact Hx].
Qed.

(** X23. The in-memory store of predicted products. Inserting into the
    fresh store succeeds exactly when the compound ids are pairwise
    distinct; a range query then returns exactly the inserted records
    whose mass lies between the two bounds as SQLite reads them back
    from the query text. With a repeated id the insert raises an
    integrity error at the first repetition and the cursor has inserted
    the records before it. *)
Theorem drug_store_insert_then_select (records : list drug_record) :
  (NoDup (map d_compound_id records) ->
   drug_insert records [] = (records, None) /\
   forall sql_literal lo hi r,
     r ∈ drug_select sql_literal (drug_insert records []).1 lo hi <->
     r ∈ records /\ (sql_literal lo <= d_exact_mass r /\ d_exact_mass r <= sql_literal hi)%Q) /\
  (~ NoDup (map d_compound_id records) ->
   exists pre r rest,
     records = pre ++ r :: rest /\
     drug_insert records [] = (pre, Some IntegrityError) /\
     d_compound_id r ∈ map d_compound_id pre).
Proof.
  pose proof (drug_insert_from records [] (NoDup_nil_2)) as H. simpl in H.
  split.
  - intros Hnd. destruct (decide _) as [_|Hn]; [|done].
    split; [exact H|]. intros sql_literal lo hi r. rewrite H. simpl.
    unfold drug_select. rewrite list_elem_of_filter, Is_true_true, in_range_iff. tauto.
  - intros Hnd. destruct (decide _) as [Hn|_]; [done|]. exact H.
Qed.

Lemma drug_store_insert_then_select_witness :
  (NoDup (map d_compound_id [drug_example]) /\
   drug_insert [drug_example] [] = ([drug_example], None) /\
   drug_example ∈ drug_select literal_exact (drug_insert [drug_example] []).1 40 50) /\
  (~ NoDup (map d_compound_id [drug_example; drug_example]) /\
   exists pre r rest,
     [drug_example; drug_example] = pre ++ r :: rest /\
     drug_insert [drug_example; drug_example] [] = (pre, Some IntegrityError) /\
     d_compound_id r ∈ map d_compound_id pre).
Proof.
  assert (NoDup (map d_compound_id [drug_example])) as Hone
    by (simpl; apply NoDup_singleton).
  assert (~ NoDup (map d_compound_id [drug_example; drug_example])) as Htwo.
  { intros Hnd. simpl in Hnd. apply NoDup_cons in Hnd as [Hin _].
    apply Hin, list_elem_of_here. }
  split.
  - split; [exact Hone|].
    destruct (proj1 (drug_store_insert_then_select [drug_example]) Hone) as [Hins Hsel].
    split; [exact Hins|]. apply Hsel.
    split; [apply list_elem_of_here|split; discriminate].
  - split; [exact Htwo|].
    exact (proj2 (drug_store_insert_then_select [drug_example; drug_example]) Htwo).
Defined.

(** ** Isotopes of a peak table *)

Lemma gapp_raises {A : Type} (g1 g2 : gen A) (e : exn) :
  (gapp g1 g2).2 = Some e -> g1.2 = Some e \/ g2.2 = Some e.
Proof. destruct g1 as [l1 [e1|]]; simpl; tauto. Qed.

Lemma gfor_raises {X A : Type} (l : list X) (f : X -> gen A) (e : exn) :
  (gfor l f).2 = Some e -> exists x, x ∈ l /\ (f x).2 = Some e.
Proof.
  induction l as [|y t IH]; simpl; [discriminate|].
  intros H. apply gapp_raises in H as [H|H].
  - exists y. split; [apply list_elem_of_here|exact H].
  - destruct (IH H) as (x & Hx & Hf). exists x.
    split; [by apply list_elem_of_further|exact Hf].
Qed.

Lemma try_pair_raises (id_x id_y : string) (mz_x mz_y ppm : Q) (lp : lib_pair) (e : exn) :
  (try_pair id_x id_y mz_x mz_y ppm lp).2 = Some e ->
  _check_tolerance mz_x mz_y lp ppm = Raise e \/ pair_ppm_error mz_x mz_y lp = Raise e.
Proof.
  unfold try_pair.
  destruct (_check_tolerance mz_x mz_y lp ppm) as [ct|e']; simpl;
    [|intros [= ->]; by left].
  destruct (ct =? 1)%Z; [|discriminate].
  destruct (pair_ppm_error mz_x mz_y lp) as [pe|e']; simpl; [discriminate|].
  intros [= ->]. by right.
Qed.

Lemma abundances_of_snoc (l : list iso_entry) (x : iso_entry) :
  abundances_of (l ++ [x]) =
  <[iso_label_b x := iso_abundance_b x]>
    (<[iso_label_a x := iso_abundance_a x]> (abundances_of l)).
Proof. unfold abundances_of. by rewrite foldl_app. Qed.

Lemma abundances_of_labels (l : list iso_entry) (e : iso_entry) :
  e ∈ l ->
  is_Some (abundances_of l !! iso_label_a e) /\
  is_Some (abundances_of l !! iso_label_b e).
Proof.
  induction l as [|x t IH] using rev_ind; intros He; [by apply elem_of_nil in He|].
  rewrite abundances_of_snoc, !lookup_insert_is_Some'.
  apply elem_of_app in He as [He|He].
  - destruct (IH He) as [Ha Hb]. tauto.
  - apply list_elem_of_singleton in He as ->. tauto.
Qed.

Lemma intensity_of_present (df : dataframe) (p : peak) :
  p ∈ df -> exists q, intensity_of df (name p) = Ok q.
Proof.
  intros Hp. unfold intensity_of.
  destruct (filter (fun p' => String.eqb (name p') (name p)) df) as [|p' t] eqn:E; [|eauto].
  exfalso. assert (p ∈ filter (fun p' => String.eqb (name p') (name p)) df) as Hin.
  { apply list_elem_of_filter. split; [|exact Hp].
    apply Is_true_true, String.eqb_refl. }
  rewrite E in Hin. by apply elem_of_nil in Hin.
Qed.

Lemma cfor_inserts {A R : Type} (same_key : R -> R -> bool) (items : list A)
  (body : A -> cmd (list R)) :
  (forall x, x ∈ items -> exists row, forall tbl, body x tbl = exec (sql_insert same_key row) tbl) ->
  forall tbl,
    ((cfor items body tbl).2 = None /\
     length (cfor items body tbl).1 = (length tbl + length items)%nat) \/
    (cfor items body tbl).2 = Some IntegrityError.
Proof.
  induction items as [|x t IH]; intros Hbody tbl.
  - left. simpl. split; [reflexivity|lia].
  - cbn [cfor]. unfold cseq.
    destruct (Hbody x (list_elem_of_here _ _)) as [row ->].
    unfold exec, sql_insert. destruct (existsb (same_key row) tbl); [by right|].
    destruct (IH (fun y Hy => Hbody y (list_elem_of_further _ _ _ Hy)) (tbl ++ [row]))
      as [[Hn Hl]|He].
    + left. split; [exact Hn|]. rewrite Hl, length_app. simpl. lia.
    + by right.
Qed.

(** X24. Isotopes of a peak table, with a library every entry of which
    has a mass difference: the generator ends normally or with a
    division by zero, and the abundance and intensity lookups of the
    loop body never fail. The run thus either meets an integrity error
    or ends as the generator does, with exactly one row per yielded
    assignment. *)
Theorem isotopes_of_peaklist_lookups_never_fail (df : dataframe) (ppm : Q)
  (l : list iso_entry) (lib_pairs : list lib_pair) :
  _prep_lib (LibList l) = Ok lib_pairs ->
  let g := _annotate_pairs_from_peaklist df ppm lib_pairs in
  let out := annotate_isotopes (SrcFrame df) ppm (LibList l) in
  (g.2 = None \/ g.2 = Some ZeroDivisionError) /\
  (out.2 = Some IntegrityError \/
   (out.2 = g.2 /\ length out.1 = length g.1)).
Proof.
  intros Hprep g out. split.
  - destruct (g.2) as [ex|] eqn:Eg; [right|by left].
    subst g. unfold _annotate_pairs_from_peaklist in Eg.
    apply gfor_raises in Eg as ([pi rest] & _ & Eg).
    apply gfor_raises in Eg as (pj & _ & Eg).
    apply gfor_raises in Eg as (lp & Hlp & Eg).
    destruct (prep_lib_list_pairs _ _ _ Hprep Hlp) as (e & d & -> & _ & Hd).
    apply try_pair_raises in Eg as [Eg|Eg].
    + exfalso. unfold _check_tolerance, shifted_windows in Eg.
      destruct (calculate_mz_tolerance (mz pi) ppm) as [a1 a2].
      destruct (calculate_mz_tolerance (mz pj) ppm) as [b1 b2].
      rewrite Hd in Eg. cbn in Eg.
      destruct (_ && _) in Eg; discriminate.
    + unfold pair_ppm_error in Eg. rewrite Hd in Eg. unfold ppm_error_checked in Eg.
      destruct (Qeq_bool _ _) in Eg; [|discriminate]. by inversion Eg.
  - subst out. unfold annotate_isotopes. rewrite Hprep. cbn [abundances_of_lib].
    unfold annotate_isotopes_cursor. fold g. unfold cfor_gen, cseq.
    destruct (cfor_inserts isotopes_key g.1 (isotopes_from_peaklist df (abundances_of l))) with (tbl := @nil isotopes_row)
      as [[Hn Hl]|He].
    + intros asg Hasg. subst g. unfold _annotate_pairs_from_peaklist in Hasg.
      apply gfor_elem in Hasg as ([pi rest] & Hpi & Hasg).
      apply later_pairs_elem in Hpi as [Hpi Hrest].
      apply gfor_elem in Hasg as (pj & Hpj & Hasg). apply Hrest in Hpj.
      apply gfor_elem in Hasg as (lp & Hlp & Hasg).
      destruct (prep_lib_list_pairs _ _ _ Hprep Hlp) as (e & d & -> & He & Hd).
      apply try_pair_elem in Hasg as (_ & pe & _ & ->).
      destruct (abundances_of_labels l e He) as [[qa Ha] [qb Hb]].
      destruct (intensity_of_present df pi Hpi) as [ia Hia].
      destruct (intensity_of_present df pj Hpj) as [ib Hib].
      eexists. intros tbl. unfold isotopes_from_peaklist, exec, abundance. cbn.
      rewrite Ha, Hb, Hia, Hib. cbn. reflexivity.
    + destruct (cfor g.1 _ []) as [tbl' [ex|]]; simpl in *; [discriminate|].
      right. split; [reflexivity|exact Hl].
    + destruct (cfor g.1 _ []) as [tbl' [ex|]]; simpl in *; [|discriminate].
      left. exact He.
Qed.

Lemma isotopes_of_peaklist_lookups_never_fail_witness :
  _prep_lib carbon_isotopes = Ok [c13_pair] /\
  let g := _annotate_pairs_from_peaklist zero_intensity_peaks 5 [c13_pair] in
  let out := annotate_isotopes (SrcFrame zero_intensity_peaks) 5 carbon_isotopes in
  (g.2 = None \/ g.2 = Some ZeroDivisionError) /\
  (out.2 = Some IntegrityError \/ (out.2 = g.2 /\ length out.1 = length g.1)).
Proof.
  split; [reflexivity|].
  apply (isotopes_of_peaklist_lookups_never_fail zero_intensity_peaks 5
           [mk_iso "C12" 100 "C13" 1 (Some 1%Q)] [c13_pair]).
  reflexivity.
Defined.
